(** * The feedback-insights worker of [src/index.ts]

    The worker is one [fetch] handler with three routes: [/stats],
    [/insights] and the ingest route [GET /?text=...].  The development
    embeds the handler as executable functions over an explicit world (the
    key-value namespace, the feedback table, a log of the calls made to the
    platform) and the handler's own [let] variables.

    Conventions.
    - JavaScript strings are [string], sequences of code units below 256;
      every character the handler inspects ([{], [}], [&], [<], [>], the
      double quote, digits, signs, blanks) is among them.
    - JavaScript numbers that the handler computes with are counters; they
      are integers [Z] (exact for doubles up to 2^53).  A number read from
      JSON is only copied or printed; the values modelled are the integer
      ones.
    - A thrown exception is the result [None] of a computation; the state
      reached when it was thrown is kept, as assignments made inside a [try]
      block before the throw are kept in JavaScript.
    - What the platform answers (whether a call fails, what the language
      model replies, what [Math.random] draws, how [JSON.parse] and
      [JSON.stringify] behave) is a [Host], indexed by the number of the
      call. *)

From Stdlib Require Import ZArith QArith Qround Ascii String Lia Lqa Sorted.
From stdpp Require Import gmap strings list pretty.

Set Warnings "-register-all".

(** ** JavaScript values *)

Inductive jsval : Type :=
  | JUndefined
  | JNull
  | JBool (b : bool)
  | JNum (n : Z)
  | JStr (s : string)
  | JArr (items : list jsval)
  | JObj (fields : list (string * jsval)).

(** [v ?? d] *)
Definition nullish (v : jsval) : bool :=
  match v with JUndefined | JNull => true | _ => false end.

Definition coalesce (v d : jsval) : jsval := if nullish v then d else v.

(** [if (v)] *)
Definition truthy (v : jsval) : bool :=
  match v with
  | JUndefined | JNull => false
  | JBool b => b
  | JNum n => negb (n =? 0)%Z
  | JStr s => negb (bool_decide (s = EmptyString))
  | JArr _ | JObj _ => true
  end.

(** [typeof v === 'object'] (true of [null] as well) *)
Definition typeof_object (v : jsval) : bool :=
  match v with JNull | JArr _ | JObj _ => true | _ => false end.

Fixpoint assoc (k : string) (fields : list (string * jsval)) : option jsval :=
  match fields with
  | [] => None
  | (k', v) :: rest => if bool_decide (k = k') then Some v else assoc k rest
  end.

(** [k in v], for an object or an array [v] and a key that is no index. *)
Definition has_key (k : string) (v : jsval) : bool :=
  match v with JObj fields => bool_decide (is_Some (assoc k fields)) | _ => false end.

(** [v.k] for the keys the handler reads ([response], [sentiment],
    [category], [summary], [merged_summary]): [None] is the [TypeError] of a
    property read on [null] or [undefined]; a primitive or an array has no
    such property. *)
Definition get_prop (v : jsval) (k : string) : option jsval :=
  match v with
  | JUndefined | JNull => None
  | JObj fields => Some (default JUndefined (assoc k fields))
  | _ => Some JUndefined
  end.

(** [v?.k] *)
Definition get_prop_opt (v : jsval) (k : string) : jsval :=
  default JUndefined (get_prop v k).

(** ** Strings *)

(** The blanks that [trim] and [parseInt] skip, among the code units below
    256: tab, line feed, vertical tab, form feed, carriage return, space
    and the no-break space U+00A0. *)
Definition is_space (c : ascii) : bool :=
  let n := nat_of_ascii c in
  (n =? 32)%nat || ((9 <=? n)%nat && (n <=? 13)%nat) || (n =? 160)%nat.

Fixpoint trimStart (s : string) : string :=
  match s with
  | String c r => if is_space c then trimStart r else s
  | EmptyString => EmptyString
  end.

Definition trim (s : string) : string :=
  String.rev (trimStart (String.rev (trimStart s))).

Fixpoint indexOf (c : ascii) (s : string) : option nat :=
  match s with
  | EmptyString => None
  | String c' r => if bool_decide (c = c') then Some 0%nat else S <$> indexOf c r
  end.

Fixpoint lastIndexOf (c : ascii) (s : string) : option nat :=
  match s with
  | EmptyString => None
  | String c' r =>
      match lastIndexOf c r with
      | Some i => Some (S i)
      | None => if bool_decide (c = c') then Some 0%nat else None
      end
  end.

(** [s.slice(i, j)] for indices within the string. *)
Definition slice (s : string) (i j : nat) : string := String.substring i (j - i) s.

(** [s.slice(n)] *)
Fixpoint slice_from (n : nat) (s : string) : string :=
  match n, s with
  | S n', String _ r => slice_from n' r
  | _, _ => s
  end.

Fixpoint startsWith (s p : string) {struct p} : bool :=
  match p with
  | EmptyString => true
  | String a p' =>
      match s with
      | String b s' => bool_decide (a = b) && startsWith s' p'
      | EmptyString => false
      end
  end.

Fixpoint join (sep : string) (parts : list string) : string :=
  match parts with
  | [] => EmptyString
  | [p] => p
  | p :: rest => p +:+ sep +:+ join sep rest
  end.

(** [s.replace(/c/g, by)] for a one-character pattern. *)
Fixpoint replace (c : ascii) (by_ : string) (s : string) : string :=
  match s with
  | EmptyString => EmptyString
  | String c' r =>
      if bool_decide (c = c') then by_ +:+ replace c by_ r
      else String c' (replace c by_ r)
  end.

(** *** [parseInt(s, 10)]: leading blanks, an optional sign, then the longest
    run of digits; [None] is [NaN]. *)

Definition digit (c : ascii) : option Z :=
  let n := Z.of_nat (nat_of_ascii c) in
  if ((48 <=? n) && (n <=? 57))%Z then Some (n - 48)%Z else None.

Fixpoint digits (s : string) (acc : option Z) : option Z :=
  match s with
  | String c r =>
      match digit c with
      | Some d => digits r (Some (default 0 acc * 10 + d)%Z)
      | None => acc
      end
  | EmptyString => acc
  end.

Definition parseInt (s : string) : option Z :=
  match trimStart s with
  | String "-" r => Z.opp <$> digits r None
  | String "+" r => digits r None
  | r => digits r None
  end.

(** [String(n)] for a counter: its decimal digits.  (From 10^21 on
    [String] prints an exponent; the counters spoken of stay below
    2^53.) *)
Definition String_of (n : Z) : string := pretty n.

(** An integer that a JavaScript number holds exactly, together with its
    neighbours: below 2^53 in absolute value.  On these, [parseInt] of the
    digits, the sum with 1 and the digits that [String] prints are the
    exact ones. *)
Definition safe_integer (n : Z) : Prop := (Z.abs n < 2 ^ 53)%Z.

(** A stored value that, when it reads as a number, reads as such an
    integer. *)
Definition safe_count (stored : option string) : Prop :=
  forall s n, stored = Some s -> parseInt s = Some n -> safe_integer n.

(** The string of a value inside a template literal.  [None] is the
    [TypeError] raised for an object that carries its own [toString] entry
    (no value read from JSON is callable). *)
Fixpoint ToString (v : jsval) : option string :=
  match v with
  | JUndefined => Some "undefined"
  | JNull => Some "null"
  | JBool b => Some (if b then "true" else "false")
  | JNum n => Some (String_of n)
  | JStr s => Some s
  | JArr items =>
      join "," <$>
        (fix elems (l : list jsval) : option (list string) :=
           match l with
           | [] => Some []
           | x :: rest =>
               s ← (if nullish x then Some EmptyString else ToString x);
               ss ← elems rest;
               Some (s :: ss)
           end) items
  | JObj fields =>
      if bool_decide (is_Some (assoc "toString" fields)) then None
      else Some "[object Object]"
  end.

(** [s.includes(sub)] *)
Fixpoint includes (s sub : string) : bool :=
  startsWith s sub ||
  match s with
  | EmptyString => false
  | String _ r => includes r sub
  end.

(** [arr[i] = v]: an index within the array overwrites the slot, an index
    past the end grows the array (the holes read [undefined]), a negative
    number is no index and leaves the elements alone. *)
Definition array_set (arr : list jsval) (i : Z) (v : jsval) : list jsval :=
  if (i <? 0)%Z then arr
  else
    let n := Z.to_nat i in
    if (n <? length arr)%nat then <[n := v]> arr
    else arr ++ replicate (n - length arr) JUndefined ++ [v].

(** [Math.floor(r * 3)] for a draw [r] of [Math.random()], a double with
    [0 <= r < 1].  The product is computed in doubles: it is the real
    product rounded to the nearest double, ties to even.  So the product
    reaches 1.0 from the middle between 1 and the double before it, which
    is [1 - 2^-54], and 2.0 from [2 - 2^-53]; it would reach 3.0 from
    [3 - 2^-52], but three times a double below 1 is at most
    [3 - 3 * 2^-53].  Outside the unit interval, where no draw is, the
    exact floor stands. *)
Definition below_one : Q := 1 - (1 # 2 ^ 54).
Definition below_two : Q := 2 - (1 # 2 ^ 53).

Definition floor_times3 (r : Q) : Z :=
  let x := (r * 3)%Q in
  if Qle_bool 0 x && negb (Qle_bool 3 x) then
    if Qle_bool below_two x then 2%Z
    else if Qle_bool below_one x then 1%Z
    else 0%Z
  else Qfloor x.

(** The slot that [Math.floor(r * 3)] names. *)
Definition slot_drawn (r : Q) (i : nat) : Prop :=
  (i = 0%nat /\ r * 3 < below_one)%Q
  \/ (i = 1%nat /\ below_one <= r * 3 /\ r * 3 < below_two)%Q
  \/ (i = 2%nat /\ below_two <= r * 3)%Q.

(** A stable insertion sort, for [Array.prototype.sort] and for the order of
    a key listing: [before x y] says that [x] may stay in front of [y]. *)
Fixpoint insert_sorted {A} (before : A -> A -> bool) (x : A) (l : list A) : list A :=
  match l with
  | [] => [x]
  | y :: rest => if before x y then x :: l else y :: insert_sorted before x rest
  end.

Definition sort_by {A} (before : A -> A -> bool) (l : list A) : list A :=
  foldr (insert_sorted before) [] l.

(** ** The platform *)

(** The calls the handler makes to its bindings, in the order made. *)
Inductive event : Type :=
  | EvRun (sql : string)                   (* env.feedback_db.prepare(sql).run() *)
  | EvGet (key : string)                   (* env.FEEDBACK_CACHE.get(key) *)
  | EvPut (key : string) (value : jsval)   (* env.FEEDBACK_CACHE.put(key, value) *)
  | EvList (prefix : string)               (* env.FEEDBACK_CACHE.list({prefix, limit}) *)
  | EvModel (texts : list string)          (* env.AI.run(model, prompt) *)
  | EvRandom.                              (* Math.random() *)

Record World : Type := {
  kv : gmap string string;     (* the FEEDBACK_CACHE namespace *)
  feedback : list string;      (* the text column of the feedback table *)
  clock : nat;                 (* number of calls made so far *)
  calls : list event;          (* the calls made so far *)
}.

(** What the platform does, call by call.  [fails n]: the call number [n]
    throws.  [reply n]: what [env.AI.run] resolves to at call [n].
    [random n]: what [Math.random()] returns at call [n].  [put_text v]:
    the text the namespace stores when [put] is handed a value [v] that is
    no string ([None]: it rejects the value). *)
Record Host : Type := {
  fails : nat -> bool;
  reply : nat -> jsval;
  random : nat -> Q;
  JSON_parse : string -> option jsval;
  JSON_stringify : jsval -> string;
  put_text : jsval -> option string;
}.

(** ** Computations: state and exceptions *)

Definition M (L A : Type) : Type := World * L -> option A * (World * L).

Global Instance M_ret {L} : MRet (M L) := fun A a c => (Some a, c).

Global Instance M_bind {L} : MBind (M L) := fun A B f m c =>
  match m c with
  | (Some a, c') => f a c'
  | (None, c') => (None, c')
  end.

Definition throw {L A} : M L A := fun c => (None, c).

(** [try { m } catch { h }] *)
Definition try_catch {L A} (m h : M L A) : M L A := fun c =>
  match m c with
  | (Some a, c') => (Some a, c')
  | (None, c') => h c'
  end.

(** An operation that throws when it has no result. *)
Definition lift {L A} (o : option A) : M L A := fun c => (o, c).

Definition gets {L A} (f : L -> A) : M L A := fun c => (Some (f c.2), c).

Definition assign {L} (f : L -> L) : M L unit := fun c => (Some tt, (c.1, f c.2)).

Definition world {L} : M L World := fun c => (Some c.1, c).

Definition set_world {L} (f : World -> World) : M L unit := fun c => (Some tt, (f c.1, c.2)).

Definition record_call (e : event) (w : World) : World :=
  {| kv := kv w; feedback := feedback w; clock := S (clock w); calls := calls w ++ [e] |}.

Definition store (key value : string) (w : World) : World :=
  {| kv := <[key := value]> (kv w); feedback := feedback w; clock := clock w; calls := calls w |}.

Definition add_row (text : string) (w : World) : World :=
  {| kv := kv w; feedback := feedback w ++ [text]; clock := clock w; calls := calls w |}.

(** A call that cannot fail: it is logged and numbered. *)
Definition tick {L} (e : event) : M L nat := fun c =>
  (Some (clock c.1), (record_call e c.1, c.2)).

Definition is_null (v : jsval) : bool := match v with JNull => true | _ => false end.
Definition is_string (v : jsval) : bool := match v with JStr _ => true | _ => false end.
Definition str_of (v : jsval) : string := match v with JStr s => s | _ => EmptyString end.
Definition nonempty (s : string) : bool := negb (bool_decide (s = EmptyString)).

Section Bindings.
Context (H : Host).

(** A call to a binding: logged and numbered, then it may throw. *)
Definition call {L} (e : event) : M L nat :=
  n ← tick e; if fails H n then throw else mret n.

Definition kv_get {L} (key : string) : M L (option string) :=
  _ ← call (EvGet key); w ← world; mret (kv w !! key).

Definition kv_put {L} (key : string) (value : jsval) : M L unit :=
  _ ← call (EvPut key value);
  s ← lift (match value with JStr s => Some s | _ => put_text H value end);
  set_world (store key s).

(** [list({prefix, limit})]: the keys with the prefix in lexicographic
    order, at most [limit] of them. *)
Definition kv_list {L} (prefix : string) (limit : nat) : M L (list string) :=
  _ ← call (EvList prefix); w ← world;
  mret (take limit (filter (fun k => startsWith k prefix = true)
                      (sort_by String.leb (elements (dom (kv w)))))).

Definition db_run {L} (sql : string) : M L unit :=
  _ ← call (EvRun sql); mret tt.

(** [env.AI.run('gpt-4o-mini', ...)]; [texts] are the texts spliced into
    the prompt between its fixed instruction sentences. *)
Definition ai_run {L} (texts : list string) : M L jsval :=
  n ← call (EvModel texts); mret (reply H n).

Definition Math_random {L} : M L Q :=
  n ← tick EvRandom; mret (random H n).
End Bindings.

(** ** The handler *)

Record Request : Type := {
  pathname : string;             (* url.pathname *)
  text_param : option string;    (* url.searchParams.get("text") *)
  view_param : option string;    (* url.searchParams.get("view") *)
  accept : option string;        (* request.headers.get("accept") *)
}.

(** The [let] variables of the ingest route. *)
Record Locals : Type := {
  sentiment : jsval;
  category : jsval;
  summary : jsval;
  occurrences : Z;
  category_summary : jsval;
  examples : list jsval;
}.

Definition set_sentiment (v : jsval) (l : Locals) : Locals :=
  {| sentiment := v; category := category l; summary := summary l;
     occurrences := occurrences l; category_summary := category_summary l;
     examples := examples l |}.
Definition set_category (v : jsval) (l : Locals) : Locals :=
  {| sentiment := sentiment l; category := v; summary := summary l;
     occurrences := occurrences l; category_summary := category_summary l;
     examples := examples l |}.
Definition set_summary (v : jsval) (l : Locals) : Locals :=
  {| sentiment := sentiment l; category := category l; summary := v;
     occurrences := occurrences l; category_summary := category_summary l;
     examples := examples l |}.
Definition set_occurrences (n : Z) (l : Locals) : Locals :=
  {| sentiment := sentiment l; category := category l; summary := summary l;
     occurrences := n; category_summary := category_summary l;
     examples := examples l |}.
Definition set_category_summary (v : jsval) (l : Locals) : Locals :=
  {| sentiment := sentiment l; category := category l; summary := summary l;
     occurrences := occurrences l; category_summary := v;
     examples := examples l |}.
Definition set_examples (v : list jsval) (l : Locals) : Locals :=
  {| sentiment := sentiment l; category := category l; summary := summary l;
     occurrences := occurrences l; category_summary := category_summary l;
     examples := v |}.

(** One entry of the [/stats] and [/insights] listings. *)
Record Item : Type := {
  it_category : string;
  it_occurrences : Z;
  it_category_summary : option string;   (* [None] is [null] *)
  it_examples : jsval;
}.

(** The body handed to [new Response]; the JSON bodies are kept as the
    value given to [JSON.stringify]. *)
Inductive Body : Type :=
  | BStats (items : list (string * Z))
  | BInsights (items : list Item)
  | BHtml (html : string)
  | BError (error : string)
  | BSuccess (text : string) (vars : Locals).

Record Response : Type := {
  status : nat;
  content_type : string;
  body : Body;
}.

Definition json (st : nat) (b : Body) : Response :=
  {| status := st; content_type := "application/json"; body := b |}.

Definition dq : string := String "034" EmptyString.

Definition missing_text : string := "Missing " +:+ dq +:+ "text" +:+ dq +:+ " query parameter".

(** [esc], line 64. *)
Definition esc (s : string) : string :=
  replace "034" "&quot;" (replace ">" "&gt;" (replace "<" "&lt;" (replace "&" "&amp;" s))).

(** [(it.examples || []).join(' | ')]: [None] is the [TypeError] of calling
    [join] on a value that is no array. *)
Definition join_examples (v : jsval) : option string :=
  if truthy v then
    match v with
    | JArr items =>
        join " | " <$> mapM (fun x => if nullish x then Some EmptyString else ToString x) items
    | _ => None
    end
  else Some EmptyString.

(** One table row, line 65. *)
Definition row (it : Item) : option string :=
  ex ← join_examples (it_examples it);
  Some ("<tr><td>" +:+ esc (it_category it) +:+ "</td><td>" +:+ String_of (it_occurrences it)
        +:+ "</td><td>" +:+ esc (default EmptyString (it_category_summary it))
        +:+ "</td><td>" +:+ esc ex +:+ "</td></tr>").

Definition page (rows : string) : string :=
  "<!doctype html><html><head><meta charset=" +:+ dq +:+ "utf-8" +:+ dq
  +:+ "><title>Insights</title></head><body><table border=" +:+ dq +:+ "1" +:+ dq
  +:+ " cellpadding=" +:+ dq +:+ "4" +:+ dq +:+ " cellspacing=" +:+ dq +:+ "0" +:+ dq
  +:+ "><thead><tr><th>Category</th><th>Occurrences</th><th>Summary</th><th>Examples</th></tr></thead><tbody>"
  +:+ rows +:+ "</tbody></table></body></html>".

(** [val === null ? 0 : (parseInt(val, 10) || 0)] *)
Definition read_count (val : option string) : Z :=
  match val with
  | None => 0
  | Some v => default 0%Z (parseInt v)
  end.

(** [name.startsWith(prefix) ? name.slice(prefix.length) : name] *)
Definition category_of (prefix name : string) : string :=
  if startsWith name prefix then slice_from (String.length prefix) name else name.

(** [items.sort((a, b) => b.occurrences - a.occurrences)] *)
Definition by_occurrences {A} (occ : A -> Z) (items : list A) : list A :=
  sort_by (fun a b => (occ b <=? occ a)%Z) items.

Definition wantsHtml (req : Request) : bool :=
  includes (default EmptyString (accept req)) "text/html"
  || bool_decide (view_param req = Some "html").

Section Handler.
Context (H : Host).

(** *** [/stats], lines 20-38 *)

Definition stats_item (name : string) : M unit (string * Z) :=
  val ← kv_get H name;
  mret (category_of "category:" name, read_count val).

Definition stats : M unit Response :=
  try_catch
    (keys ← kv_list H "category:" 1000;
     items ← foldr (fun k acc => it ← stats_item k; rest ← acc; mret (it :: rest))
                   (mret []) keys;
     mret (json 200 (BStats (by_occurrences snd items))))
    (mret (json 500 (BError "KV read error"))).

(** *** [/insights], lines 40-73 *)

(** The body of the loop, lines 47-59. *)
Definition insights_item (name : string) : M unit Item :=
  let category := category_of "category:" name in
  val ← kv_get H name;
  let occurrences := read_count val in
  let sumKey := "category_summary:" +:+ category in
  let exKey := "category_examples:" +:+ category in
  category_summary ← kv_get H sumKey;
  raw ← kv_get H exKey;
  let examples :=
    match raw with
    | Some raw =>
        if nonempty raw then default (JArr []) (JSON_parse H raw) else JArr []
    | None => JArr []
    end in
  mret {| it_category := category; it_occurrences := occurrences;
          it_category_summary := category_summary; it_examples := examples |}.

Definition insights (req : Request) : M unit Response :=
  try_catch
    (keys ← kv_list H "category:" 1000;
     items ← foldr (fun k acc => it ← insights_item k; rest ← acc; mret (it :: rest))
                   (mret []) keys;
     let items := by_occurrences it_occurrences items in
     if wantsHtml req then
       rows ← lift (mapM row items);
       mret {| status := 200; content_type := "text/html; charset=utf-8";
               body := BHtml (page (join EmptyString rows)) |}
     else mret (json 200 (BInsights items)))
    (mret (json 500 (BError "KV read error"))).
End Handler.

Section Ingest.
Context (H : Host).

(** *** The classifier block, lines 96-129 *)

(** Lines 107-113: the reply's [response] when the reply is an object
    that has one and it is a string, [null] otherwise. *)
Definition response_of (aiResult : jsval) : option string :=
  if truthy aiResult && typeof_object aiResult && has_key "response" aiResult
     && is_string (get_prop_opt aiResult "response")
  then Some (str_of (get_prop_opt aiResult "response"))
  else None.

(** Lines 115-125. *)
Definition read_classification (raw : option string) : M Locals unit :=
  match raw with
  | Some raw =>
      if nonempty raw then
        match indexOf "{" raw, lastIndexOf "}" raw with
        | Some firstBrace, Some lastBrace =>
            let json := slice raw firstBrace (lastBrace + 1) in
            parsed ← lift (JSON_parse H json);
            v ← lift (get_prop parsed "sentiment");
            assign (fun l => set_sentiment (coalesce v (sentiment l)) l);;
            v ← lift (get_prop parsed "category");
            assign (fun l => set_category (coalesce v (category l)) l);;
            v ← lift (get_prop parsed "summary");
            assign (fun l => set_summary (coalesce v (summary l)) l)
        | _, _ => mret tt
        end
      else mret tt
  | None => mret tt
  end.

Definition classify (text : string) : M Locals unit :=
  assign (set_sentiment (JStr "unknown"));;
  assign (set_category (JStr "unknown"));;
  assign (set_summary (JStr "N/A"));;
  try_catch
    (aiResult ← ai_run H [text];
     read_classification (response_of aiResult))
    (mret tt).

(** *** The count block, lines 131-145 *)

(** Lines 136-141: the value given to [occurrences] once the read has
    returned [existing].  (The sum is the one of line 140 as long as the
    number read is a [safe_integer].) *)
Definition next_count (existing : option string) : Z :=
  match existing with
  | None => 1
  | Some existing =>
      match parseInt existing with
      | None => 1
      | Some n => n + 1
      end
  end.

Definition incrementCount : M Locals unit :=
  assign (set_occurrences 0);;
  try_catch
    (category ← gets category;
     c ← lift (ToString category);
     let kvKey := "category:" +:+ c in
     existing ← kv_get H kvKey;
     assign (set_occurrences (next_count existing));;
     occurrences ← gets occurrences;
     kv_put H kvKey (JStr (String_of occurrences)))
    (mret tt).

(** *** The summary block, lines 147-203

    Lines 158-199 do not parse: two drafts of the merge are laid over each
    other.  One of them is complete, the statements of lines 168-186: the
    call of line 169, the text of line 170 and the [try] of lines 171-186;
    they stand inside the [try] of line 158, whose [catch] is lines
    196-199.  The other is in pieces: a call whose result is declared a
    second time at line 169 (lines 162-167), the last lines of a helper
    whose head is missing (lines 187-191), and statements that call a
    function [extractAndParseMerge] defined nowhere (lines 192-195).  The
    embedding is the complete draft; the pieces of the other are left
    out. *)

(** Line 170. *)
Definition textOut_of (aiRes : jsval) : string :=
  if truthy aiRes && is_string (get_prop_opt aiRes "response")
  then trim (str_of (get_prop_opt aiRes "response"))
  else match aiRes with JStr s => trim s | _ => EmptyString end.

(** Lines 171-186. *)
Definition merge_reply (sumKey existingSummary : string) (aiRes : jsval) : M Locals unit :=
  let textOut := textOut_of aiRes in
  try_catch
    (if nonempty textOut then
       parsed ← lift (JSON_parse H textOut);
       m ← lift (get_prop parsed "merged_summary");
       let merged := coalesce m (JStr existingSummary) in
       assign (set_category_summary merged);;
       kv_put H sumKey merged
     else if typeof_object aiRes && negb (is_null aiRes) then
       let parsed := aiRes in
       m ← lift (get_prop parsed "merged_summary");
       let merged := coalesce m (JStr existingSummary) in
       assign (set_category_summary merged);;
       kv_put H sumKey merged
     else mret tt)
    (assign (set_category_summary (JStr existingSummary))).

(** Lines 158-161, 168-186 and 196-199. *)
Definition mergeSummary (sumKey existingSummary : string) : M Locals unit :=
  try_catch
    (summary ← gets summary;
     new ← lift (ToString summary);
     aiRes ← ai_run H [existingSummary; new];
     merge_reply sumKey existingSummary aiRes)
    (assign (set_category_summary (JStr existingSummary))).

Definition updateSummary : M Locals unit :=
  assign (fun l => set_category_summary (summary l) l);;
  try_catch
    (category ← gets category;
     c ← lift (ToString category);
     let sumKey := "category_summary:" +:+ c in
     existingSummary ← kv_get H sumKey;
     match existingSummary with
     | None =>
         summary ← gets summary;
         kv_put H sumKey summary;;
         assign (set_category_summary summary)
     | Some existingSummary => mergeSummary sumKey existingSummary
     end)
    (mret tt).

(** *** The examples block, lines 205-232 *)

(** Lines 214-224, for a stored value that parsed to [arr]. *)
Definition addExample (arr : jsval) (text : string) : M Locals unit :=
  match arr with
  | JArr arr =>
      if (length arr <? 3)%nat then assign (set_examples (arr ++ [JStr text]))
      else
        r ← Math_random H;
        let idx := floor_times3 r in
        assign (set_examples (array_set arr idx (JStr text)))
  | _ => assign (set_examples [JStr text])
  end.

Definition updateExamples (text : string) : M Locals unit :=
  assign (set_examples []);;
  try_catch
    (category ← gets category;
     c ← lift (ToString category);
     let exKey := "category_examples:" +:+ c in
     raw ← kv_get H exKey;
     match raw with
     | None => assign (set_examples [JStr text])
     | Some raw =>
         try_catch
           (arr ← lift (JSON_parse H raw); addExample arr text)
           (assign (set_examples [JStr text]))
     end;;
     examples ← gets examples;
     kv_put H exKey (JStr (JSON_stringify H (JArr examples))))
    (mret tt).

(** *** The ingest route, lines 74-237 *)

Definition create_table : string :=
  "CREATE TABLE IF NOT EXISTS feedback (id INTEGER PRIMARY KEY AUTOINCREMENT, text TEXT, created_at TIMESTAMP DEFAULT CURRENT_TIMESTAMP)".

Definition persist (text : string) : M Locals unit :=
  db_run H create_table;;
  db_run H "INSERT INTO feedback (text) VALUES (?)";;
  set_world (add_row text).

Definition ingest (text : string) : M Locals Response :=
  try_catch
    (persist text;;
     classify text;;
     incrementCount;;
     updateSummary;;
     updateExamples text;;
     vars ← gets id;
     mret (json 200 (BSuccess text vars)))
    (mret (json 500 (BError "Database error"))).

Definition fresh : Locals :=
  {| sentiment := JUndefined; category := JUndefined; summary := JUndefined;
     occurrences := 0; category_summary := JUndefined; examples := [] |}.

(** [fetch], lines 15-238: the response ([None] would be an exception
    that leaves the handler) and the world after the request. *)
Definition fetch (req : Request) (w : World) : option Response * World :=
  if bool_decide (pathname req = "/stats") then
    let '(r, (w', _)) := stats H (w, tt) in (r, w')
  else if bool_decide (pathname req = "/insights") then
    let '(r, (w', _)) := insights H req (w, tt) in (r, w')
  else
    match text_param req with
    | Some text =>
        if nonempty text then
          let '(r, (w', _)) := ingest text (w, fresh) in (r, w')
        else (Some (json 400 (BError missing_text)), w)
    | None => (Some (json 400 (BError missing_text)), w)
    end.
End Ingest.

(** ** The statements of the specification, as written there *)

(** "reads current count (missing treated as 0), computes
    max(parsedValue, 0) + 1 guarding against a non-numeric stored value by
    treating it as 0". *)
Definition spec_incrementCount (stored : option string) : Z :=
  Z.max (default 0%Z (stored ≫= parseInt)) 0 + 1.

(** The HTML entity of a character. *)
Definition entity (c : ascii) : string :=
  if bool_decide (c = "&"%char) then "&amp;"
  else if bool_decide (c = "<"%char) then "&lt;"
  else if bool_decide (c = ">"%char) then "&gt;"
  else if bool_decide (c = "034"%char) then "&quot;"
  else String c EmptyString.

(** Every character replaced by its entity. *)
Fixpoint entities (s : string) : string :=
  match s with
  | EmptyString => EmptyString
  | String c r => entity c +:+ entities r
  end.

Definition special (c : ascii) : bool :=
  bool_decide (c = "&"%char) || bool_decide (c = "<"%char)
  || bool_decide (c = ">"%char) || bool_decide (c = "034"%char).

(** Text in which none of the four characters stands for itself: it is made
    of other characters and of whole entities. *)
Inductive escaped : string -> Prop :=
  | escaped_nil : escaped EmptyString
  | escaped_plain c s : special c = false -> escaped s -> escaped (String c s)
  | escaped_entity c s : special c = true -> escaped s -> escaped (entity c +:+ s).

(** One table row with every text replaced by its entities. *)
Definition safe_row (category : string) (occurrences : Z) (summary : string)
    (examples : list string) : string :=
  "<tr><td>" +:+ entities category +:+ "</td><td>" +:+ String_of occurrences
  +:+ "</td><td>" +:+ entities summary
  +:+ "</td><td>" +:+ join " | " (entities <$> examples) +:+ "</td></tr>".

(** The texts of the examples of an entry, as [join] prints them. *)
Definition example_texts (v : jsval) : option (list string) :=
  if truthy v then
    match v with
    | JArr items => mapM (fun x => if nullish x then Some EmptyString else ToString x) items
    | _ => None
    end
  else Some [].

(** A world with the given namespace and nothing else. *)
Definition world_of (m : gmap string string) : World :=
  {| kv := m; feedback := []; clock := 0; calls := [] |}.

(** Math.random() draws from the unit interval. *)
Definition unit_interval (r : Q) : Prop := (0 <= r)%Q /\ (r < 1)%Q.

(** ** A JSON reader and printer

    [JSON.parse] and [JSON.stringify] belong to the runtime; the handler is
    modelled over any pair of them ([Host]).  To run the model, here is a
    pair for the JSON texts whose numbers are integers and whose strings
    hold code units below 256.  The reader accepts no text that
    [JSON.parse] rejects; it rejects numbers with a fraction or an
    exponent. *)

Definition hex (n : nat) : ascii :=
  match n with
  | 0 => "0" | 1 => "1" | 2 => "2" | 3 => "3" | 4 => "4" | 5 => "5" | 6 => "6"
  | 7 => "7" | 8 => "8" | 9 => "9" | 10 => "a" | 11 => "b" | 12 => "c"
  | 13 => "d" | 14 => "e" | _ => "f"
  end%nat%char.

Definition unhex (c : ascii) : option nat :=
  let n := nat_of_ascii c in
  if (48 <=? n)%nat && (n <=? 57)%nat then Some (n - 48)%nat
  else if (97 <=? n)%nat && (n <=? 102)%nat then Some (n - 87)%nat
  else if (65 <=? n)%nat && (n <=? 70)%nat then Some (n - 55)%nat
  else None.

(** How [JSON.stringify] writes one character of a string. *)
Definition quote_char (c : ascii) : string :=
  let n := nat_of_ascii c in
  if bool_decide (c = "034"%char) then String "\" dq
  else if bool_decide (c = "\"%char) then "\\"
  else if (n =? 8)%nat then "\b"
  else if (n =? 9)%nat then "\t"
  else if (n =? 10)%nat then "\n"
  else if (n =? 12)%nat then "\f"
  else if (n =? 13)%nat then "\r"
  else if (n <? 32)%nat then
    "\u00" +:+ String (hex (n / 16)) (String (hex (n mod 16)) EmptyString)
  else String c EmptyString.

Fixpoint quote_chars (s : string) : string :=
  match s with
  | EmptyString => EmptyString
  | String c r => quote_char c +:+ quote_chars r
  end.

Definition quote (s : string) : string := dq +:+ quote_chars s +:+ dq.

Fixpoint json_text (v : jsval) : string :=
  match v with
  | JUndefined | JNull => "null"
  | JBool b => if b then "true" else "false"
  | JNum n => String_of n
  | JStr s => quote s
  | JArr items =>
      "[" +:+ join "," ((fix texts (l : list jsval) : list string :=
                           match l with
                           | [] => []
                           | x :: rest => json_text x :: texts rest
                           end) items) +:+ "]"
  | JObj fields =>
      "{" +:+ join "," ((fix texts (l : list (string * jsval)) : list string :=
                           match l with
                           | [] => []
                           | (k, JUndefined) :: rest => texts rest
                           | (k, x) :: rest => (quote k +:+ ":" +:+ json_text x) :: texts rest
                           end) fields) +:+ "}"
  end.

Definition json_space (c : ascii) : bool :=
  let n := nat_of_ascii c in
  (n =? 32)%nat || (n =? 9)%nat || (n =? 10)%nat || (n =? 13)%nat.

Fixpoint skip_space (s : string) : string :=
  match s with
  | String c r => if json_space c then skip_space r else s
  | EmptyString => EmptyString
  end.

Definition keep (c : ascii) (r : option (string * string)) : option (string * string) :=
  '(chars, rest) ← r; Some (String c chars, rest).

(** The characters of a string literal after its opening quote, and the
    text after its closing quote. *)
Fixpoint string_body (s : string) : option (string * string) :=
  match s with
  | EmptyString => None
  | String c r =>
      if bool_decide (c = "034"%char) then Some (EmptyString, r)
      else if bool_decide (c = "\"%char) then
        match r with
        | String e r' =>
            if bool_decide (e = "034"%char) then keep "034" (string_body r')
            else if bool_decide (e = "\"%char) then keep "\" (string_body r')
            else if bool_decide (e = "/"%char) then keep "/" (string_body r')
            else if bool_decide (e = "b"%char) then keep "008" (string_body r')
            else if bool_decide (e = "f"%char) then keep "012" (string_body r')
            else if bool_decide (e = "n"%char) then keep "010" (string_body r')
            else if bool_decide (e = "r"%char) then keep "013" (string_body r')
            else if bool_decide (e = "t"%char) then keep "009" (string_body r')
            else if bool_decide (e = "u"%char) then
              match r' with
              | String h1 (String h2 (String h3 (String h4 r''))) =>
                  match unhex h1, unhex h2, unhex h3, unhex h4 with
                  | Some 0%nat, Some 0%nat, Some a, Some b =>
                      keep (ascii_of_nat (16 * a + b)) (string_body r'')
                  | _, _, _, _ => None
                  end
              | _ => None
              end
            else None
        | EmptyString => None
        end
      else if (nat_of_ascii c <? 32)%nat then None
      else keep c (string_body r)
  end.

(** An integer literal: the digits after an optional sign, no leading zero,
    no fraction and no exponent behind it. *)
Fixpoint digit_run (s : string) (acc : Z) : Z * string :=
  match s with
  | String c r =>
      match digit c with
      | Some d => digit_run r (acc * 10 + d)%Z
      | None => (acc, s)
      end
  | EmptyString => (acc, s)
  end.

Definition number_end (rest : string) : bool :=
  match rest with
  | String c _ =>
      negb (bool_decide (c = "."%char) || bool_decide (c = "e"%char) || bool_decide (c = "E"%char))
  | EmptyString => true
  end.

Definition natural (s : string) : option (Z * string) :=
  match s with
  | String c r =>
      match digit c with
      | Some d =>
          let '(n, rest) := digit_run r d in
          if (d =? 0)%Z && negb (bool_decide (rest = r)) then None
          else if number_end rest then Some (n, rest) else None
      | None => None
      end
  | EmptyString => None
  end.

Inductive mode : Type := Value | Elements | Members.

Fixpoint read (fuel : nat) (m : mode) (s : string) : option (jsval * string) :=
  match fuel with
  | O => None
  | S fuel =>
      match m with
      | Value =>
          match skip_space s with
          | String c r =>
              if bool_decide (c = "["%char) then
                match skip_space r with
                | String "]" r' => Some (JArr [], r')
                | _ => read fuel Elements r
                end
              else if bool_decide (c = "{"%char) then
                match skip_space r with
                | String "}" r' => Some (JObj [], r')
                | _ => read fuel Members r
                end
              else if bool_decide (c = "034"%char) then
                '(chars, rest) ← string_body r; Some (JStr chars, rest)
              else if bool_decide (c = "-"%char) then
                '(n, rest) ← natural r; Some (JNum (- n), rest)
              else if startsWith (String c r) "true" then Some (JBool true, slice_from 4 (String c r))
              else if startsWith (String c r) "false" then Some (JBool false, slice_from 5 (String c r))
              else if startsWith (String c r) "null" then Some (JNull, slice_from 4 (String c r))
              else '(n, rest) ← natural (String c r); Some (JNum n, rest)
          | EmptyString => None
          end
      | Elements =>
          '(v, rest) ← read fuel Value s;
          match skip_space rest with
          | String "," rest' =>
              '(more, out) ← read fuel Elements rest';
              match more with
              | JArr items => Some (JArr (v :: items), out)
              | _ => None
              end
          | String "]" out => Some (JArr [v], out)
          | _ => None
          end
      | Members =>
          match skip_space s with
          | String c r =>
              if bool_decide (c = "034"%char) then
                '(k, rest) ← string_body r;
                match skip_space rest with
                | String ":" rest' =>
                    '(v, rest'') ← read fuel Value rest';
                    match skip_space rest'' with
                    | String "," rest''' =>
                        '(more, out) ← read fuel Members rest''';
                        match more with
                        | JObj fields =>
                            Some (JObj (if bool_decide (is_Some (assoc k fields)) then fields
                                        else (k, v) :: fields), out)
                        | _ => None
                        end
                    | String "}" out => Some (JObj [(k, v)], out)
                    | _ => None
                    end
                | _ => None
                end
              else None
          | EmptyString => None
          end
      end
  end.

Definition json_parse (s : string) : option jsval :=
  '(v, rest) ← read (2 * String.length s + 2) Value s;
  if bool_decide (skip_space rest = EmptyString) then Some v else None.

(** A platform with scripted failures and replies: it reads and prints JSON
    as above, stores the [String(v)] of a value that is no string, and
    draws [r] at every [Math.random()]. *)
Definition scripted (fails : nat -> bool) (reply : nat -> jsval) (r : Q) : Host :=
  {| fails := fails; reply := reply; random := fun _ => r;
     JSON_parse := json_parse; JSON_stringify := json_text;
     put_text := ToString |}.

Definition never : nat -> bool := fun _ => false.
Definition only (n : nat) : nat -> bool := fun k => (k =? n)%nat.

Definition empty_world : World := {| kv := ∅; feedback := []; clock := 0; calls := [] |}.

Definition ingest_request (text : string) : Request :=
  {| pathname := "/"; text_param := Some text; view_param := None; accept := None |}.

Definition insights_request (view : option string) : Request :=
  {| pathname := "/insights"; text_param := None; view_param := view; accept := None |}.

(** ** Concurrent submissions into one category

    Each submission runs the count block of the handler, lines 131-145.
    The block calls the namespace twice, a [get] of the category's key and
    a [put] under it, and the calls of several submissions interleave:
    between the [get] and the [put] of one submission, others read and
    write.  What a submission writes is what the block itself makes of what
    its [get] returned: the block is run on the namespace as the submission
    has seen it.  A call may also fail, which ends the block of that
    submission without a write. *)

(** The namespace as a submission into category [c] has seen it, when its
    [get] returned [existing]. *)
Definition seen (c : string) (existing : option string) : World :=
  world_of (match existing with
            | Some s => {["category:" +:+ c := s]}
            | None => ∅
            end).

(** What the count block leaves under the key of [c] when it runs on that
    namespace and its two calls go through. *)
Definition block_stores (c : string) (existing : option string) : option string :=
  kv (incrementCount (scripted never (fun _ => JNull) (1 # 2))
        (seen c existing, set_category (JStr c) fresh)).2.1
    !! ("category:" +:+ c).

Inductive submission : Type :=
  | Waiting                              (* before the get *)
  | HasRead (existing : option string)   (* between the get and the put *)
  | Finished (written : bool).           (* after the block; [written]: the put went through *)

Record race : Type := {
  cell : option string;           (* the value stored under the category's key *)
  pending : list submission;
}.

Inductive race_step (c : string) : race -> race -> Prop :=
  | step_get i s :
      pending s !! i = Some Waiting ->
      race_step c s {| cell := cell s; pending := <[i := HasRead (cell s)]> (pending s) |}
  | step_get_fails i s :
      pending s !! i = Some Waiting ->
      race_step c s {| cell := cell s; pending := <[i := Finished false]> (pending s) |}
  | step_put i s existing :
      pending s !! i = Some (HasRead existing) ->
      race_step c s {| cell := block_stores c existing;
                       pending := <[i := Finished true]> (pending s) |}
  | step_put_fails i s existing :
      pending s !! i = Some (HasRead existing) ->
      race_step c s {| cell := cell s; pending := <[i := Finished false]> (pending s) |}.

Definition race_start (n : nat) : race :=
  {| cell := None; pending := replicate n Waiting |}.

Definition wrote (t : submission) : bool :=
  match t with Finished true => true | _ => false end.

(** Number of submissions whose put went through. *)
Definition writes (l : list submission) : nat := length (filter (fun t => wrote t = true) l).

(** What holds of every state the submissions can reach: the stored count is
    absent as long as no write went through, and afterwards it is the text
    of a number between 1 and the number of writes that went through; the
    same holds of what a submission has read and not yet written back. *)
Definition count_ok (n : nat) (v : option string) : Prop :=
  v = None \/ exists k : Z, v = Some (String_of k) /\ (1 <= k <= Z.of_nat n)%Z.

Definition race_ok (s : race) : Prop :=
  (cell s = None /\ writes (pending s) = 0%nat
   \/ exists k : Z, cell s = Some (String_of k) /\ (1 <= k <= Z.of_nat (writes (pending s)))%Z)
  /\ forall i v, pending s !! i = Some (HasRead v) -> count_ok (writes (pending s)) v.

(** A closed run of two submissions that both read before either writes:
    the second write repeats the first, and the count is 1 after two
    writes. *)
Definition lost_update : race :=
  {| cell := Some "1"; pending := [Finished true; Finished true] |}.

(** The count blocks of [n] submissions run one after the other, each to
    its end, on a platform [H]. *)
Fixpoint blocks_in_turn (H : Host) (l : Locals) (n : nat) (w : World) : World :=
  match n with
  | 0 => w
  | S n => blocks_in_turn H l n (incrementCount H (w, l)).2.1
  end.

(** ** Statements about computations *)

(** The computation returns from every state: no exception leaves it. *)
Definition returns {L A} (m : M L A) : Prop := forall c, is_Some (m c).1.

(** [frame Pk Pe RL c c']: from [c] to [c'] the feedback table is the same,
    the namespace differs at most on keys in [Pk], the calls made are all
    in [Pe] and the clock counts them, and the variables are related by
    [RL]. *)
Definition frame {L} (Pk : string -> bool) (Pe : event -> bool) (RL : relation L) :
  relation (World * L) :=
  fun c c' =>
    feedback c'.1 = feedback c.1
    /\ (forall key, Pk key = false -> kv c'.1 !! key = kv c.1 !! key)
    /\ (exists new, calls c'.1 = calls c.1 ++ new
                    /\ clock c'.1 = (clock c.1 + length new)%nat
                    /\ forallb Pe new = true)
    /\ RL c.2 c'.2.

(** Whatever its result, the computation relates the state it starts in to
    the state it ends in. *)
Definition keeps {L A} (R : relation (World * L)) (m : M L A) : Prop :=
  forall c, R c (m c).2.

(** The ways in which the classifier gives no classification: the call
    number [n] throws; its reply carries no text; the text has no opening
    or no closing brace; what stands between the braces is no JSON; the
    value read has none of the three keys. *)
Inductive classifier_failed (H : Host) (n : nat) : Prop :=
  | call_throws :
      fails H n = true -> classifier_failed H n
  | no_text :
      fails H n = false ->
      response_of (reply H n) = None \/ response_of (reply H n) = Some EmptyString ->
      classifier_failed H n
  | no_braces raw :
      fails H n = false -> response_of (reply H n) = Some raw ->
      indexOf "{" raw = None \/ lastIndexOf "}" raw = None ->
      classifier_failed H n
  | malformed raw i j :
      fails H n = false -> response_of (reply H n) = Some raw ->
      indexOf "{" raw = Some i -> lastIndexOf "}" raw = Some j ->
      JSON_parse H (slice raw i (j + 1)) = None ->
      classifier_failed H n
  | keys_missing raw i j parsed :
      fails H n = false -> response_of (reply H n) = Some raw ->
      indexOf "{" raw = Some i -> lastIndexOf "}" raw = Some j ->
      JSON_parse H (slice raw i (j + 1)) = Some parsed ->
      nullish (get_prop_opt parsed "sentiment") = true ->
      nullish (get_prop_opt parsed "category") = true ->
      nullish (get_prop_opt parsed "summary") = true ->
      classifier_failed H n.

(** The classifier's reply at call [n] holds the object [fields] between
    its first opening and its last closing brace. *)
Definition classifier_read (H : Host) (n : nat) (fields : list (string * jsval)) : Prop :=
  fails H n = false
  /\ exists raw i j,
      response_of (reply H n) = Some raw /\ raw <> EmptyString
      /\ indexOf "{" raw = Some i /\ lastIndexOf "}" raw = Some j
      /\ JSON_parse H (slice raw i (j + 1)) = Some (JObj fields).

(** The value carries no merged summary: it has no [merged_summary], or a
    null one. *)
Definition no_merged (v : jsval) : bool := nullish (get_prop_opt v "merged_summary").

(** A text that yields no merged summary: it is no JSON, or the value read
    from it carries none. *)
Inductive text_fails (H : Host) (t : string) : Prop :=
  | text_unparsable : JSON_parse H t = None -> text_fails H t
  | text_without_key parsed :
      JSON_parse H t = Some parsed -> no_merged parsed = true -> text_fails H t.

(** A reply of the merge service that lines 170-186 take up and that yields
    no merged summary: it has a text, which is no JSON or JSON without a
    merged summary; or it has no text and is an object without one. *)
Inductive reply_fails (H : Host) (aiRes : jsval) : Prop :=
  | reply_text :
      textOut_of aiRes <> EmptyString -> text_fails H (textOut_of aiRes) ->
      reply_fails H aiRes
  | reply_object :
      textOut_of aiRes = EmptyString -> typeof_object aiRes = true -> aiRes <> JNull ->
      no_merged aiRes = true -> reply_fails H aiRes.

(** The merge fails with the service answering: the call to the service
    (call [n]) throws, or its reply yields no merged summary. *)
Inductive merge_failed (H : Host) (n : nat) : Prop :=
  | merge_throws :
      fails H n = true -> merge_failed H n
  | merge_useless :
      fails H n = false -> reply_fails H (reply H n) -> merge_failed H n.


(** What lines 210-227 make of the stored examples [stored] and the new
    text, [r] being the number drawn if one is drawn. *)
Inductive added (H : Host) (text : string) (r : Q) : option string -> list jsval -> Prop :=
  | added_first :
      added H text r None [JStr text]
  | added_unparsable raw :
      JSON_parse H raw = None -> added H text r (Some raw) [JStr text]
  | added_no_array raw v :
      JSON_parse H raw = Some v -> (forall arr, v <> JArr arr) ->
      added H text r (Some raw) [JStr text]
  | added_below raw arr :
      JSON_parse H raw = Some (JArr arr) -> (length arr < 3)%nat ->
      added H text r (Some raw) (arr ++ [JStr text])
  | added_full raw arr :
      JSON_parse H raw = Some (JArr arr) -> (3 <= length arr)%nat ->
      added H text r (Some raw) (array_set arr (floor_times3 r) (JStr text)).

(** No key of the examples holds anything but the text of at most three
    strings. *)
Definition examples_bounded (H : Host) (w : World) : Prop :=
  forall key, startsWith key "category_examples:" = true ->
    kv w !! key = None
    \/ exists ts : list string,
         (length ts <= 3)%nat /\ kv w !! key = Some (JSON_stringify H (JArr (JStr <$> ts))).

Definition no_vars : relation unit := fun _ _ => True.

(** The variables once lines 97-99 have run. *)
Definition defaults (l : Locals) : Locals :=
  set_summary (JStr "N/A") (set_category (JStr "unknown") (set_sentiment (JStr "unknown") l)).

(** The world once the two statements on the table have run. *)
Definition persisted (text : string) (w : World) : World :=
  add_row text
    (record_call (EvRun "INSERT INTO feedback (text) VALUES (?)")
       (record_call (EvRun create_table) w)).

(** A series of requests, each served in the world the one before left. *)
Definition serve (H : Host) (reqs : list Request) (w : World) : World :=
  foldl (fun w req => (fetch H req w).2) w reqs.

(** The calls of a block that works on the keys with prefix [p]: reads and
    writes of such keys, calls to the model, random draws. *)
Definition on_prefix (p : string) (e : event) : bool :=
  match e with
  | EvGet k | EvPut k _ => startsWith k p
  | EvModel _ | EvRandom => true
  | EvRun _ | EvList _ => false
  end.

Definition has_prefix (p : string) (k : string) : bool := startsWith k p.

(** A call that does not write. *)
Definition reads (e : event) : bool :=
  match e with EvPut _ _ | EvRun _ => false | _ => true end.

Definition any_change : relation Locals := fun _ _ => True.

(** The classifier's three results are the same. *)
Definition same_classification : relation Locals := fun l l' =>
  sentiment l' = sentiment l /\ category l' = category l /\ summary l' = summary l.

(** The classifier's results and the count are the same. *)
Definition same_count : relation Locals := fun l l' =>
  same_classification l l' /\ occurrences l' = occurrences l.

(** ** The listings, read from the namespace

    What the two listing routes return when none of their calls fails,
    written as functions of the namespace: the keys listed, and the entry
    made for one key. *)

(** The keys of the counts, in the order of a listing. *)
Definition category_keys (m : gmap string string) : list string :=
  filter (fun k => startsWith k "category:" = true) (sort_by String.leb (elements (dom m))).

(** The keys that [list({ prefix: 'category:', limit: 1000 })] returns. *)
Definition listed (m : gmap string string) : list string :=
  take 1000 (category_keys m).

(** The entry of [/stats] for a key, lines 27-31. *)
Definition stats_entry (m : gmap string string) (name : string) : string * Z :=
  (category_of "category:" name, read_count (m !! name)).

(** The entry of [/insights] for a key, lines 47-59. *)
Definition insights_entry (H : Host) (m : gmap string string) (name : string) : Item :=
  let category := category_of "category:" name in
  {| it_category := category;
     it_occurrences := read_count (m !! name);
     it_category_summary := m !! ("category_summary:" +:+ category);
     it_examples :=
       match m !! ("category_examples:" +:+ category) with
       | Some raw => if nonempty raw then default (JArr []) (JSON_parse H raw) else JArr []
       | None => JArr []
       end |}.

(** No entry stands behind one with fewer occurrences. *)
Definition descending {A} (occ : A -> Z) (l : list A) : Prop :=
  forall i j a b, (i < j)%nat -> l !! i = Some a -> l !! j = Some b -> (occ b <= occ a)%Z.

(** The text that a request submits, when it reaches the ingest route with
    one. *)
Definition submitted (req : Request) : option string :=
  if bool_decide (pathname req = "/stats") then None
  else if bool_decide (pathname req = "/insights") then None
  else match text_param req with
       | Some text => if nonempty text then Some text else None
       | None => None
       end.

(** Every key of the examples holds the text of at most three strings that
    all satisfy [P]. *)
Definition examples_from (P : string -> Prop) (H : Host) (w : World) : Prop :=
  forall key, startsWith key "category_examples:" = true ->
    kv w !! key = None
    \/ exists ts : list string,
         (length ts <= 3)%nat /\ Forall P ts
         /\ kv w !! key = Some (JSON_stringify H (JArr (JStr <$> ts))).

(** The calls numbered [n], ..., [n + k - 1] all go through. *)
Definition calls_succeed (H : Host) (n k : nat) : Prop :=
  forall i, (n <= i < n + k)%nat -> fails H i = false.

(** Whether the examples block draws a slot: the stored text reads as an
    array of three entries or more (lines 216-222). *)
Definition draws_slot (H : Host) (stored : option string) : bool :=
  match stored with
  | Some raw =>
      match JSON_parse H raw with
      | Some (JArr arr) => negb (length arr <? 3)%nat
      | _ => false
      end
  | None => false
  end.

(** The number of the call that is the write of the examples block started
    in [w] for category [c], when its read goes through: the call after
    the read, or the one after the draw. *)
Definition examples_put_call (H : Host) (w : World) (c : string) : nat :=
  if draws_slot H (kv w !! ("category_examples:" +:+ c)) then S (S (clock w))
  else S (clock w).

(** A call that looks something up in the namespace. *)
Definition lookups (e : event) : bool :=
  match e with EvGet _ | EvList _ => true | _ => false end.

(** A request for the [/stats] listing. *)
Definition stats_request : Request :=
  {| pathname := "/stats"; text_param := None; view_param := None; accept := None |}.

(** A namespace with two categories, one of them with a summary and an
    example. *)
Definition sample_store : gmap string string :=
  {[ "category:bug" := "2"; "category:ui" := "5";
     "category_summary:ui" := "Buttons too small";
     "category_examples:ui" := json_text (JArr [JStr "tiny buttons"]) ]}.

(** * Properties *)

(** ** Running computations *)

Section Run.
Context {L : Type}.
Implicit Types c : World * L.

Lemma run_bind {A B} (m : M L A) (f : A -> M L B) c :
  (m ≫= f) c = match m c with (Some a, c') => f a c' | (None, c') => (None, c') end.
Proof. reflexivity. Qed.

Lemma run_ok {A B} (m : M L A) (f : A -> M L B) c a c' :
  m c = (Some a, c') -> (m ≫= f) c = f a c'.
Proof. intros E. rewrite run_bind, E. reflexivity. Qed.

Lemma run_thrown {A B} (m : M L A) (f : A -> M L B) c c' :
  m c = (None, c') -> (m ≫= f) c = (None, c').
Proof. intros E. rewrite run_bind, E. reflexivity. Qed.

Lemma try_ok {A} (m h : M L A) c a c' :
  m c = (Some a, c') -> try_catch m h c = (Some a, c').
Proof. intros E. unfold try_catch. rewrite E. reflexivity. Qed.

Lemma try_thrown {A} (m h : M L A) c c' :
  m c = (None, c') -> try_catch m h c = h c'.
Proof. intros E. unfold try_catch. rewrite E. reflexivity. Qed.

Lemma call_ok (H : Host) e w (l : L) :
  fails H (clock w) = false ->
  call H e (w, l) = (Some (clock w), (record_call e w, l)).
Proof. intros E. unfold call, tick. rewrite run_bind. simpl. rewrite E. reflexivity. Qed.

Lemma call_thrown (H : Host) e w (l : L) :
  fails H (clock w) = true ->
  call H e (w, l) = (None, (record_call e w, l)).
Proof. intros E. unfold call, tick. rewrite run_bind. simpl. rewrite E. reflexivity. Qed.

(** *** Computations that return *)

Lemma returns_ret {A} (a : A) : returns (mret a : M L A).
Proof. intros c. simpl. eauto. Qed.

Lemma returns_assign f : returns (assign f : M L unit).
Proof. intros c. simpl. eauto. Qed.

Lemma returns_gets {A} (f : L -> A) : returns (gets f).
Proof. intros c. simpl. eauto. Qed.

Lemma returns_bind {A B} (m : M L A) (f : A -> M L B) :
  returns m -> (forall a, returns (f a)) -> returns (m ≫= f).
Proof.
  intros Hm Hf c. rewrite run_bind. destruct (m c) as [[a|] c'] eqn:E.
  - apply Hf.
  - specialize (Hm c). rewrite E in Hm. simpl in Hm. destruct Hm as [? ?]. discriminate.
Qed.

Lemma returns_try {A} (m h : M L A) : returns h -> returns (try_catch m h).
Proof.
  intros Hh c. unfold try_catch. destruct (m c) as [[a|] c'] eqn:E; simpl; eauto.
Qed.

Lemma returns_run {A} (m : M L A) c :
  returns m -> exists a c', m c = (Some a, c').
Proof.
  intros Hm. specialize (Hm c). destruct (m c) as [[a|] c'] eqn:E; simpl in Hm.
  - eauto.
  - destruct Hm as [? ?]. discriminate.
Qed.

(** *** What a computation leaves alone *)

Context (Pk : string -> bool) (Pe : event -> bool) (RL : relation L) `{!PreOrder RL}.

Lemma frame_refl c : frame Pk Pe RL c c.
Proof.
  repeat split; try reflexivity. exists []. rewrite app_nil_r. simpl.
  repeat split; try done; lia.
Qed.

Lemma frame_trans c1 c2 c3 :
  frame Pk Pe RL c1 c2 -> frame Pk Pe RL c2 c3 -> frame Pk Pe RL c1 c3.
Proof.
  intros (Hf1 & Hk1 & (n1 & Hc1 & Ht1 & Hp1) & Hl1) (Hf2 & Hk2 & (n2 & Hc2 & Ht2 & Hp2) & Hl2).
  repeat split.
  - congruence.
  - intros key Hkey. rewrite Hk2, Hk1 by done. done.
  - exists (n1 ++ n2). rewrite Hc2, Hc1, <- app_assoc. split; [done|]. split.
    + rewrite Ht2, Ht1, length_app. lia.
    + rewrite forallb_app, Hp1, Hp2. done.
  - etrans; eauto.
Qed.

Lemma keeps_ret {A} (a : A) : keeps (frame Pk Pe RL) (mret a).
Proof. intros c. apply frame_refl. Qed.

Lemma keeps_lift {A} (o : option A) : keeps (frame Pk Pe RL) (lift o).
Proof. intros c. apply frame_refl. Qed.

Lemma keeps_gets {A} (f : L -> A) : keeps (frame Pk Pe RL) (gets f).
Proof. intros c. apply frame_refl. Qed.

Lemma keeps_world : keeps (frame Pk Pe RL) world.
Proof. intros c. apply frame_refl. Qed.

Lemma keeps_bind {A B} (m : M L A) (f : A -> M L B) :
  keeps (frame Pk Pe RL) m -> (forall a, keeps (frame Pk Pe RL) (f a)) -> keeps (frame Pk Pe RL) (m ≫= f).
Proof.
  intros Hm Hf c. rewrite run_bind. specialize (Hm c).
  destruct (m c) as [[a|] c']; simpl in *; [|done].
  eapply frame_trans; [exact Hm|]. apply Hf.
Qed.

Lemma keeps_try {A} (m h : M L A) : keeps (frame Pk Pe RL) m -> keeps (frame Pk Pe RL) h -> keeps (frame Pk Pe RL) (try_catch m h).
Proof.
  intros Hm Hh c. unfold try_catch. specialize (Hm c).
  destruct (m c) as [[a|] c']; simpl in *; [done|].
  eapply frame_trans; [exact Hm|]. apply Hh.
Qed.

Lemma keeps_assign f : (forall l, RL l (f l)) -> keeps (frame Pk Pe RL) (assign f).
Proof.
  intros Hf [w l]. repeat split; simpl; try done.
  exists []. rewrite app_nil_r. simpl. repeat split; try done; lia.
Qed.

Lemma keeps_tick e : Pe e = true -> keeps (frame Pk Pe RL) (tick e).
Proof.
  intros He [w l]. repeat split; simpl; try done.
  exists [e]. simpl. rewrite He. repeat split; try done; lia.
Qed.

Lemma keeps_call H e : Pe e = true -> keeps (frame Pk Pe RL) (call H e).
Proof.
  intros He. unfold call. apply keeps_bind; [by apply keeps_tick|].
  intros n. destruct (fails H n); [intros c; apply frame_refl | apply keeps_ret].
Qed.

Lemma keeps_kv_get H key : Pe (EvGet key) = true -> keeps (frame Pk Pe RL) (kv_get H key).
Proof.
  intros He. unfold kv_get. apply keeps_bind; [by apply keeps_call|].
  intros _. apply keeps_bind; [apply keeps_world|]. intros w. apply keeps_ret.
Qed.

Lemma keeps_kv_put H key v :
  Pe (EvPut key v) = true -> Pk key = true -> keeps (frame Pk Pe RL) (kv_put H key v).
Proof.
  intros He Hk. unfold kv_put. apply keeps_bind; [by apply keeps_call|].
  intros _. apply keeps_bind; [apply keeps_lift|]. intros s [w l].
  repeat split; simpl; try done.
  - intros key' Hk'. apply lookup_insert_ne. congruence.
  - exists []. rewrite app_nil_r. simpl. repeat split; try done; lia.
Qed.

Lemma keeps_kv_list H p n : Pe (EvList p) = true -> keeps (frame Pk Pe RL) (kv_list H p n).
Proof.
  intros He. unfold kv_list. apply keeps_bind; [by apply keeps_call|].
  intros _. apply keeps_bind; [apply keeps_world|]. intros w. apply keeps_ret.
Qed.

Lemma keeps_ai_run H texts : Pe (EvModel texts) = true -> keeps (frame Pk Pe RL) (ai_run H texts).
Proof.
  intros He. unfold ai_run. apply keeps_bind; [by apply keeps_call|].
  intros n. apply keeps_ret.
Qed.

Lemma keeps_random H : Pe EvRandom = true -> keeps (frame Pk Pe RL) (Math_random H).
Proof.
  intros He. unfold Math_random. apply keeps_bind; [by apply keeps_tick|].
  intros n. apply keeps_ret.
Qed.
End Run.

Lemma frame_mono {L} (Pk Pk' : string -> bool) (Pe Pe' : event -> bool) (RL RL' : relation L) c c' :
  (forall k, Pk k = true -> Pk' k = true) ->
  (forall e, Pe e = true -> Pe' e = true) ->
  (forall l l', RL l l' -> RL' l l') ->
  frame Pk Pe RL c c' -> frame Pk' Pe' RL' c c'.
Proof.
  intros Hk He Hl (Hf & Hkv & (new & Hc & Ht & Hp) & Hr). repeat split; auto.
  - intros key Hkey. apply Hkv. destruct (Pk key) eqn:E; [|done].
    apply Hk in E. congruence.
  - exists new. split; [done|]. split; [done|]. rewrite forallb_forall in *. auto.
Qed.

Global Instance any_change_preorder : PreOrder any_change.
Proof. split; done. Qed.

Global Instance same_classification_preorder : PreOrder same_classification.
Proof.
  split; [done|]. intros l1 l2 l3 (? & ? & ?) (? & ? & ?).
  repeat split; congruence.
Qed.

Global Instance same_count_preorder : PreOrder same_count.
Proof.
  split; [done|]. intros l1 l2 l3 [H1 ?] [H2 ?]. split; [|congruence].
  etrans; eauto.
Qed.

Ltac keeps_step :=
  match goal with
  | |- PreOrder _ => apply _
  | |- forall _, keeps _ _ => intros ?
  | |- keeps _ (mbind _ _) => apply keeps_bind
  | |- keeps _ (try_catch _ _) => apply keeps_try
  | |- keeps _ (mret _) => apply keeps_ret
  | |- keeps _ (lift _) => apply keeps_lift
  | |- keeps _ (gets _) => apply keeps_gets
  | |- keeps _ (assign _) => apply keeps_assign
  | |- keeps _ (kv_get _ _) => apply keeps_kv_get
  | |- keeps _ (kv_put _ _ _) => apply keeps_kv_put
  | |- keeps _ (kv_list _ _ _) => apply keeps_kv_list
  | |- keeps _ (ai_run _ _) => apply keeps_ai_run
  | |- keeps _ (Math_random _) => apply keeps_random
  | |- keeps _ (match ?x with _ => _ end) => destruct x
  | |- keeps _ (if ?b then _ else _) => destruct b
  | |- keeps _ (let _ := _ in _) => cbv zeta
  end.

Ltac keeps_auto := repeat keeps_step; try done; try (intros; repeat split; reflexivity).

(** ** What each block of the ingest route leaves alone *)

Section Frames.
Context (H : Host).

Lemma classify_keeps text :
  keeps (frame (fun _ => false) (on_prefix EmptyString) any_change) (classify H text).
Proof. unfold classify, read_classification. keeps_auto. Qed.

Lemma incrementCount_keeps :
  keeps (frame (has_prefix "category:") (on_prefix "category:") same_classification)
        (incrementCount H).
Proof. unfold incrementCount. keeps_auto. Qed.

Lemma updateSummary_keeps :
  keeps (frame (has_prefix "category_summary:") (on_prefix "category_summary:") same_count)
        (updateSummary H).
Proof.
  unfold updateSummary, mergeSummary, merge_reply. keeps_auto.
Qed.

Lemma updateExamples_keeps text :
  keeps (frame (has_prefix "category_examples:") (on_prefix "category_examples:") same_count)
        (updateExamples H text).
Proof. unfold updateExamples, addExample. keeps_auto. Qed.

Lemma classify_returns text : returns (classify H text).
Proof.
  unfold classify. repeat (apply returns_bind; [apply returns_assign|intros _]).
  apply returns_try, returns_ret.
Qed.

Lemma incrementCount_returns : returns (incrementCount H).
Proof.
  unfold incrementCount. apply returns_bind; [apply returns_assign|intros _].
  apply returns_try, returns_ret.
Qed.

Lemma updateSummary_returns : returns (updateSummary H).
Proof.
  unfold updateSummary. apply returns_bind; [apply returns_assign|intros _].
  apply returns_try, returns_ret.
Qed.

Lemma updateExamples_returns text : returns (updateExamples H text).
Proof.
  unfold updateExamples. apply returns_bind; [apply returns_assign|intros _].
  apply returns_try, returns_ret.
Qed.
End Frames.

(** ** The ingest route, block by block *)

Section Ingestion.
Context (H : Host).

Lemma persist_run text w l :
  fails H (clock w) = false -> fails H (S (clock w)) = false ->
  persist H text (w, l) = (Some tt, (persisted text w, l)).
Proof.
  intros E1 E2. unfold persist, db_run.
  rewrite (run_ok _ _ _ tt (record_call (EvRun create_table) w, l)).
  2:{ rewrite (run_ok _ _ _ _ _ (call_ok H _ w l E1)). reflexivity. }
  rewrite (run_ok _ _ _ tt (record_call (EvRun "INSERT INTO feedback (text) VALUES (?)")
                              (record_call (EvRun create_table) w), l)).
  2:{ rewrite (run_ok _ _ _ _ _ (call_ok H _ (record_call (EvRun create_table) w) l E2)).
      reflexivity. }
  reflexivity.
Qed.

(** Once the two statements on the table have run, the four blocks run one
    after the other, each to its end, and the response is the success
    response built from the variables they leave. *)
Lemma ingest_run text w l :
  fails H (clock w) = false -> fails H (S (clock w)) = false ->
  exists c1 c2 c3 c4,
    classify H text (persisted text w, l) = (Some tt, c1)
    /\ incrementCount H c1 = (Some tt, c2)
    /\ updateSummary H c2 = (Some tt, c3)
    /\ updateExamples H text c3 = (Some tt, c4)
    /\ ingest H text (w, l) = (Some (json 200 (BSuccess text c4.2)), c4).
Proof.
  intros E1 E2.
  destruct (returns_run (classify H text) (persisted text w, l) (classify_returns H text))
    as ([] & c1 & R1).
  destruct (returns_run (incrementCount H) c1 (incrementCount_returns H)) as ([] & c2 & R2).
  destruct (returns_run (updateSummary H) c2 (updateSummary_returns H)) as ([] & c3 & R3).
  destruct (returns_run (updateExamples H text) c3 (updateExamples_returns H text))
    as ([] & c4 & R4).
  exists c1, c2, c3, c4. repeat split; try done.
  unfold ingest. apply try_ok.
  rewrite (run_ok _ _ _ _ _ (persist_run text w l E1 E2)).
  rewrite (run_ok _ _ _ _ _ R1), (run_ok _ _ _ _ _ R2).
  rewrite (run_ok _ _ _ _ _ R3), (run_ok _ _ _ _ _ R4).
  reflexivity.
Qed.

Lemma fetch_ingest req w text :
  pathname req <> "/stats" -> pathname req <> "/insights" ->
  text_param req = Some text -> text <> EmptyString ->
  fetch H req w = ((ingest H text (w, fresh)).1, (ingest H text (w, fresh)).2.1).
Proof.
  intros N1 N2 Et Ne. unfold fetch.
  rewrite (bool_decide_eq_false_2 _ N1), (bool_decide_eq_false_2 _ N2), Et.
  unfold nonempty. rewrite (bool_decide_eq_false_2 _ Ne). simpl.
  destruct (ingest H text (w, fresh)) as [r [w' l']]. reflexivity.
Qed.

(** The state after the four blocks, against the state after the insert. *)
Lemma blocks_frame text c0 c1 c2 c3 c4 :
  classify H text c0 = (Some tt, c1) ->
  incrementCount H c1 = (Some tt, c2) ->
  updateSummary H c2 = (Some tt, c3) ->
  updateExamples H text c3 = (Some tt, c4) ->
  frame (fun _ => false) (on_prefix EmptyString) any_change c0 c1
  /\ frame (has_prefix "category:") (on_prefix "category:") same_classification c1 c2
  /\ frame (has_prefix "category_summary:") (on_prefix "category_summary:") same_count c2 c3
  /\ frame (has_prefix "category_examples:") (on_prefix "category_examples:") same_count c3 c4.
Proof.
  intros R1 R2 R3 R4.
  pose proof (classify_keeps H text c0) as F1. rewrite R1 in F1.
  pose proof (incrementCount_keeps H c1) as F2. rewrite R2 in F2.
  pose proof (updateSummary_keeps H c2) as F3. rewrite R3 in F3.
  pose proof (updateExamples_keeps H text c3) as F4. rewrite R4 in F4.
  done.
Qed.
End Ingestion.

(** C1.  An ingest request ([GET /?text=...] with a non-empty text) whose
    two statements on the feedback table go through is answered with
    status 200 and the success body, and the text is in the table,
    whichever of the later calls (the classifier, the reads and writes of
    the count, of the summary and of the examples, the merge) fail and
    whatever the model replies. *)
Theorem ingest_succeeds_once_persisted (H : Host) (req : Request) (w : World) (text : string) :
  pathname req <> "/stats" -> pathname req <> "/insights" ->
  text_param req = Some text -> text <> EmptyString ->
  fails H (clock w) = false -> fails H (S (clock w)) = false ->
  exists vars w',
    fetch H req w = (Some {| status := 200; content_type := "application/json";
                            body := BSuccess text vars |}, w')
    /\ feedback w' = feedback w ++ [text].
Proof.
  intros N1 N2 Et Ne E1 E2.
  destruct (ingest_run H text w fresh E1 E2) as (c1 & c2 & c3 & c4 & R1 & R2 & R3 & R4 & R).
  destruct (blocks_frame H text _ _ _ _ _ R1 R2 R3 R4)
    as ((F1 & _) & (F2 & _) & (F3 & _) & (F4 & _)).
  exists c4.2, c4.1. rewrite (fetch_ingest H req w text N1 N2 Et Ne), R. split; [done|].
  rewrite F4, F3, F2, F1. reflexivity.
Qed.

(** Every later call fails and the request is still answered with 200. *)
Lemma ingest_succeeds_once_persisted_witness :
  exists vars w',
    fetch (scripted (fun n => (2 <=? n)%nat) (fun _ => JNull) (1 # 2))
          (ingest_request "slow checkout") empty_world
    = (Some {| status := 200; content_type := "application/json";
               body := BSuccess "slow checkout" vars |}, w')
    /\ feedback w' = feedback empty_world ++ ["slow checkout"].
Proof.
  apply (ingest_succeeds_once_persisted
           (scripted (fun n => (2 <=? n)%nat) (fun _ => JNull) (1 # 2))
           (ingest_request "slow checkout") empty_world "slow checkout");
    simpl; done.
Defined.

(** ** The count block *)

Section Count.
Context (H : Host).

Lemma kv_get_ok {L} key w (l : L) :
  fails H (clock w) = false ->
  kv_get H key (w, l) = (Some (kv w !! key), (record_call (EvGet key) w, l)).
Proof.
  intros E. unfold kv_get. rewrite (run_ok _ _ _ _ _ (call_ok H _ w l E)). reflexivity.
Qed.

Lemma kv_get_thrown {L} key w (l : L) :
  fails H (clock w) = true ->
  kv_get H key (w, l) = (None, (record_call (EvGet key) w, l)).
Proof.
  intros E. unfold kv_get. rewrite (run_thrown _ _ _ _ (call_thrown H _ w l E)). reflexivity.
Qed.

Lemma kv_put_ok {L} key s w (l : L) :
  fails H (clock w) = false ->
  kv_put H key (JStr s) (w, l)
  = (Some tt, (store key s (record_call (EvPut key (JStr s)) w), l)).
Proof.
  intros E. unfold kv_put. rewrite (run_ok _ _ _ _ _ (call_ok H _ w l E)). reflexivity.
Qed.

Lemma kv_put_thrown {L} key v w (l : L) :
  fails H (clock w) = true ->
  kv_put H key v (w, l) = (None, (record_call (EvPut key v) w, l)).
Proof.
  intros E. unfold kv_put. rewrite (run_thrown _ _ _ _ (call_thrown H _ w l E)). reflexivity.
Qed.

Lemma ai_run_ok {L} texts w (l : L) :
  fails H (clock w) = false ->
  ai_run H texts (w, l) = (Some (reply H (clock w)), (record_call (EvModel texts) w, l)).
Proof.
  intros E. unfold ai_run. rewrite (run_ok _ _ _ _ _ (call_ok H _ w l E)). reflexivity.
Qed.

Lemma ai_run_thrown {L} texts w (l : L) :
  fails H (clock w) = true ->
  ai_run H texts (w, l) = (None, (record_call (EvModel texts) w, l)).
Proof.
  intros E. unfold ai_run. rewrite (run_thrown _ _ _ _ (call_thrown H _ w l E)). reflexivity.
Qed.

Lemma incrementCount_run w l c :
  ToString (category l) = Some c ->
  fails H (clock w) = false -> fails H (S (clock w)) = false ->
  let key := "category:" +:+ c in
  let n := next_count (kv w !! key) in
  incrementCount H (w, l)
  = (Some tt, (store key (String_of n)
                 (record_call (EvPut key (JStr (String_of n))) (record_call (EvGet key) w)),
               set_occurrences n l)).
Proof.
  intros Ec E1 E2 key n. unfold incrementCount.
  rewrite (run_ok _ _ _ tt (w, set_occurrences 0 l)) by reflexivity.
  apply try_ok.
  rewrite (run_ok _ _ _ (category l) (w, set_occurrences 0 l)) by reflexivity.
  rewrite (run_ok _ _ _ c (w, set_occurrences 0 l)) by (unfold lift; rewrite Ec; reflexivity).
  cbv zeta. fold key.
  rewrite (run_ok _ _ _ _ _ (kv_get_ok key w _ E1)). fold n.
  rewrite (run_ok _ _ _ tt (record_call (EvGet key) w, set_occurrences n l)) by reflexivity.
  rewrite (run_ok _ _ _ n (record_call (EvGet key) w, set_occurrences n l)) by reflexivity.
  rewrite kv_put_ok by exact E2. reflexivity.
Qed.

Lemma incrementCount_read_thrown w l c :
  ToString (category l) = Some c ->
  fails H (clock w) = true ->
  incrementCount H (w, l)
  = (Some tt, (record_call (EvGet ("category:" +:+ c)) w, set_occurrences 0 l)).
Proof.
  intros Ec E1. unfold incrementCount.
  rewrite (run_ok _ _ _ tt (w, set_occurrences 0 l)) by reflexivity.
  apply try_thrown.
  rewrite (run_ok _ _ _ (category l) (w, set_occurrences 0 l)) by reflexivity.
  rewrite (run_ok _ _ _ c (w, set_occurrences 0 l)) by (unfold lift; rewrite Ec; reflexivity).
  cbv zeta.
  rewrite (run_thrown _ _ _ _ (kv_get_thrown _ w _ E1)). reflexivity.
Qed.

Lemma incrementCount_write_thrown w l c :
  ToString (category l) = Some c ->
  fails H (clock w) = false -> fails H (S (clock w)) = true ->
  let key := "category:" +:+ c in
  let n := next_count (kv w !! key) in
  incrementCount H (w, l)
  = (Some tt, (record_call (EvPut key (JStr (String_of n))) (record_call (EvGet key) w),
               set_occurrences n l)).
Proof.
  intros Ec E1 E2 key n. unfold incrementCount.
  rewrite (run_ok _ _ _ tt (w, set_occurrences 0 l)) by reflexivity.
  apply try_thrown.
  rewrite (run_ok _ _ _ (category l) (w, set_occurrences 0 l)) by reflexivity.
  rewrite (run_ok _ _ _ c (w, set_occurrences 0 l)) by (unfold lift; rewrite Ec; reflexivity).
  cbv zeta. fold key.
  rewrite (run_ok _ _ _ _ _ (kv_get_ok key w _ E1)). fold n.
  rewrite (run_ok _ _ _ tt (record_call (EvGet key) w, set_occurrences n l)) by reflexivity.
  rewrite (run_ok _ _ _ n (record_call (EvGet key) w, set_occurrences n l)) by reflexivity.
  rewrite kv_put_thrown by exact E2. reflexivity.
Qed.

Lemma incrementCount_no_key w l :
  ToString (category l) = None ->
  incrementCount H (w, l) = (Some tt, (w, set_occurrences 0 l)).
Proof.
  intros Ec. unfold incrementCount.
  rewrite (run_ok _ _ _ tt (w, set_occurrences 0 l)) by reflexivity.
  apply try_thrown.
  rewrite (run_ok _ _ _ (category l) (w, set_occurrences 0 l)) by reflexivity.
  rewrite (run_thrown _ _ _ (w, set_occurrences 0 l)) by (unfold lift; rewrite Ec; reflexivity).
  reflexivity.
Qed.
End Count.

(** C2, amended.  When the read and the write of the count go through, and
    the stored value, if it reads as a number, reads as one below 2^53 in
    absolute value, the count block reads the value stored under the
    category's key, takes 1 when there is none or when it is not numeric
    and the parsed value plus 1 otherwise (so [n + 1] also for a negative
    [n]), writes this number under the key and leaves it in
    [occurrences]. *)
Theorem count_block_adds_one (H : Host) (w : World) (l : Locals) (c : string) :
  ToString (category l) = Some c ->
  fails H (clock w) = false -> fails H (S (clock w)) = false ->
  safe_count (kv w !! ("category:" +:+ c)) ->
  exists w' l',
    incrementCount H (w, l) = (Some tt, (w', l'))
    /\ kv w' = <["category:" +:+ c := String_of (occurrences l')]> (kv w)
    /\ (kv w !! ("category:" +:+ c) = None -> occurrences l' = 1%Z)
    /\ (forall s, kv w !! ("category:" +:+ c) = Some s -> parseInt s = None ->
                  occurrences l' = 1%Z)
    /\ (forall s n, kv w !! ("category:" +:+ c) = Some s -> parseInt s = Some n ->
                    occurrences l' = (n + 1)%Z).
Proof.
  intros Ec E1 E2 _. eexists _, _. split; [apply (incrementCount_run H w l c Ec E1 E2)|].
  simpl. split; [reflexivity|]. unfold next_count. repeat split.
  - intros ->. reflexivity.
  - intros s -> ->. reflexivity.
  - intros s n -> ->. reflexivity.
Qed.

(** A stored count of -5 becomes -4. *)
Lemma count_block_adds_one_witness :
  exists w' l',
    incrementCount (scripted never (fun _ => JNull) (1 # 2))
      ({| kv := {["category:unknown" := "-5"]}; feedback := []; clock := 0; calls := [] |},
       set_category (JStr "unknown") fresh) = (Some tt, (w', l'))
    /\ occurrences l' = (-4)%Z
    /\ kv w' !! "category:unknown" = Some "-4".
Proof.
  destruct (count_block_adds_one (scripted never (fun _ => JNull) (1 # 2))
              {| kv := {["category:unknown" := "-5"]}; feedback := []; clock := 0; calls := [] |}
              (set_category (JStr "unknown") fresh) "unknown")
    as (w' & l' & R & Hkv & _ & _ & Hn); [reflexivity|reflexivity|reflexivity| |].
  { intros s n Hs Hn. vm_compute in Hs. injection Hs as <-.
    vm_compute in Hn. injection Hn as <-. vm_compute. reflexivity. }
  exists w', l'. split; [exact R|].
  assert (occurrences l' = (-4)%Z) as E by (apply (Hn "-5" (-5)%Z); reflexivity).
  split; [exact E|]. rewrite Hkv, E. apply lookup_insert_eq.
Defined.

(** C2 as stated fails: with -5 stored for the category the request
    returns -4 and stores -4, where max(parsed, 0) + 1 is 1. *)
Lemma count_block_not_clamped :
  exists vars w',
    fetch (scripted never (fun _ => JNull) (1 # 2)) (ingest_request "slow checkout")
      {| kv := {["category:unknown" := "-5"]}; feedback := []; clock := 0; calls := [] |}
    = (Some (json 200 (BSuccess "slow checkout" vars)), w')
    /\ category vars = JStr "unknown"
    /\ occurrences vars = (-4)%Z
    /\ kv w' !! "category:unknown" = Some "-4"
    /\ spec_incrementCount (Some "-5") = 1%Z
    /\ occurrences vars <> spec_incrementCount (Some "-5").
Proof.
  eexists _, _. split; [vm_compute; reflexivity|]. vm_compute. repeat split; congruence.
Qed.

(** ** Keys *)

Lemma startsWith_app p r : startsWith (p +:+ r) p = true.
Proof.
  induction p as [|a p IH]; simpl; [done|].
  rewrite bool_decide_eq_true_2 by done. exact IH.
Qed.

Lemma startsWith_inv s p : startsWith s p = true -> exists r, s = p +:+ r.
Proof.
  revert s. induction p as [|a p IH]; intros s Hs; simpl in *.
  - exists s. reflexivity.
  - destruct s as [|b s]; [done|].
    apply andb_true_iff in Hs as [Hab Hs]. apply bool_decide_eq_true_1 in Hab as ->.
    destruct (IH s Hs) as [r ->]. exists r. reflexivity.
Qed.

(** The three kinds of keys are apart: no key of one kind starts with the
    prefix of another. *)
Lemma summary_key_apart k :
  startsWith k "category_summary:" = true ->
  startsWith k "category:" = false /\ startsWith k "category_examples:" = false.
Proof. intros Hk. apply startsWith_inv in Hk as [r ->]. split; reflexivity. Qed.

Lemma examples_key_apart k :
  startsWith k "category_examples:" = true ->
  startsWith k "category:" = false /\ startsWith k "category_summary:" = false.
Proof. intros Hk. apply startsWith_inv in Hk as [r ->]. split; reflexivity. Qed.

Lemma count_key_apart k :
  startsWith k "category:" = true ->
  startsWith k "category_summary:" = false /\ startsWith k "category_examples:" = false.
Proof. intros Hk. apply startsWith_inv in Hk as [r ->]. split; reflexivity. Qed.

(** ** The classifier block *)

Section Classifier.
Context (H : Host).

Lemma read_classification_world raw c :
  (read_classification H raw c).2.1 = c.1.
Proof.
  assert (keeps (frame (fun _ => false) (fun _ => false) any_change) (read_classification H raw))
    as K by (unfold read_classification; keeps_auto).
  destruct (K c) as (Hf & Hk & (new & Hc & Ht & Hp) & _).
  destruct new as [|e new]; [|done].
  destruct c as [[kv0 fb0 cl0 ca0] l], (read_classification H raw _) as [r [[kv1 fb1 cl1 ca1] l1]].
  simpl in *. rewrite app_nil_r in Hc. f_equal; try done; try lia.
  apply map_eq. intros key. apply Hk. done.
Qed.

(** The block makes one call, to the model, and leaves the namespace and
    the table alone. *)
Lemma classify_start text w l :
  classify H text (w, l)
  = try_catch (aiResult ← ai_run H [text]; read_classification H (response_of aiResult))
              (mret tt) (w, defaults l).
Proof. reflexivity. Qed.

Lemma classify_world text w l c1 :
  classify H text (w, l) = (Some tt, c1) ->
  c1.1 = record_call (EvModel [text]) w.
Proof.
  rewrite classify_start. unfold try_catch. destruct (fails H (clock w)) eqn:E.
  - rewrite (run_thrown _ _ _ _ (ai_run_thrown H _ w _ E)). simpl. by intros [= <-].
  - rewrite (run_ok _ _ _ _ _ (ai_run_ok H _ w _ E)).
    pose proof (read_classification_world (response_of (reply H (clock w)))
                  (record_call (EvModel [text]) w, defaults l)) as W.
    destruct (read_classification _ _ _) as [[[]|] [w1 l1]]; simpl in *; intros [= <-]; done.
Qed.
End Classifier.

Lemma on_prefix_put p new key v :
  forallb (on_prefix p) new = true -> EvPut key v ∈ new -> startsWith key p = true.
Proof.
  intros Hall Hin. rewrite forallb_forall in Hall.
  apply list_elem_of_In in Hin. exact (Hall _ Hin).
Qed.

(** C3, amended.  In an ingest request whose read of the category's count
    fails (it is the fourth call of the request, after the two statements
    on the table and the call to the classifier), the request is answered
    with status 200 and [occurrences] 0; no write of a count is attempted
    and the stored counts are as they were. *)
Theorem count_read_failure_skips_write (H : Host) (req : Request) (w : World) (text : string) :
  pathname req <> "/stats" -> pathname req <> "/insights" ->
  text_param req = Some text -> text <> EmptyString ->
  fails H (clock w) = false -> fails H (S (clock w)) = false ->
  fails H (S (S (S (clock w)))) = true ->
  exists vars w' new,
    fetch H req w = (Some (json 200 (BSuccess text vars)), w')
    /\ occurrences vars = 0%Z
    /\ calls w' = calls w ++ new
    /\ (forall c, ToString (category vars) = Some c ->
                  new !! 3%nat = Some (EvGet ("category:" +:+ c)))
    /\ (forall key v, EvPut key v ∈ new -> startsWith key "category:" = false)
    /\ (forall key, startsWith key "category:" = true -> kv w' !! key = kv w !! key).
Proof.
  intros N1 N2 Et Ne E1 E2 E3.
  destruct (ingest_run H text w fresh E1 E2) as (c1 & c2 & c3 & c4 & R1 & R2 & R3 & R4 & R).
  destruct (blocks_frame H text _ _ _ _ _ R1 R2 R3 R4) as (F1 & F2 & F3 & F4).
  pose proof (classify_world H text _ _ _ R1) as W1.
  destruct c1 as [w1 l1]. simpl in W1. subst w1.
  destruct F2 as (_ & _ & _ & (_ & C2 & _)).
  destruct F3 as (_ & K3 & (n3 & A3 & _ & P3) & ((_ & C3 & _) & O3)).
  destruct F4 as (_ & K4 & (n4 & A4 & _ & P4) & ((_ & C4 & _) & O4)).
  simpl in C2.
  assert (exists pre, c2 = (c2.1, c2.2) /\ occurrences c2.2 = 0%Z /\ kv c2.1 = kv w
            /\ calls c2.1 = calls w ++ [EvRun create_table;
                 EvRun "INSERT INTO feedback (text) VALUES (?)"; EvModel [text]] ++ pre
            /\ (forall c, ToString (category l1) = Some c -> pre = [EvGet ("category:" +:+ c)])
            /\ forall key v, EvPut key v ∉ pre) as (pre & _ & O2 & K2 & A2 & G & NP).
  { destruct (ToString (category l1)) as [c|] eqn:Ec.
    - rewrite (incrementCount_read_thrown H (record_call (EvModel [text]) (persisted text w))
                 l1 c Ec E3) in R2. injection R2 as <-.
      exists [EvGet ("category:" +:+ c)]. simpl. repeat split; try done.
      + rewrite <- !app_assoc. reflexivity.
      + by intros ? [= <-].
      + intros key v Hin. apply list_elem_of_singleton in Hin. done.
    - rewrite (incrementCount_no_key H _ l1 Ec) in R2. injection R2 as <-.
      exists []. simpl. repeat split; try done.
      + rewrite <- !app_assoc. reflexivity.
      + intros key v Hin. by apply elem_of_nil in Hin. }
  exists c4.2, c4.1,
    ([EvRun create_table; EvRun "INSERT INTO feedback (text) VALUES (?)"; EvModel [text]]
       ++ pre ++ n3 ++ n4).
  rewrite (fetch_ingest H req w text N1 N2 Et Ne), R. split; [done|]. split; [congruence|].
  split; [|split; [|split]].
  - rewrite A4, A3, A2, <- !app_assoc. reflexivity.
  - intros c Hc. rewrite C4, C3, C2 in Hc. rewrite (G c Hc). reflexivity.
  - intros key v Hin. rewrite !elem_of_app in Hin. destruct Hin as [Hin|[Hin|[Hin|Hin]]].
    + repeat (apply elem_of_cons in Hin as [?|Hin]; [done|]). by apply elem_of_nil in Hin.
    + by apply NP in Hin.
    + apply (on_prefix_put _ _ _ _ P3), summary_key_apart in Hin as [? _]. done.
    + apply (on_prefix_put _ _ _ _ P4), examples_key_apart in Hin as [? _]. done.
  - intros key Hkey. apply count_key_apart in Hkey as [Hs He].
    rewrite (K4 key He), (K3 key Hs), K2. reflexivity.
Qed.

(** The read of the count fails: the log of the request holds the read and
    no write of the count. *)
Lemma count_read_failure_skips_write_witness :
  exists vars w' new,
    fetch (scripted (only 3) (fun _ => JNull) (1 # 2)) (ingest_request "slow checkout") empty_world
    = (Some (json 200 (BSuccess "slow checkout" vars)), w')
    /\ occurrences vars = 0%Z
    /\ calls w' = calls empty_world ++ new
    /\ (forall c, ToString (category vars) = Some c ->
                  new !! 3%nat = Some (EvGet ("category:" +:+ c)))
    /\ (forall key v, EvPut key v ∈ new -> startsWith key "category:" = false)
    /\ (forall key, startsWith key "category:" = true -> kv w' !! key = kv empty_world !! key).
Proof.
  apply (count_read_failure_skips_write (scripted (only 3) (fun _ => JNull) (1 # 2))
           (ingest_request "slow checkout") empty_world "slow checkout"); simpl; done.
Defined.

(** C3 as stated fails: when the read of the count fails, the calls of the
    request hold no write under the category's key. *)
Lemma count_write_not_attempted :
  exists vars w',
    fetch (scripted (only 3) (fun _ => JNull) (1 # 2)) (ingest_request "slow checkout") empty_world
    = (Some (json 200 (BSuccess "slow checkout" vars)), w')
    /\ category vars = JStr "unknown"
    /\ occurrences vars = 0%Z
    /\ calls w' !! 3%nat = Some (EvGet "category:unknown")
    /\ forallb (fun e => match e with
                         | EvPut key _ => negb (bool_decide (key = "category:unknown"))
                         | _ => true
                         end) (calls w') = true.
Proof.
  eexists _, _. split; [vm_compute; reflexivity|]. vm_compute. done.
Qed.

Section Classification.
Context (H : Host).

Lemma read_classification_none w l : read_classification H None (w, l) = (Some tt, (w, l)).
Proof. reflexivity. Qed.

Lemma classify_call_thrown text w l :
  fails H (clock w) = true ->
  classify H text (w, l) = (Some tt, (record_call (EvModel [text]) w, defaults l)).
Proof.
  intros E. rewrite classify_start. apply try_thrown.
  rewrite (run_thrown _ _ _ _ (ai_run_thrown H _ w _ E)). reflexivity.
Qed.

Lemma classify_reply text w l :
  fails H (clock w) = false ->
  classify H text (w, l)
  = try_catch (read_classification H (response_of (reply H (clock w)))) (mret tt)
      (record_call (EvModel [text]) w, defaults l).
Proof.
  intros E. rewrite classify_start. unfold try_catch.
  rewrite (run_ok _ _ _ _ _ (ai_run_ok H _ w _ E)). reflexivity.
Qed.

(** The three variables after the block, when the classifier has failed. *)
Lemma classify_failed text w l c1 :
  classify H text (w, l) = (Some tt, c1) ->
  classifier_failed H (clock w) ->
  sentiment c1.2 = JStr "unknown" /\ category c1.2 = JStr "unknown"
  /\ summary c1.2 = JStr "N/A".
Proof.
  intros R [E|E Hr|raw E Hr Hb|raw i j E Hr Hi Hj Hp|raw i j parsed E Hr Hi Hj Hp N1 N2 N3].
  - rewrite (classify_call_thrown text w l E) in R. by injection R as <-.
  - rewrite (classify_reply text w l E) in R.
    destruct Hr as [Hr|Hr]; rewrite Hr in R; by injection R as <-.
  - rewrite (classify_reply text w l E), Hr in R. unfold try_catch, read_classification in R.
    destruct (nonempty raw); [|by injection R as <-].
    destruct Hb as [Hb|Hb]; rewrite Hb in R.
    + by injection R as <-.
    + destruct (indexOf "{" raw); by injection R as <-.
  - rewrite (classify_reply text w l E), Hr in R. unfold try_catch, read_classification in R.
    destruct (nonempty raw); [|by injection R as <-].
    rewrite Hi, Hj in R. cbv zeta in R. rewrite run_bind in R. unfold lift at 1 in R.
    rewrite Hp in R. by injection R as <-.
  - rewrite (classify_reply text w l E), Hr in R. unfold try_catch, read_classification in R.
    destruct (nonempty raw); [|by injection R as <-].
    rewrite Hi, Hj in R. cbv zeta in R. rewrite run_bind in R. unfold lift at 1 in R.
    rewrite Hp in R. unfold get_prop_opt in N1, N2, N3.
    destruct (get_prop parsed "sentiment") as [v1|] eqn:G1; [|by injection R as <-].
    destruct (get_prop parsed "category") as [v2|] eqn:G2;
      [|destruct parsed; simpl in *; done].
    destruct (get_prop parsed "summary") as [v3|] eqn:G3;
      [|destruct parsed; simpl in *; done].
    simpl in N1, N2, N3, R. unfold coalesce in R. rewrite N1, N2, N3 in R.
    by injection R as <-.
Qed.

(** The three variables after the block, when the classifier's reply holds
    an object: each key of the object that is there and not null gives its
    variable, each other variable keeps its default. *)
Lemma classify_read text w l c1 fields :
  classify H text (w, l) = (Some tt, c1) ->
  classifier_read H (clock w) fields ->
  sentiment c1.2 = coalesce (default JUndefined (assoc "sentiment" fields)) (JStr "unknown")
  /\ category c1.2 = coalesce (default JUndefined (assoc "category" fields)) (JStr "unknown")
  /\ summary c1.2 = coalesce (default JUndefined (assoc "summary" fields)) (JStr "N/A").
Proof.
  intros R (E & raw & i & j & Hr & Hne & Hi & Hj & Hp).
  rewrite (classify_reply text w l E), Hr in R. unfold try_catch, read_classification in R.
  unfold nonempty in R. rewrite (bool_decide_eq_false_2 _ Hne) in R. cbn [negb] in R.
  rewrite Hi, Hj in R. cbv zeta in R. rewrite run_bind in R.
  unfold lift at 1 in R. rewrite Hp in R. simpl in R. by injection R as <-.
Qed.
End Classification.

(** C5.  In an ingest request whose two statements on the table go through
    (the classifier's call is the third call of the request): the request
    is answered with status 200 and the text is in the table whatever the
    classifier does; when the classifier fails (its call throws, its reply
    has no text or no braces, the text between the braces is no JSON, or
    the value read has none of the three keys) the response carries exactly
    sentiment "unknown", category "unknown" and summary "N/A"; when the
    reply holds an object, each of its three keys that is missing or null
    leaves the default of that field. *)
Theorem classifier_failure_yields_defaults (H : Host) (req : Request) (w : World) (text : string) :
  pathname req <> "/stats" -> pathname req <> "/insights" ->
  text_param req = Some text -> text <> EmptyString ->
  fails H (clock w) = false -> fails H (S (clock w)) = false ->
  exists vars w',
    fetch H req w = (Some (json 200 (BSuccess text vars)), w')
    /\ feedback w' = feedback w ++ [text]
    /\ (classifier_failed H (S (S (clock w))) ->
        sentiment vars = JStr "unknown" /\ category vars = JStr "unknown"
        /\ summary vars = JStr "N/A")
    /\ (forall fields, classifier_read H (S (S (clock w))) fields ->
        sentiment vars = coalesce (default JUndefined (assoc "sentiment" fields)) (JStr "unknown")
        /\ category vars = coalesce (default JUndefined (assoc "category" fields)) (JStr "unknown")
        /\ summary vars = coalesce (default JUndefined (assoc "summary" fields)) (JStr "N/A")).
Proof.
  intros N1 N2 Et Ne E1 E2.
  destruct (ingest_run H text w fresh E1 E2) as (c1 & c2 & c3 & c4 & R1 & R2 & R3 & R4 & R).
  destruct (blocks_frame H text _ _ _ _ _ R1 R2 R3 R4)
    as ((B1 & _) & (B2 & _ & _ & (S2 & C2 & U2)) & (B3 & _ & _ & ((S3 & C3 & U3) & _))
        & (B4 & _ & _ & ((S4 & C4 & U4) & _))).
  exists c4.2, c4.1. rewrite (fetch_ingest H req w text N1 N2 Et Ne), R. split; [done|].
  split; [rewrite B4, B3, B2, B1; reflexivity|].
  rewrite S4, S3, S2, C4, C3, C2, U4, U3, U2. split.
  - intros Hf. exact (classify_failed H text _ _ _ R1 Hf).
  - intros fields Hr. exact (classify_read H text _ _ _ _ R1 Hr).
Qed.

(** The classifier's call throws. *)
Lemma classifier_failure_yields_defaults_witness :
  exists vars w',
    fetch (scripted (only 2) (fun _ => JNull) (1 # 2)) (ingest_request "slow checkout") empty_world
    = (Some (json 200 (BSuccess "slow checkout" vars)), w')
    /\ feedback w' = ["slow checkout"]
    /\ sentiment vars = JStr "unknown" /\ category vars = JStr "unknown"
    /\ summary vars = JStr "N/A".
Proof.
  destruct (classifier_failure_yields_defaults (scripted (only 2) (fun _ => JNull) (1 # 2))
              (ingest_request "slow checkout") empty_world "slow checkout")
    as (vars & w' & R & Hf & Hd & _); [simpl; done..|].
  exists vars, w'. split; [exact R|]. split; [exact Hf|].
  apply Hd. apply call_throws. reflexivity.
Defined.

(** ** The summary block *)

Section Summary.
Context (H : Host) (sumKey existing : string).

(** Writing the summary that is stored already changes nothing. *)
Lemma put_existing m r w l c' :
  kv w !! sumKey = Some existing -> nullish m = true ->
  (assign (set_category_summary (coalesce m (JStr existing)));;
   kv_put H sumKey (coalesce m (JStr existing))) (w, l) = (r, c') ->
  kv c'.1 = kv w /\ category_summary c'.2 = JStr existing.
Proof.
  intros Hkv Hm. unfold coalesce. rewrite Hm.
  rewrite (run_ok _ _ _ tt (w, set_category_summary (JStr existing) l)) by reflexivity.
  destruct (fails H (clock w)) eqn:E.
  - rewrite kv_put_thrown by exact E. by intros [= _ <-].
  - rewrite kv_put_ok by exact E. intros [= _ <-]. simpl. split; [|done].
    by apply insert_id.
Qed.

(** Lines 171-186 on a reply that yields no merged summary: the stored
    summary is in [category_summary], whether by [?? existingSummary] or by
    the [catch] of line 183. *)
Lemma merge_reply_fails aiRes w l :
  kv w !! sumKey = Some existing -> reply_fails H aiRes ->
  exists c', merge_reply H sumKey existing aiRes (w, l) = (Some tt, c')
             /\ kv c'.1 = kv w /\ category_summary c'.2 = JStr existing.
Proof.
  intros Hkv Hf. unfold merge_reply. cbv zeta. unfold try_catch.
  destruct Hf as [Hne Htext|He Ho Hn Hres].
  - unfold nonempty. rewrite (bool_decide_eq_false_2 _ Hne). cbn [negb].
    destruct Htext as [Ht|parsed Ht Hp].
    + rewrite run_bind. unfold lift at 1. rewrite Ht. eexists. split; [reflexivity|done].
    + rewrite run_bind. unfold lift at 1. rewrite Ht.
      rewrite run_bind. unfold lift at 1. unfold no_merged, get_prop_opt in Hp.
      destruct (get_prop parsed "merged_summary") as [m|];
        [|eexists; split; [reflexivity|done]].
      simpl in Hp.
      destruct ((assign (set_category_summary (coalesce m (JStr existing)));;
                 kv_put H sumKey (coalesce m (JStr existing))) (w, l)) as [r c'] eqn:R.
      destruct (put_existing m r w l c' Hkv Hp R) as [K C].
      destruct r as [[]|]; eexists; (split; [reflexivity|done]).
  - rewrite He. unfold nonempty. rewrite bool_decide_eq_true_2 by done. cbn [negb].
    rewrite Ho. assert (is_null aiRes = false) as -> by (by destruct aiRes). cbn [negb andb].
    rewrite run_bind. unfold lift at 1. unfold no_merged, get_prop_opt in Hres.
    destruct (get_prop aiRes "merged_summary") as [m|];
      [|eexists; split; [reflexivity|done]].
    simpl in Hres.
    destruct ((assign (set_category_summary (coalesce m (JStr existing)));;
               kv_put H sumKey (coalesce m (JStr existing))) (w, l)) as [r c'] eqn:R.
    destruct (put_existing m r w l c' Hkv Hres R) as [K C].
    destruct r as [[]|]; eexists; (split; [reflexivity|done]).
Qed.



(** The merge, when the call throws or the reply yields no merged summary:
    the stored summary is in [category_summary] and the namespace is as it
    was. *)
Lemma mergeSummary_failed w l :
  kv w !! sumKey = Some existing -> merge_failed H (clock w) ->
  exists c', mergeSummary H sumKey existing (w, l) = (Some tt, c')
             /\ kv c'.1 = kv w /\ category_summary c'.2 = JStr existing.
Proof.
  intros Hkv Hf. unfold mergeSummary, try_catch.
  rewrite (run_ok _ _ _ (summary l) (w, l)) by reflexivity.
  rewrite run_bind. unfold lift at 1.
  destruct (ToString (summary l)) as [new|]; [|eexists; split; [reflexivity|done]].
  destruct Hf as [E1|E1 Hf].
  { rewrite (run_thrown _ _ _ _ (ai_run_thrown H _ w l E1)).
    eexists. split; [reflexivity|done]. }
  rewrite (run_ok _ _ _ _ _ (ai_run_ok H _ w l E1)).
  destruct (merge_reply_fails (reply H (clock w)) (record_call (EvModel [existing; new]) w) l
              Hkv Hf) as (c' & R & K & C).
  rewrite R. exists c'. done.
Qed.

End Summary.

(** What the summary block does when the merge fails otherwise than by an
    empty reply (the call throws; the reply's text is no JSON, or has no
    [merged_summary]): it ends with the stored summary in
    [category_summary], and the namespace is as it was. *)
Lemma merge_failure_falls_back (H : Host) (w : World) (l : Locals) (c existing : string) :
  ToString (category l) = Some c ->
  fails H (clock w) = false ->
  kv w !! ("category_summary:" +:+ c) = Some existing ->
  merge_failed H (S (clock w)) ->
  exists w' l',
    updateSummary H (w, l) = (Some tt, (w', l'))
    /\ category_summary l' = JStr existing
    /\ kv w' = kv w.
Proof.
  intros Ec E Hkv Hf. unfold updateSummary.
  rewrite (run_ok _ _ _ tt (w, set_category_summary (summary l) l)) by reflexivity.
  set (l0 := set_category_summary (summary l) l).
  destruct (mergeSummary_failed H ("category_summary:" +:+ c) existing
              (record_call (EvGet ("category_summary:" +:+ c)) w) l0 Hkv Hf)
    as ([w' l'] & R & K & C).
  exists w', l'. split; [|split; [exact C|exact K]].
  apply try_ok.
  rewrite (run_ok _ _ _ (category l) (w, l0)) by reflexivity.
  rewrite (run_ok _ _ _ c (w, l0)) by (unfold lift; simpl; rewrite Ec; reflexivity).
  cbv zeta. rewrite (run_ok _ _ _ _ _ (kv_get_ok H _ w l0 E)). rewrite Hkv. exact R.
Qed.


(** ** The examples block *)

Section Examples.
Context (H : Host).

Lemma addExample_run arr text w l :
  exists ex,
    addExample H arr text (w, l)
    = (Some tt, ((match arr with
                  | JArr items => if (length items <? 3)%nat then w else record_call EvRandom w
                  | _ => w
                  end), set_examples ex l))
    /\ forall raw, JSON_parse H raw = Some arr -> added H text (random H (clock w)) (Some raw) ex.
Proof.
  destruct arr as [| |b|n|s|items|fields];
    try (exists [JStr text]; split; [reflexivity|];
         intros raw Hp; by apply (added_no_array _ _ _ raw _ Hp)).
  unfold addExample. destruct (length items <? 3)%nat eqn:E.
  - exists (items ++ [JStr text]). split; [reflexivity|].
    intros raw Hp. apply added_below; [exact Hp|]. by apply Nat.ltb_lt.
  - exists (array_set items (floor_times3 (random H (clock w))) (JStr text)).
    split; [reflexivity|].
    intros raw Hp. apply added_full; [exact Hp|]. apply Nat.ltb_ge in E. lia.
Qed.

(** Lines 209-228: the value given to [examples] once the read has
    returned [stored]; at most a random draw is made. *)
Lemma choose_examples_run text stored w l :
  exists ex w1,
    (match stored with
     | None => assign (set_examples [JStr text])
     | Some raw =>
         try_catch (arr ← lift (JSON_parse H raw); addExample H arr text)
                   (assign (set_examples [JStr text]))
     end) (w, l) = (Some tt, (w1, set_examples ex l))
    /\ kv w1 = kv w
    /\ (clock w1 = clock w \/ clock w1 = S (clock w))
    /\ added H text (random H (clock w)) stored ex.
Proof.
  destruct stored as [raw|].
  - unfold try_catch. rewrite run_bind. unfold lift at 1.
    destruct (JSON_parse H raw) as [arr|] eqn:Hp.
    + destruct (addExample_run arr text w l) as (ex & R & A). rewrite R.
      eexists ex, _. split; [reflexivity|]. split; [|split; [|by apply A]].
      * destruct arr; try done. destruct (length items <? 3)%nat; done.
      * destruct arr; auto. destruct (length items <? 3)%nat; auto.
    + exists [JStr text], w. repeat split; auto. by apply added_unparsable.
  - exists [JStr text], w. repeat split; auto. apply added_first.
Qed.

(** The block as a whole: it ends whatever fails; either the namespace is
    as it was, or the key of the category's examples holds the text of the
    new examples. *)
Lemma updateExamples_run text w l :
  exists w' l',
    updateExamples H text (w, l) = (Some tt, (w', l'))
    /\ (kv w' = kv w
        \/ exists c ex,
             ToString (category l) = Some c
             /\ added H text (random H (S (clock w))) (kv w !! ("category_examples:" +:+ c)) ex
             /\ examples l' = ex
             /\ kv w' = <["category_examples:" +:+ c :=
                           JSON_stringify H (JArr ex)]> (kv w)).
Proof.
  unfold updateExamples.
  rewrite (run_ok _ _ _ tt (w, set_examples [] l)) by reflexivity.
  unfold try_catch at 1.
  rewrite (run_ok _ _ _ (category l) (w, set_examples [] l)) by reflexivity.
  rewrite run_bind. unfold lift at 1.
  destruct (ToString (category l)) as [c|] eqn:Ec; [|eexists _, _; split; [reflexivity|by left]].
  cbv zeta. destruct (fails H (clock w)) eqn:E.
  { rewrite (run_thrown _ _ _ _ (kv_get_thrown H _ w _ E)).
    eexists _, _. split; [reflexivity|by left]. }
  rewrite (run_ok _ _ _ _ _ (kv_get_ok H _ w _ E)).
  destruct (choose_examples_run text (kv w !! ("category_examples:" +:+ c))
              (record_call (EvGet ("category_examples:" +:+ c)) w) (set_examples [] l))
    as (ex & w1 & R & K & _ & A).
  rewrite (run_ok _ _ _ _ _ R).
  rewrite (run_ok _ _ _ ex (w1, set_examples ex (set_examples [] l))) by reflexivity.
  destruct (fails H (clock w1)) eqn:E1.
  - rewrite kv_put_thrown by exact E1. eexists _, _. split; [reflexivity|]. left. exact K.
  - rewrite kv_put_ok by exact E1. eexists _, _. split; [reflexivity|]. right.
    exists c, ex. simpl. rewrite K. done.
Qed.
End Examples.

Section Sampler.
Context (H : Host).

(** The block when the category has a key and the read goes through. *)
Lemma updateExamples_read text w l c :
  ToString (category l) = Some c -> fails H (clock w) = false ->
  exists w' l',
    updateExamples H text (w, l) = (Some tt, (w', l'))
    /\ added H text (random H (S (clock w))) (kv w !! ("category_examples:" +:+ c)) (examples l')
    /\ (kv w' = kv w
        \/ kv w' = <["category_examples:" +:+ c :=
                      JSON_stringify H (JArr (examples l'))]> (kv w))
    /\ ((forall n, fails H n = false) ->
        kv w' = <["category_examples:" +:+ c :=
                   JSON_stringify H (JArr (examples l'))]> (kv w)).
Proof.
  intros Ec E. unfold updateExamples.
  rewrite (run_ok _ _ _ tt (w, set_examples [] l)) by reflexivity.
  unfold try_catch at 1.
  rewrite (run_ok _ _ _ (category l) (w, set_examples [] l)) by reflexivity.
  rewrite (run_ok _ _ _ c (w, set_examples [] l)) by (unfold lift; simpl; rewrite Ec; reflexivity).
  cbv zeta. rewrite (run_ok _ _ _ _ _ (kv_get_ok H _ w _ E)).
  destruct (choose_examples_run H text (kv w !! ("category_examples:" +:+ c))
              (record_call (EvGet ("category_examples:" +:+ c)) w) (set_examples [] l))
    as (ex & w1 & R & K & _ & A).
  rewrite (run_ok _ _ _ _ _ R).
  rewrite (run_ok _ _ _ ex (w1, set_examples ex (set_examples [] l))) by reflexivity.
  destruct (fails H (clock w1)) eqn:E1.
  - rewrite kv_put_thrown by exact E1. eexists _, _. split; [reflexivity|]. simpl.
    split; [exact A|]. split; [by left|]. intros Hall. rewrite Hall in E1. done.
  - rewrite kv_put_ok by exact E1. eexists _, _. split; [reflexivity|]. simpl.
    rewrite K. split; [exact A|]. split; [by right|]. done.
Qed.

Lemma updateExamples_thrown text w l :
  ToString (category l) = None \/ fails H (clock w) = true ->
  exists w' l', updateExamples H text (w, l) = (Some tt, (w', l')) /\ kv w' = kv w.
Proof.
  intros Hc. unfold updateExamples.
  rewrite (run_ok _ _ _ tt (w, set_examples [] l)) by reflexivity.
  unfold try_catch at 1.
  rewrite (run_ok _ _ _ (category l) (w, set_examples [] l)) by reflexivity.
  rewrite run_bind. unfold lift at 1.
  destruct (ToString (category l)) as [c|] eqn:Ec; [|eexists _, _; split; reflexivity].
  destruct Hc as [Hc|Hc]; [done|]. cbv zeta.
  rewrite (run_thrown _ _ _ _ (kv_get_thrown H _ w _ Hc)).
  eexists _, _. split; reflexivity.
Qed.
End Sampler.

(** The index [Math.floor(r * 3)] of a draw from the unit interval: it is
    0, 1 or 2, and it is the slot that the draw names. *)
Lemma floor_third (r : Q) :
  unit_interval r ->
  exists i : nat, (i < 3)%nat /\ floor_times3 r = Z.of_nat i /\ slot_drawn r i.
Proof.
  intros [H0 H1]. unfold floor_times3, slot_drawn. cbv zeta.
  assert (Qle_bool 0 (r * 3) = true) as -> by (apply Qle_bool_iff; lra).
  assert (Qle_bool 3 (r * 3) = false) as ->.
  { destruct (Qle_bool 3 (r * 3)) eqn:E; [|done]. apply Qle_bool_iff in E. lra. }
  cbn [andb negb].
  destruct (Qle_bool below_two (r * 3)) eqn:E2.
  { apply Qle_bool_iff in E2. exists 2%nat. split; [lia|]. split; [reflexivity|]. tauto. }
  assert (r * 3 < below_two)%Q as L2.
  { apply Qnot_le_lt. intros Hle. apply Qle_bool_iff in Hle. congruence. }
  destruct (Qle_bool below_one (r * 3)) eqn:E1.
  { apply Qle_bool_iff in E1. exists 1%nat. split; [lia|]. split; [reflexivity|]. tauto. }
  assert (r * 3 < below_one)%Q as L1.
  { apply Qnot_le_lt. intros Hle. apply Qle_bool_iff in Hle. congruence. }
  exists 0%nat. split; [lia|]. split; [reflexivity|]. tauto.
Qed.

(** A draw just below two thirds: three times the draw is below 2, and the
    double nearest to it is 2.0, so that slot 2 is named. *)
Example product_rounds_to_two :
  unit_interval (6004799503160661 # 2 ^ 53)
  /\ Qfloor ((6004799503160661 # 2 ^ 53) * 3) = 1%Z
  /\ floor_times3 (6004799503160661 # 2 ^ 53) = 2%Z.
Proof. split; [split; [discriminate|reflexivity]|]. split; vm_compute; reflexivity. Qed.

Lemma array_set_within (arr : list jsval) (i : nat) v :
  (i < length arr)%nat -> array_set arr (Z.of_nat i) v = <[i := v]> arr.
Proof.
  intros Hi. unfold array_set.
  destruct (Z.of_nat i <? 0)%Z eqn:E; [apply Z.ltb_lt in E; lia|].
  rewrite Nat2Z.id. apply Nat.ltb_lt in Hi. rewrite Hi. reflexivity.
Qed.

(** [added] picks one set of examples. *)
Lemma added_cases (H : Host) text r stored ex :
  added H text r stored ex ->
  match stored with
  | None => ex = [JStr text]
  | Some raw =>
      match JSON_parse H raw with
      | Some (JArr arr) =>
          if (length arr <? 3)%nat then ex = arr ++ [JStr text]
          else ex = array_set arr (floor_times3 r) (JStr text)
      | _ => ex = [JStr text]
      end
  end.
Proof.
  intros [|raw Hp|raw v Hp Hv|raw arr Hp Hlen|raw arr Hp Hlen]; try done.
  - rewrite Hp. done.
  - rewrite Hp. destruct v; try done. by destruct (Hv items).
  - rewrite Hp. apply Nat.ltb_lt in Hlen. rewrite Hlen. done.
  - rewrite Hp. apply Nat.ltb_ge in Hlen. rewrite Hlen. done.
Qed.

(** C6.  The examples block, for a category with a key and a read that goes
    through: a stored set that is absent, or no JSON, or no array gives
    exactly [[t]]; an array of fewer than 3 entries gives the array with
    [t] appended; an array of 3 entries gives the array with slot
    [Math.floor(r * 3)] overwritten by [t], [r] being the draw from the
    unit interval and the product a double (so the slot is 0, 1 or 2: 0
    when [3 r] is below [1 - 2^-54], 2 when it is [2 - 2^-53] or more, and
    1 between the two), and the other two slots as they were.  When no
    call fails the text of the resulting set is stored under the
    category's key. *)
Theorem examples_block_adds (H : Host) (w : World) (l : Locals) (c text : string) :
  ToString (category l) = Some c -> fails H (clock w) = false ->
  exists w' l',
    updateExamples H text (w, l) = (Some tt, (w', l'))
    /\ (kv w !! ("category_examples:" +:+ c) = None -> examples l' = [JStr text])
    /\ (forall raw, kv w !! ("category_examples:" +:+ c) = Some raw ->
          JSON_parse H raw = None -> examples l' = [JStr text])
    /\ (forall raw v, kv w !! ("category_examples:" +:+ c) = Some raw ->
          JSON_parse H raw = Some v -> (forall arr, v <> JArr arr) ->
          examples l' = [JStr text])
    /\ (forall raw arr, kv w !! ("category_examples:" +:+ c) = Some raw ->
          JSON_parse H raw = Some (JArr arr) -> (length arr < 3)%nat ->
          examples l' = arr ++ [JStr text])
    /\ (forall raw arr, kv w !! ("category_examples:" +:+ c) = Some raw ->
          JSON_parse H raw = Some (JArr arr) -> length arr = 3%nat ->
          unit_interval (random H (S (clock w))) ->
          exists i : nat,
            (i < 3)%nat
            /\ slot_drawn (random H (S (clock w))) i
            /\ examples l' = <[i := JStr text]> arr
            /\ examples l' !! i = Some (JStr text)
            /\ (forall j, j <> i -> examples l' !! j = arr !! j)
            /\ length (examples l') = 3%nat)
    /\ ((forall n, fails H n = false) ->
        kv w' = <["category_examples:" +:+ c :=
                   JSON_stringify H (JArr (examples l'))]> (kv w)).
Proof.
  intros Ec E.
  destruct (updateExamples_read H text w l c Ec E) as (w' & l' & R & A & _ & St).
  apply added_cases in A.
  exists w', l'. split; [exact R|]. repeat split.
  - intros Hs. rewrite Hs in A. exact A.
  - intros raw Hs Hp. rewrite Hs, Hp in A. exact A.
  - intros raw v Hs Hp Hv. rewrite Hs, Hp in A. destruct v; try done. by destruct (Hv items).
  - intros raw arr Hs Hp Hlen. rewrite Hs, Hp in A.
    apply Nat.ltb_lt in Hlen. rewrite Hlen in A. exact A.
  - intros raw arr Hs Hp Hlen Hr. rewrite Hs, Hp, Hlen in A.
    change (3 <? 3)%nat with false in A. cbv iota in A.
    destruct (floor_third _ Hr) as (i & Hi & Hfl & Hslot).
    rewrite Hfl, array_set_within in A by lia.
    exists i. rewrite A. split; [exact Hi|]. split; [exact Hslot|]. repeat split.
    + apply list_lookup_insert_eq. lia.
    + intros j Hj. apply list_lookup_insert_ne. done.
    + rewrite length_insert. exact Hlen.
  - exact St.
Qed.

(** ** The bound on the stored examples *)

Global Instance no_vars_preorder : PreOrder no_vars.
Proof. split; done. Qed.

Lemma loop_keeps {L A} (R : relation (World * L)) `{!PreOrder R} (f : string -> M L A) keys :
  (forall k, keeps R (f k)) ->
  keeps R (foldr (fun k acc => it ← f k; rest ← acc; mret (it :: rest)) (mret []) keys).
Proof.
  intros Hf. induction keys as [|k keys IH]; simpl.
  - intros c. reflexivity.
  - set (loop := foldr _ _ keys) in *.
    intros c. rewrite run_bind. specialize (Hf k c).
    destruct (f k c) as [[a|] c1]; simpl in *; [|done].
    rewrite run_bind. specialize (IH c1).
    destruct (loop c1) as [[rest|] c2]; simpl in *; etrans; eauto.
Qed.

Global Instance frame_preorder {L} Pk Pe (RL : relation L) `{!PreOrder RL} :
  PreOrder (frame Pk Pe RL).
Proof.
  split.
  - intros c. by apply frame_refl.
  - intros c1 c2 c3. by apply frame_trans.
Qed.

Section Bounded.
Context (H : Host).

Lemma stats_keeps : keeps (frame (fun _ => false) reads no_vars) (stats H).
Proof.
  unfold stats. apply keeps_try; [apply _| |by apply keeps_ret].
  apply keeps_bind; [apply _|by apply keeps_kv_list|]. intros keys.
  apply keeps_bind; [apply _| |intros items; by apply keeps_ret].
  apply loop_keeps; [apply _|]. intros k. unfold stats_item. keeps_auto.
Qed.

Lemma insights_keeps req : keeps (frame (fun _ => false) reads no_vars) (insights H req).
Proof.
  unfold insights. apply keeps_try; [apply _| |by apply keeps_ret].
  apply keeps_bind; [apply _|by apply keeps_kv_list|]. intros keys.
  apply keeps_bind; [apply _| |intros items; keeps_auto].
  apply loop_keeps; [apply _|]. intros k. unfold insights_item. keeps_auto.
Qed.

Lemma persist_kv text c : kv (persist H text c).2.1 = kv c.1.
Proof.
  destruct c as [w l]. unfold persist, db_run.
  set (w1 := record_call (EvRun create_table) w).
  destruct (fails H (clock w)) eqn:E1.
  { rewrite (run_thrown _ _ _ (w1, l)); [done|].
    rewrite (run_thrown _ _ _ _ (call_thrown H _ w l E1)). reflexivity. }
  rewrite (run_ok _ _ _ tt (w1, l))
    by (rewrite (run_ok _ _ _ _ _ (call_ok H _ w l E1)); reflexivity).
  set (w2 := record_call (EvRun "INSERT INTO feedback (text) VALUES (?)") w1).
  destruct (fails H (clock w1)) eqn:E2.
  { rewrite (run_thrown _ _ _ (w2, l)); [done|].
    rewrite (run_thrown _ _ _ _ (call_thrown H _ w1 l E2)). reflexivity. }
  rewrite (run_ok _ _ _ tt (w2, l))
    by (rewrite (run_ok _ _ _ _ _ (call_ok H _ w1 l E2)); reflexivity).
  reflexivity.
Qed.

(** A step that leaves the keys of the examples alone keeps the bound. *)
Lemma frame_bounded {L} Pk Pe (RL : relation L) (c c' : World * L) :
  (forall k, Pk k = true -> startsWith k "category_examples:" = false) ->
  frame Pk Pe RL c c' -> examples_bounded H c.1 -> examples_bounded H c'.1.
Proof.
  intros Hk (_ & K & _) B key Hkey. rewrite K; [by apply B|].
  destruct (Pk key) eqn:E; [|done]. apply Hk in E. congruence.
Qed.

Lemma same_kv_bounded (w w' : World) :
  kv w' = kv w -> examples_bounded H w -> examples_bounded H w'.
Proof. intros K B key Hkey. rewrite K. by apply B. Qed.

Context (roundtrip : forall ts : list string,
            JSON_parse H (JSON_stringify H (JArr (JStr <$> ts))) = Some (JArr (JStr <$> ts))).
Context (draws : forall n, unit_interval (random H n)).

(** What the block adds to at most three texts is at most three texts. *)
Lemma added_bounded text r stored ex :
  unit_interval r ->
  (stored = None
   \/ exists ts : list string,
        (length ts <= 3)%nat /\ stored = Some (JSON_stringify H (JArr (JStr <$> ts)))) ->
  added H text r stored ex ->
  exists ts' : list string, (length ts' <= 3)%nat /\ ex = JStr <$> ts'.
Proof.
  intros Hr Hs A. apply added_cases in A. destruct Hs as [->|(ts & Hlen & ->)].
  - exists [text]. split; [simpl; lia|exact A].
  - rewrite roundtrip in A. rewrite length_fmap in A.
    destruct (length ts <? 3)%nat eqn:E.
    + exists (ts ++ [text]). apply Nat.ltb_lt in E. rewrite length_app. simpl.
      split; [lia|]. rewrite A, fmap_app. reflexivity.
    + apply Nat.ltb_ge in E. destruct (floor_third r Hr) as (i & Hi & Hfl & _).
      rewrite Hfl, array_set_within in A by (rewrite length_fmap; lia).
      exists (<[i := text]> ts). rewrite length_insert. split; [lia|].
      rewrite A, list_fmap_insert. reflexivity.
Qed.

Lemma updateExamples_bounded text w l :
  examples_bounded H w -> examples_bounded H (updateExamples H text (w, l)).2.1.
Proof.
  intros B. destruct (updateExamples_run H text w l) as (w' & l' & R & [K|(c & ex & Ec & A & _ & K)]);
    rewrite R; simpl.
  - by apply (same_kv_bounded w).
  - assert (startsWith ("category_examples:" +:+ c) "category_examples:" = true) as Hc
      by apply startsWith_app.
    destruct (added_bounded text _ _ ex (draws _) (B _ Hc) A) as (ts' & Hlen & ->).
    intros key Hkey. rewrite K. destruct (decide ("category_examples:" +:+ c = key)) as [<-|Hne].
    + right. exists ts'. split; [exact Hlen|]. apply lookup_insert_eq.
    + rewrite lookup_insert_ne by exact Hne. by apply B.
Qed.

Lemma ingest_bounded text w l :
  examples_bounded H w -> examples_bounded H (ingest H text (w, l)).2.1.
Proof.
  intros B. unfold ingest, try_catch. rewrite run_bind.
  pose proof (persist_kv text (w, l)) as K0.
  destruct (persist H text (w, l)) as [[[]|] c0]; simpl in K0;
    [|by apply (same_kv_bounded w)].
  assert (examples_bounded H c0.1) as B0 by (by apply (same_kv_bounded w)).
  destruct (returns_run (classify H text) c0 (classify_returns H text)) as ([] & c1 & R1).
  destruct (returns_run (incrementCount H) c1 (incrementCount_returns H)) as ([] & c2 & R2).
  destruct (returns_run (updateSummary H) c2 (updateSummary_returns H)) as ([] & c3 & R3).
  destruct (blocks_frame H text c0 c1 c2 c3 (updateExamples H text c3).2) as (F1 & F2 & F3 & _);
    try done.
  { destruct (returns_run (updateExamples H text) c3 (updateExamples_returns H text))
      as ([] & c4 & R4). rewrite R4. reflexivity. }
  assert (examples_bounded H c3.1) as B3.
  { eapply frame_bounded; [|exact F3|].
    { intros k Hk. by apply summary_key_apart in Hk as [_ ?]. }
    eapply frame_bounded; [|exact F2|].
    { intros k Hk. by apply count_key_apart in Hk as [_ ?]. }
    eapply frame_bounded; [|exact F1|]; done. }
  rewrite (run_ok _ _ _ _ _ R1), (run_ok _ _ _ _ _ R2), (run_ok _ _ _ _ _ R3).
  pose proof (updateExamples_bounded text c3.1 c3.2 B3) as B4.
  destruct c3 as [w3 l3]. simpl in B4. rewrite run_bind.
  destruct (updateExamples H text (w3, l3)) as [[[]|] c4]; simpl in *; exact B4.
Qed.

Lemma fetch_bounded req w :
  examples_bounded H w -> examples_bounded H (fetch H req w).2.
Proof.
  intros B. unfold fetch. destruct (bool_decide (pathname req = "/stats")).
  { pose proof (stats_keeps (w, tt)) as F.
    destruct (stats H (w, tt)) as [r [w' []]]. simpl in *.
    eapply (frame_bounded _ _ _ (w, tt) (w', tt)); [|exact F|exact B]. done. }
  destruct (bool_decide (pathname req = "/insights")).
  { pose proof (insights_keeps req (w, tt)) as F.
    destruct (insights H req (w, tt)) as [r [w' []]]. simpl in *.
    eapply (frame_bounded _ _ _ (w, tt) (w', tt)); [|exact F|exact B]. done. }
  destruct (text_param req) as [text|]; [|exact B].
  destruct (nonempty text); [|exact B].
  pose proof (ingest_bounded text w fresh B) as B'.
  destruct (ingest H text (w, fresh)) as [r [w' l']]. exact B'.
Qed.

Lemma serve_bounded reqs w :
  examples_bounded H w -> examples_bounded H (serve H reqs w).
Proof.
  revert w. induction reqs as [|req reqs IH]; intros w B; [exact B|].
  simpl. apply IH. by apply fetch_bounded.
Qed.
End Bounded.

(** C7.  Start from a namespace without stored examples and serve any
    series of requests, with whatever failures and replies: for every
    category, what is stored as its examples reads back as a sequence of at
    most 3 entries.  ([JSON.parse] is taken to read back what
    [JSON.stringify] prints of an array of strings, and [Math.random] to
    draw from the unit interval.) *)
Theorem stored_examples_at_most_three (H : Host) (reqs : list Request) (w : World) :
  (forall ts : list string,
      JSON_parse H (JSON_stringify H (JArr (JStr <$> ts))) = Some (JArr (JStr <$> ts))) ->
  (forall n, unit_interval (random H n)) ->
  (forall key, startsWith key "category_examples:" = true -> kv w !! key = None) ->
  forall category raw,
    kv (serve H reqs w) !! ("category_examples:" +:+ category) = Some raw ->
    exists arr, JSON_parse H raw = Some (JArr arr) /\ (length arr <= 3)%nat.
Proof.
  intros Hrt Hdraw Hnone category raw Hraw.
  assert (examples_bounded H w) as B by (intros key Hkey; left; by apply Hnone).
  apply (serve_bounded H Hrt Hdraw reqs) in B.
  destruct (B ("category_examples:" +:+ category) (startsWith_app _ _)) as [E|(ts & Hlen & E)];
    rewrite E in Hraw; [done|].
  injection Hraw as <-. exists (JStr <$> ts). split; [apply Hrt|].
  rewrite length_fmap. exact Hlen.
Qed.

(** ** The JSON reader reads back what the printer prints of strings *)

Lemma append_cons (x : ascii) (a b : string) : String x a +:+ b = String x (a +:+ b).
Proof. reflexivity. Qed.

Lemma append_assoc (a b c : string) : (a +:+ b) +:+ c = a +:+ (b +:+ c).
Proof.
  induction a as [|x a IH]; [reflexivity|]. rewrite !append_cons. by rewrite IH.
Qed.

Lemma length_append (a b : string) :
  String.length (a +:+ b) = (String.length a + String.length b)%nat.
Proof.
  induction a as [|x a IH]; [reflexivity|]. rewrite append_cons. simpl. by rewrite IH.
Qed.

(** One character, printed and read back. *)
Lemma string_body_char (c : ascii) (s : string) :
  string_body (quote_char c +:+ s) = keep c (string_body s).
Proof. destruct c as [[] [] [] [] [] [] [] []]; reflexivity. Qed.

Lemma string_body_quote (t rest : string) :
  string_body (quote_chars t +:+ String "034" rest) = Some (t, rest).
Proof.
  induction t as [|c t IH]; [reflexivity|].
  change (quote_chars (String c t)) with (quote_char c +:+ quote_chars t).
  rewrite append_assoc, string_body_char, IH. reflexivity.
Qed.

Lemma quote_append (t rest : string) :
  quote t +:+ rest = String "034" (quote_chars t +:+ String "034" rest).
Proof.
  unfold quote, dq. rewrite append_cons. change (EmptyString +:+ ?s) with s.
  rewrite append_cons, append_assoc. reflexivity.
Qed.

Lemma read_string (f : nat) (t rest : string) :
  read (S f) Value (quote t +:+ rest) = Some (JStr t, rest).
Proof.
  rewrite quote_append.
  change (read (S f) Value (String "034" ?r))
    with ('(chars, out) ← string_body r; Some (JStr chars, out)).
  rewrite string_body_quote. reflexivity.
Qed.

Lemma read_elements (ts : list string) (t : string) (f : nat) (rest : string) :
  (length ts + 2 <= f)%nat ->
  read f Elements (join "," (quote <$> (t :: ts)) +:+ String "]" rest)
  = Some (JArr (JStr <$> (t :: ts)), rest).
Proof.
  revert t f. induction ts as [|t2 ts IH]; intros t f Hf.
  - destruct f as [|[|f]]; try (simpl in Hf; lia).
    change (join "," (quote <$> [t])) with (quote t).
    change (read (S (S f)) Elements (quote t +:+ String "]" rest))
      with ('(v, rest1) ← read (S f) Value (quote t +:+ String "]" rest);
            match skip_space rest1 with
            | String "," rest' =>
                '(more, out) ← read (S f) Elements rest';
                match more with
                | JArr items => Some (JArr (v :: items), out)
                | _ => None
                end
            | String "]" out => Some (JArr [v], out)
            | _ => None
            end).
    rewrite read_string. reflexivity.
  - destruct f as [|[|f]]; try (simpl in Hf; lia).
    change (join "," (quote <$> (t :: t2 :: ts)))
      with (quote t +:+ "," +:+ join "," (quote <$> (t2 :: ts))).
    rewrite !append_assoc.
    change (read (S (S f)) Elements ?s)
      with ('(v, rest1) ← read (S f) Value s;
            match skip_space rest1 with
            | String "," rest' =>
                '(more, out) ← read (S f) Elements rest';
                match more with
                | JArr items => Some (JArr (v :: items), out)
                | _ => None
                end
            | String "]" out => Some (JArr [v], out)
            | _ => None
            end).
    rewrite read_string.
    change ("," +:+ ?s) with (String "," s).
    cbn [mbind option_bind].
    change (skip_space (String "," ?s)) with (String "," s). cbv iota.
    rewrite IH by (simpl in Hf |- *; lia). reflexivity.
Qed.

Lemma json_text_strings (ts : list string) :
  json_text (JArr (JStr <$> ts)) = String "[" (join "," (quote <$> ts) +:+ "]").
Proof.
  simpl. do 3 f_equal. induction ts as [|t ts IH]; [reflexivity|].
  change (JStr <$> t :: ts) with (JStr t :: (JStr <$> ts)).
  change (quote <$> t :: ts) with (quote t :: (quote <$> ts)).
  cbv iota beta. rewrite <- IH. reflexivity.
Qed.

Lemma join_length (ts : list string) :
  (length ts <= String.length (join "," (quote <$> ts)))%nat.
Proof.
  induction ts as [|t [|t2 ts] IH]; [simpl; lia| |].
  - change (join "," (quote <$> [t])) with (quote t).
    unfold quote, dq. rewrite append_cons. simpl. lia.
  - change (join "," (quote <$> (t :: t2 :: ts)))
      with (quote t +:+ "," +:+ join "," (quote <$> (t2 :: ts))).
    rewrite quote_append. simpl String.length. rewrite length_append.
    change (String.length (String "034" ?s)) with (S (String.length s)).
    rewrite length_append. simpl in IH |- *. lia.
Qed.

Lemma json_roundtrip (ts : list string) :
  json_parse (json_text (JArr (JStr <$> ts))) = Some (JArr (JStr <$> ts)).
Proof.
  rewrite json_text_strings. unfold json_parse.
  set (s := String "[" (join "," (quote <$> ts) +:+ "]")).
  assert (length ts + 3 <= 2 * String.length s + 2)%nat as Hlen.
  { unfold s. change (String.length (String "[" ?r)) with (S (String.length r)).
    rewrite length_append. pose proof (join_length ts). lia. }
  destruct (2 * String.length s + 2)%nat as [|f] eqn:Ef; [lia|].
  unfold s. destruct ts as [|t ts].
  - reflexivity.
  - change (read (S f) Value (String "[" ?r))
      with (match skip_space r with
            | String "]" r' => Some (JArr [], r')
            | _ => read f Elements r
            end).
    assert (skip_space (join "," (quote <$> (t :: ts)) +:+ "]")
            = join "," (quote <$> (t :: ts)) +:+ "]") as ->.
    { destruct ts; reflexivity. }
    assert (forall r, match join "," (quote <$> (t :: ts)) +:+ "]" with
                      | String "]" r' => Some (JArr [], r')
                      | _ => r
                      end = r) as -> by (intros r; destruct ts; reflexivity).
    rewrite read_elements by (simpl in Hlen |- *; lia). reflexivity.
Qed.

Lemma half_in_unit : unit_interval (1 # 2).
Proof. split; [discriminate|reflexivity]. Qed.

(** ** A count printed and parsed *)

Lemma digit_pretty (d : N) : (d < 10)%N -> digit (pretty_N_char d) = Some (Z.of_N d).
Proof.
  intros Hd.
  assert (d = 0 \/ d = 1 \/ d = 2 \/ d = 3 \/ d = 4 \/ d = 5 \/ d = 6 \/ d = 7 \/ d = 8 \/ d = 9)%N
    as Hc by lia.
  repeat (destruct Hc as [->|Hc]; [reflexivity|]). subst. reflexivity.
Qed.

Lemma digits_pretty (x : N) (s : string) :
  (0 < x)%N -> digits (pretty_N_go x s) None = digits s (Some (Z.of_N x)).
Proof.
  revert s. induction (N.lt_wf_0 x) as [x _ IH]. intros s Hx.
  rewrite pretty_N_go_step by exact Hx.
  assert (x `mod` 10 < 10)%N as Hd by (by apply N.mod_lt).
  destruct (N.eq_dec (x `div` 10)%N 0%N) as [Hq|Hq];
    [|apply N.neq_0_lt_0 in Hq].
  - rewrite Hq, pretty_N_go_0. simpl. rewrite digit_pretty by exact Hd. simpl.
    f_equal. f_equal. pose proof (N.div_mod x 10). lia.
  - rewrite IH by (try apply N.div_lt; lia). simpl. rewrite digit_pretty by exact Hd.
    simpl. f_equal. f_equal. pose proof (N.div_mod x 10). lia.
Qed.

Lemma pretty_head (x : N) (s : string) :
  (0 < x)%N -> exists d r, (d < 10)%N /\ pretty_N_go x s = String (pretty_N_char d) r.
Proof.
  revert s. induction (N.lt_wf_0 x) as [x _ IH]. intros s Hx.
  rewrite pretty_N_go_step by exact Hx.
  assert (x `mod` 10 < 10)%N as Hd by (by apply N.mod_lt).
  destruct (N.eq_dec (x `div` 10)%N 0%N) as [Hq|Hq];
    [|apply N.neq_0_lt_0 in Hq].
  - rewrite Hq, pretty_N_go_0. eauto.
  - apply IH; [apply N.div_lt; lia|exact Hq].
Qed.

Lemma parseInt_digits (d : N) (r : string) :
  (d < 10)%N ->
  parseInt (String (pretty_N_char d) r) = digits (String (pretty_N_char d) r) None.
Proof.
  intros Hd.
  assert (d = 0 \/ d = 1 \/ d = 2 \/ d = 3 \/ d = 4 \/ d = 5 \/ d = 6 \/ d = 7 \/ d = 8 \/ d = 9)%N
    as Hc by lia.
  repeat (destruct Hc as [->|Hc]; [reflexivity|]). subst. reflexivity.
Qed.

(** [parseInt(String(k), 10)] is [k] for a positive count. *)
Lemma parseInt_String_of (k : Z) : (1 <= k)%Z -> parseInt (String_of k) = Some k.
Proof.
  intros Hk. destruct k as [|p|p]; try lia.
  unfold String_of, pretty, pretty_Z, pretty, pretty_positive, pretty, pretty_N.
  rewrite decide_False by done.
  destruct (pretty_head (N.pos p) EmptyString) as (d & r & Hd & E); [lia|].
  rewrite E, parseInt_digits by exact Hd. rewrite <- E.
  rewrite digits_pretty by lia. reflexivity.
Qed.

Lemma next_count_after (k : Z) :
  (1 <= k)%Z -> next_count (Some (String_of k)) = (k + 1)%Z.
Proof. intros Hk. unfold next_count. by rewrite parseInt_String_of. Qed.

(** ** Concurrent count blocks *)

Lemma writes_le (l : list submission) : (writes l <= length l)%nat.
Proof. unfold writes. apply length_filter. Qed.

Lemma writes_insert (l : list submission) (i : nat) (t t' : submission) :
  l !! i = Some t ->
  writes (<[i := t']> l)
  = (writes l + (if wrote t' then 1 else 0) - (if wrote t then 1 else 0))%nat.
Proof.
  revert i. induction l as [|x l IH]; intros i Hi; [done|].
  destruct i as [|i]; simpl in Hi.
  - injection Hi as ->. unfold writes. simpl. rewrite !filter_cons.
    destruct (wrote t) eqn:Et, (wrote t') eqn:Et'; simpl;
      repeat case_decide; simpl; try done; try lia; congruence.
  - simpl. unfold writes in *. rewrite !filter_cons.
    pose proof (IH i Hi) as IH'.
    assert ((if wrote t then 1 else 0) <= length (filter (fun t => wrote t = true) l))%nat.
    { clear IH IH'. revert i Hi. induction l as [|y l IHl]; intros i Hi; [done|].
      rewrite filter_cons. destruct i as [|i]; simpl in Hi.
      - injection Hi as ->. destruct (wrote t) eqn:Et; [|lia].
        rewrite decide_True by done. simpl. lia.
      - specialize (IHl i Hi). case_decide; simpl; lia. }
    case_decide; simpl; lia.
Qed.

Lemma count_ok_mono n m v : (n <= m)%nat -> count_ok n v -> count_ok m v.
Proof.
  intros Hnm [->|(k & -> & Hk)]; [by left|]. right. exists k. split; [done|lia].
Qed.

(** What the block stores is the text of the next count: the block run on
    the namespace that a submission has seen. *)
Lemma block_stores_next (c : string) (existing : option string) :
  block_stores c existing = Some (String_of (next_count existing)).
Proof.
  unfold block_stores.
  rewrite (incrementCount_run (scripted never (fun _ => JNull) (1 # 2)) (seen c existing)
             (set_category (JStr c) fresh) c eq_refl eq_refl eq_refl).
  simpl. rewrite lookup_insert_eq.
  destruct existing as [s|]; simpl.
  - by rewrite lookup_singleton_eq.
  - by rewrite lookup_empty.
Qed.

Lemma step_put_next c i s existing :
  pending s !! i = Some (HasRead existing) ->
  race_step c s {| cell := Some (String_of (next_count existing));
                   pending := <[i := Finished true]> (pending s) |}.
Proof. intros Hi. rewrite <- (block_stores_next c). by apply step_put. Qed.

Lemma race_step_ok c s s' : race_step c s s' -> race_ok s -> race_ok s'.
Proof.
  intros Hstep [Hcell Hread]. destruct Hstep as [i s Hi|i s Hi|i s existing Hi|i s existing Hi];
    simpl; unfold race_ok; simpl; rewrite (writes_insert _ _ _ _ Hi); simpl;
    rewrite ?Nat.add_0_r, ?Nat.sub_0_r.
  - split; [exact Hcell|]. intros j v Hj.
    destruct (decide (i = j)) as [->|Hne].
    + rewrite list_lookup_insert_eq in Hj by (by eapply lookup_lt_Some).
      injection Hj as <-. destruct Hcell as [[-> _]|(k & -> & Hk)]; [by left|].
      right. eauto.
    + rewrite list_lookup_insert_ne in Hj by done. eauto.
  - split; [exact Hcell|]. intros j v Hj.
    destruct (decide (i = j)) as [->|Hne].
    + rewrite list_lookup_insert_eq in Hj by (by eapply lookup_lt_Some). done.
    + rewrite list_lookup_insert_ne in Hj by done. eauto.
  - rewrite block_stores_next. split.
    + right. destruct (Hread i existing Hi) as [->|(k & -> & Hk)].
      * exists 1%Z. split; [reflexivity|lia].
      * exists (k + 1)%Z. rewrite next_count_after by lia. split; [reflexivity|lia].
    + intros j v Hj. destruct (decide (i = j)) as [->|Hne].
      * rewrite list_lookup_insert_eq in Hj by (by eapply lookup_lt_Some). done.
      * rewrite list_lookup_insert_ne in Hj by done.
        eapply count_ok_mono; [|by eapply Hread]. lia.
  - split; [exact Hcell|]. intros j v Hj.
    destruct (decide (i = j)) as [->|Hne].
    + rewrite list_lookup_insert_eq in Hj by (by eapply lookup_lt_Some). done.
    + rewrite list_lookup_insert_ne in Hj by done. eauto.
Qed.

Lemma race_step_length c s s' : race_step c s s' -> length (pending s') = length (pending s).
Proof. intros [i ? Hi|i ? Hi|i ? ? Hi|i ? ? Hi]; simpl; apply length_insert. Qed.

Lemma race_start_ok n : race_ok (race_start n).
Proof.
  split.
  - left. split; [done|]. unfold writes. simpl.
    induction n as [|n IH]; [done|]. simpl. rewrite filter_cons. by rewrite decide_False.
  - intros i v Hi. simpl in Hi. apply lookup_replicate in Hi as [? _]. done.
Qed.

Lemma race_reachable_ok c n s :
  rtc (race_step c) (race_start n) s -> race_ok s /\ length (pending s) = n.
Proof.
  revert s. apply rtc_ind_r.
  - split; [apply race_start_ok|]. simpl. apply length_replicate.
  - intros s1 s2 _ Hstep [Hok Hlen].
    split; [by eapply race_step_ok|]. rewrite (race_step_length _ _ _ Hstep). exact Hlen.
Qed.

(** The count block of a request, run by the handler among other
    submissions, is a run of one submission: whatever fails, what the block
    leaves under the category's key is what the steps of the submission
    leave in the cell, and the submission has written exactly when the two
    calls of the block went through. *)
Lemma count_block_is_a_submission (H : Host) (w : World) (l : Locals) (c : string)
    (before after : list submission) :
  ToString (category l) = Some c ->
  rtc (race_step c)
    {| cell := kv w !! ("category:" +:+ c); pending := before ++ Waiting :: after |}
    {| cell := kv (incrementCount H (w, l)).2.1 !! ("category:" +:+ c);
       pending := before ++ Finished (negb (fails H (clock w)) && negb (fails H (S (clock w))))
                    :: after |}.
Proof.
  intros Ec.
  assert (forall t : submission, (before ++ t :: after) !! length before = Some t) as Hat
    by (intros t; by apply list_lookup_middle).
  assert (forall t t' : submission,
            <[length before := t']> (before ++ t :: after) = before ++ t' :: after) as Hset.
  { intros t t'. rewrite insert_app_r_alt by lia. by rewrite Nat.sub_diag. }
  destruct (fails H (clock w)) eqn:E1.
  { rewrite (incrementCount_read_thrown H w l c Ec E1). simpl.
    eapply rtc_l; [apply (step_get_fails c (length before)); apply Hat|].
    simpl. rewrite Hset. apply rtc_refl. }
  destruct (fails H (S (clock w))) eqn:E2.
  - rewrite (incrementCount_write_thrown H w l c Ec E1 E2). simpl.
    eapply rtc_l; [apply (step_get c (length before)); apply Hat|]. simpl. rewrite Hset.
    eapply rtc_l; [apply (step_put_fails c (length before) _ (kv w !! ("category:" +:+ c)));
                   apply Hat|].
    simpl. rewrite Hset. apply rtc_refl.
  - rewrite (incrementCount_run H w l c Ec E1 E2). simpl.
    rewrite lookup_insert_eq.
    eapply rtc_l; [apply (step_get c (length before)); apply Hat|]. simpl. rewrite Hset.
    eapply rtc_l; [apply (step_put_next c (length before) _ (kv w !! ("category:" +:+ c)));
                   apply Hat|].
    simpl. rewrite Hset. apply rtc_refl.
Qed.

(** The count blocks of [n] submissions run by the handler one after the
    other, with whatever failures, are one of the interleavings. *)
Lemma blocks_in_turn_are_a_race (H : Host) (l : Locals) (c : string) (n : nat) :
  ToString (category l) = Some c ->
  forall (w : World) (before : list submission),
  exists outcome : list bool,
    length outcome = n
    /\ rtc (race_step c)
         {| cell := kv w !! ("category:" +:+ c); pending := before ++ replicate n Waiting |}
         {| cell := kv (blocks_in_turn H l n w) !! ("category:" +:+ c);
            pending := before ++ (Finished <$> outcome) |}.
Proof.
  intros Ec. induction n as [|n IH]; intros w before.
  - exists []. split; [done|]. apply rtc_refl.
  - simpl.
    set (b := negb (fails H (clock w)) && negb (fails H (S (clock w)))).
    destruct (IH (incrementCount H (w, l)).2.1 (before ++ [Finished b]))
      as (outcome & Hlen & Hrun).
    exists (b :: outcome). split; [simpl; by rewrite Hlen|].
    etrans; [apply (count_block_is_a_submission H w l c before (replicate n Waiting) Ec)|].
    fold b. rewrite <- !app_assoc in Hrun. exact Hrun.
Qed.

(** C9.  [n] submissions into one category, starting without a stored
    count, the reads and writes of their count blocks interleaved in any
    order and any of them failing: once the write of at least one
    submission has gone through, the stored count reads as a number
    between 1 and the number of writes that went through, which is at most
    [n]. *)
Theorem concurrent_count_in_range (c : string) (n : nat) (s : race) :
  rtc (race_step c) (race_start n) s ->
  (1 <= writes (pending s))%nat ->
  exists (k : Z) (shown : string),
    cell s = Some shown /\ parseInt shown = Some k
    /\ (1 <= k <= Z.of_nat (writes (pending s)))%Z
    /\ (k <= Z.of_nat n)%Z.
Proof.
  intros Hr Hw. destruct (race_reachable_ok c n s Hr) as [[Hcell _] Hlen].
  destruct Hcell as [[_ H0]|(k & Hk & Hb)]; [lia|].
  exists k, (String_of k). split; [exact Hk|]. split; [apply parseInt_String_of; lia|].
  split; [exact Hb|]. pose proof (writes_le (pending s)). lia.
Qed.

Lemma lost_update_reachable c : rtc (race_step c) (race_start 2) lost_update.
Proof.
  eapply rtc_l; [apply (step_get c 0); reflexivity|].
  eapply rtc_l; [apply (step_get c 1); reflexivity|].
  eapply rtc_l; [apply (step_put_next c 0 _ None); reflexivity|].
  eapply rtc_l; [apply (step_put_next c 1 _ None); reflexivity|].
  apply rtc_refl.
Qed.

Lemma concurrent_count_in_range_witness :
  exists (k : Z) (shown : string),
    cell lost_update = Some shown /\ parseInt shown = Some k
    /\ (1 <= k <= Z.of_nat (writes (pending lost_update)))%Z
    /\ (k <= Z.of_nat 2)%Z.
Proof.
  apply (concurrent_count_in_range "unknown" 2 lost_update).
  - exact (lost_update_reachable "unknown").
  - vm_compute. lia.
Defined.

(** ** The listing routes *)

Lemma bind_inv {L A B} (m : M L A) (f : A -> M L B) c b c' :
  (m ≫= f) c = (Some b, c') -> exists a c1, m c = (Some a, c1) /\ f a c1 = (Some b, c').
Proof.
  rewrite run_bind. destruct (m c) as [[a|] c1]; [|done]. eauto.
Qed.

Lemma try_inv {L A} (m h : M L A) c r c' :
  try_catch m h c = (r, c') ->
  m c = (r, c') /\ is_Some r \/ exists c1, m c = (None, c1) /\ h c1 = (r, c').
Proof.
  unfold try_catch. destruct (m c) as [[a|] c1]; intros E.
  - left. injection E as <- <-. eauto.
  - right. eauto.
Qed.

Lemma insert_sorted_in {A} (before : A -> A -> bool) x y l :
  y ∈ insert_sorted before x l -> y = x \/ y ∈ l.
Proof.
  induction l as [|z l IH]; simpl.
  - intros Hy. apply list_elem_of_singleton in Hy. by left.
  - destruct (before x z).
    + intros Hy. apply elem_of_cons in Hy. done.
    + intros Hy. apply elem_of_cons in Hy as [->|Hy].
      * right. apply elem_of_cons. by left.
      * destruct (IH Hy) as [->|?]; [by left|]. right. apply elem_of_cons. by right.
Qed.

Lemma sort_by_in {A} (before : A -> A -> bool) y l : y ∈ sort_by before l -> y ∈ l.
Proof.
  induction l as [|x l IH]; simpl; [done|].
  intros Hy. apply insert_sorted_in in Hy as [->|Hy].
  - apply elem_of_cons. by left.
  - apply elem_of_cons. right. by apply IH.
Qed.

Section Listing.
Context (H : Host).

(** The entry made for a key, lines 47-59, when its three reads go
    through: the summary is the stored one, [null] when there is none; the
    examples are what the stored text parses to, and the empty sequence
    when there is no stored text, when it is empty, or when it is no
    JSON. *)
Lemma insights_item_run name w it c' :
  insights_item H name (w, tt) = (Some it, c') ->
  kv c'.1 = kv w
  /\ it_category it = category_of "category:" name
  /\ it_occurrences it = read_count (kv w !! name)
  /\ it_category_summary it = kv w !! ("category_summary:" +:+ it_category it)
  /\ it_examples it
     = match kv w !! ("category_examples:" +:+ it_category it) with
       | Some raw => if nonempty raw then default (JArr []) (JSON_parse H raw) else JArr []
       | None => JArr []
       end.
Proof.
  unfold insights_item. cbv zeta. intros R.
  destruct (fails H (clock w)) eqn:E1.
  { rewrite (run_thrown _ _ _ _ (kv_get_thrown H _ w tt E1)) in R. done. }
  rewrite (run_ok _ _ _ _ _ (kv_get_ok H _ w tt E1)) in R.
  set (w1 := record_call (EvGet name) w) in R.
  destruct (fails H (clock w1)) eqn:E2.
  { rewrite (run_thrown _ _ _ _ (kv_get_thrown H _ w1 tt E2)) in R. done. }
  rewrite (run_ok _ _ _ _ _ (kv_get_ok H _ w1 tt E2)) in R.
  set (w2 := record_call (EvGet ("category_summary:" +:+ category_of "category:" name)) w1) in R.
  destruct (fails H (clock w2)) eqn:E3.
  { rewrite (run_thrown _ _ _ _ (kv_get_thrown H _ w2 tt E3)) in R. done. }
  rewrite (run_ok _ _ _ _ _ (kv_get_ok H _ w2 tt E3)) in R.
  injection R as <- <-. done.
Qed.

Lemma insights_loop_run keys w items c' :
  foldr (fun k acc => it ← insights_item H k; rest ← acc; mret (it :: rest)) (mret []) keys
    (w, tt) = (Some items, c') ->
  kv c'.1 = kv w
  /\ Forall (fun it => exists name (w0 : World) c0,
               kv w0 = kv w /\ insights_item H name (w0, tt) = (Some it, c0)) items.
Proof.
  revert w items c'. induction keys as [|k keys IH]; intros w items c'; simpl.
  - intros [= <- <-]. done.
  - intros R. apply bind_inv in R as (it & [w1 []] & R1 & R).
    apply bind_inv in R as (rest & c2 & R2 & R). injection R as <- <-.
    destruct (insights_item_run k w it _ R1) as (K1 & _).
    destruct (IH w1 rest c2 R2) as (K2 & F). simpl in K1. split; [congruence|].
    constructor; [by eauto|].
    eapply Forall_impl; [exact F|]. intros it' (name & w0 & c0 & K0 & R0).
    exists name, w0, c0. split; [congruence|done].
Qed.

(** The entries of the listing, before they are rendered. *)
Lemma insights_run req w r c' :
  insights H req (w, tt) = (Some r, c') ->
  body r = BError "KV read error"
  \/ exists items,
       Forall (fun it => exists name (w0 : World) c0,
                 kv w0 = kv w /\ insights_item H name (w0, tt) = (Some it, c0)) items
       /\ (body r = BInsights items
           \/ exists rows, wantsHtml req = true /\ mapM row items = Some rows
                /\ body r = BHtml (page (join EmptyString rows))).
Proof.
  unfold insights. intros R. apply try_inv in R as [[R _]|(c1 & _ & R)].
  2:{ injection R as <- <-. by left. }
  right. apply bind_inv in R as (keys & [w1 []] & R1 & R).
  assert (kv w1 = kv w) as K1.
  { pose proof (keeps_kv_list (fun _ => false) reads no_vars H "category:" 1000 eq_refl (w, tt)) as F.
    rewrite R1 in F. destruct F as (_ & K & _). apply map_eq. intros k. by apply K. }
  apply bind_inv in R as (items & c2 & R2 & R).
  destruct (insights_loop_run keys w1 items c2 R2) as (K2 & F).
  exists (by_occurrences it_occurrences items). split.
  { apply Forall_forall. intros it Hit. apply sort_by_in in Hit.
    rewrite Forall_forall in F. destruct (F it Hit) as (name & w0 & c0 & K0 & R0).
    exists name, w0, c0. split; [congruence|done]. }
  cbv zeta in R. destruct (wantsHtml req).
  - apply bind_inv in R as (rows & c3 & R3 & R). injection R as <- <-.
    right. exists rows. split; [done|]. split; [|done]. unfold lift in R3. by injection R3.
  - injection R as <- <-. by left.
Qed.

Lemma stats_body w r c' items : stats H (w, tt) = (Some r, c') -> body r <> BInsights items.
Proof.
  unfold stats. intros R. apply try_inv in R as [[R _]|(c1 & _ & R)].
  - apply bind_inv in R as (keys & c1 & _ & R). apply bind_inv in R as (its & c2 & _ & R).
    by injection R as <- <-.
  - by injection R as <- <-.
Qed.

Lemma stats_body_html w r c' html : stats H (w, tt) = (Some r, c') -> body r <> BHtml html.
Proof.
  unfold stats. intros R. apply try_inv in R as [[R _]|(c1 & _ & R)].
  - apply bind_inv in R as (keys & c1 & _ & R). apply bind_inv in R as (its & c2 & _ & R).
    by injection R as <- <-.
  - by injection R as <- <-.
Qed.

Lemma ingest_body text w l r c' :
  ingest H text (w, l) = (Some r, c') ->
  (forall items, body r <> BInsights items) /\ (forall html, body r <> BHtml html).
Proof.
  unfold ingest. intros R. apply try_inv in R as [[R _]|(c1 & _ & R)].
  - apply bind_inv in R as (? & ? & _ & R). apply bind_inv in R as (? & ? & _ & R).
    apply bind_inv in R as (? & ? & _ & R). apply bind_inv in R as (? & ? & _ & R).
    apply bind_inv in R as (? & ? & _ & R). apply bind_inv in R as (? & ? & _ & R).
    by injection R as <- <-.
  - by injection R as <- <-.
Qed.

(** A response with a listing or a page comes from the [/insights] route. *)
Lemma fetch_insights req w r w' :
  fetch H req w = (Some r, w') ->
  (exists items, body r = BInsights items) \/ (exists html, body r = BHtml html) ->
  exists c', insights H req (w, tt) = (Some r, c').
Proof.
  unfold fetch. intros R Hb. destruct (bool_decide (pathname req = "/stats")).
  { destruct (stats H (w, tt)) as [r0 [w0 []]] eqn:S. injection R as -> <-.
    destruct Hb as [[items Hb]|[html Hb]].
    - by destruct (stats_body _ _ _ items S).
    - by destruct (stats_body_html _ _ _ html S). }
  destruct (bool_decide (pathname req = "/insights")).
  { destruct (insights H req (w, tt)) as [r0 [w0 []]] eqn:S. injection R as -> <-. eauto. }
  destruct (text_param req) as [text|].
  2:{ injection R as <- <-. destruct Hb as [[? Hb]|[? Hb]]; done. }
  destruct (nonempty text).
  2:{ injection R as <- <-. destruct Hb as [[? Hb]|[? Hb]]; done. }
  destruct (ingest H text (w, fresh)) as [r0 [w0 l0]] eqn:S. injection R as -> <-.
  destruct (ingest_body _ _ _ _ _ S) as [N1 N2].
  destruct Hb as [[items Hb]|[html Hb]]; [by destruct (N1 items)|by destruct (N2 html)].
Qed.
End Listing.

(** C8, amended.  In the listing of [GET /insights], for every entry: the
    summary is [null] when no summary is stored for the category, and the
    examples are the empty sequence when no examples are stored for it,
    when the stored text is empty, or when the stored text is no JSON
    ([JSON.parse] throws). *)
Theorem insights_entry_defaults (H : Host) (req : Request) (w w' : World) (r : Response)
    (items : list Item) :
  fetch H req w = (Some r, w') -> body r = BInsights items ->
  forall it, it ∈ items ->
    (kv w !! ("category_summary:" +:+ it_category it) = None ->
     it_category_summary it = None)
    /\ (kv w !! ("category_examples:" +:+ it_category it) = None ->
        it_examples it = JArr [])
    /\ (kv w !! ("category_examples:" +:+ it_category it) = Some EmptyString ->
        it_examples it = JArr [])
    /\ (forall raw, kv w !! ("category_examples:" +:+ it_category it) = Some raw ->
        JSON_parse H raw = None -> it_examples it = JArr []).
Proof.
  intros R Hb it Hit.
  destruct (fetch_insights H req w r w' R) as (c' & S); [left; eauto|].
  apply insights_run in S as [S|(items' & F & [S|(rows & _ & _ & S)])].
  - rewrite Hb in S. done.
  - rewrite Hb in S. injection S as <-. rewrite Forall_forall in F.
    destruct (F it Hit) as (name & w0 & c0 & K0 & R0).
    destruct (insights_item_run H name w0 it c0 R0) as (_ & _ & _ & Hs & He).
    rewrite K0 in Hs, He. repeat split.
    + intros E. by rewrite Hs.
    + intros E. by rewrite He, E.
    + intros E. by rewrite He, E.
    + intros raw E Hp. rewrite He, E, Hp. by destruct (nonempty raw).
  - rewrite Hb in S. done.
Qed.

(** A category with a count and nothing else stored. *)
Lemma insights_entry_defaults_witness :
  exists it,
    (fetch (scripted never (fun _ => JNull) (1 # 2)) (insights_request None)
       (world_of {["category:billing" := "2"]})).1
    = Some (json 200 (BInsights [it]))
    /\ it_category it = "billing"
    /\ it_category_summary it = None /\ it_examples it = JArr [].
Proof.
  set (host := scripted never (fun _ => JNull) (1 # 2)).
  set (w := world_of {["category:billing" := "2"]}).
  set (it := {| it_category := "billing"; it_occurrences := 2;
                it_category_summary := None; it_examples := JArr [] |}).
  assert (fetch host (insights_request None) w
          = (Some (json 200 (BInsights [it])), (fetch host (insights_request None) w).2)) as R
    by (vm_compute; reflexivity).
  destruct (insights_entry_defaults host (insights_request None) w _ _ [it] R eq_refl it)
    as (Hs & He & _); [apply list_elem_of_here|].
  exists it. rewrite R. split; [reflexivity|]. split; [reflexivity|].
  split; [apply Hs|apply He]; reflexivity.
Defined.

(** C8 as stated fails: the stored text [1,2] is no sequence of strings,
    and the entry's examples are the two numbers, not the empty
    sequence. *)
Lemma insights_examples_not_strings :
  exists it,
    (fetch (scripted never (fun _ => JNull) (1 # 2)) (insights_request None)
       (world_of {["category:billing" := "2"; "category_examples:billing" := "[1,2]"]})).1
    = Some (json 200 (BInsights [it]))
    /\ it_category it = "billing"
    /\ it_examples it = JArr [JNum 1; JNum 2]
    /\ it_examples it <> JArr [].
Proof.
  eexists. split; [vm_compute; reflexivity|]. simpl. done.
Qed.

(** ** Escaping *)

Lemma esc_cons (a : ascii) (s : string) : esc (String a s) = entity a +:+ esc s.
Proof. destruct a as [[] [] [] [] [] [] [] []]; reflexivity. Qed.

(** [esc] replaces every character by its entity. *)
Lemma esc_entities (s : string) : esc s = entities s.
Proof.
  induction s as [|a s IH]; [reflexivity|]. rewrite esc_cons, IH. reflexivity.
Qed.

Lemma entities_escaped (s : string) : escaped (entities s).
Proof.
  induction s as [|a s IH]; [constructor|].
  change (entities (String a s)) with (entity a +:+ entities s).
  destruct (special a) eqn:E.
  - by apply escaped_entity.
  - assert (entity a = String a EmptyString) as ->.
    { unfold special in E. unfold entity.
      apply orb_false_iff in E as [E E4]. apply orb_false_iff in E as [E E3].
      apply orb_false_iff in E as [E1 E2]. rewrite E1, E2, E3, E4. reflexivity. }
    by apply escaped_plain.
Qed.

Lemma entities_append (a b : string) : entities (a +:+ b) = entities a +:+ entities b.
Proof.
  induction a as [|x a IH]; [reflexivity|].
  rewrite append_cons.
  change (entities (String x ?s)) with (entity x +:+ entities s).
  rewrite IH, append_assoc. reflexivity.
Qed.

Lemma entities_join (parts : list string) :
  entities (join " | " parts) = join " | " (entities <$> parts).
Proof.
  induction parts as [|p [|q parts] IH]; [reflexivity|reflexivity|].
  change (join " | " (p :: q :: parts)) with (p +:+ " | " +:+ join " | " (q :: parts)).
  rewrite !entities_append, IH. reflexivity.
Qed.

Lemma join_examples_texts (v : jsval) :
  join_examples v = join " | " <$> example_texts v.
Proof.
  unfold join_examples, example_texts. destruct (truthy v); [|reflexivity].
  destruct v; reflexivity.
Qed.

(** A row of the table is the row of entities. *)
Lemma row_safe (it : Item) (r : string) :
  row it = Some r ->
  exists exs, example_texts (it_examples it) = Some exs
    /\ r = safe_row (it_category it) (it_occurrences it)
             (default EmptyString (it_category_summary it)) exs.
Proof.
  unfold row. rewrite join_examples_texts.
  destruct (example_texts (it_examples it)) as [exs|]; [|done].
  simpl. intros [= <-]. exists exs. split; [reflexivity|].
  unfold safe_row. rewrite !esc_entities, entities_join. reflexivity.
Qed.

(** C10.  When [GET /insights] answers with the HTML page (the request
    accepts [text/html] or has [view=html]), the page is the table whose
    rows hold, for each entry, the category, the summary and
    the example texts with every [&], [<], [>] and double quote replaced by
    its entity: the three cells are made of other characters and of whole
    entities only. *)
Theorem insights_page_escaped (H : Host) (req : Request) (w w' : World) (r : Response)
    (html : string) :
  fetch H req w = (Some r, w') -> body r = BHtml html ->
  exists (items : list Item) (rows : list string),
    wantsHtml req = true
    /\ html = page (join EmptyString rows)
    /\ Forall2 (fun it row_ =>
         exists exs,
           example_texts (it_examples it) = Some exs
           /\ row_ = safe_row (it_category it) (it_occurrences it)
                       (default EmptyString (it_category_summary it)) exs
           /\ escaped (entities (it_category it))
           /\ escaped (entities (default EmptyString (it_category_summary it)))
           /\ escaped (entities (join " | " exs))
           /\ entities (join " | " exs) = join " | " (entities <$> exs)) items rows.
Proof.
  intros R Hb.
  destruct (fetch_insights H req w r w' R) as (c' & S); [right; eauto|].
  apply insights_run in S as [S|(items & _ & [S|(rows & Hw & Hrows & S)])];
    [rewrite Hb in S; done..|].
  rewrite Hb in S. injection S as ->. exists items, rows. split; [exact Hw|].
  split; [reflexivity|].
  apply mapM_Some in Hrows. eapply Forall2_impl; [exact Hrows|].
  intros it row_ Hrow. destruct (row_safe it row_ Hrow) as (exs & He & ->).
  exists exs. repeat split; try done; try apply entities_escaped. apply entities_join.
Qed.

(** A category, a summary and an example that hold all four characters. *)
Lemma insights_page_escaped_witness :
  exists html,
    (fetch (scripted never (fun _ => JNull) (1 # 2)) (insights_request (Some "html"))
       (world_of {["category:a<b" := "1"; "category_summary:a<b" := "x & y > z";
                   "category_examples:a<b" := "[" +:+ quote ("say " +:+ dq +:+ "hi" +:+ dq) +:+ "]"]})).1
    = Some {| status := 200; content_type := "text/html; charset=utf-8"; body := BHtml html |}
    /\ html = page (safe_row "a<b" 1 "x & y > z" ["say " +:+ dq +:+ "hi" +:+ dq])
    /\ safe_row "a<b" 1 "x & y > z" ["say " +:+ dq +:+ "hi" +:+ dq]
       = "<tr><td>a&lt;b</td><td>1</td><td>x &amp; y &gt; z</td><td>say &quot;hi&quot;</td></tr>".
Proof.
  set (host := scripted never (fun _ => JNull) (1 # 2)).
  set (w := world_of _).
  destruct (fetch host (insights_request (Some "html")) w) as [[r|] w'] eqn:R;
    [|vm_compute in R; discriminate].
  assert (exists html, body r = BHtml html) as [html Hb].
  { vm_compute in R. injection R as <- _. eexists. reflexivity. }
  destruct (insights_page_escaped host _ w w' r html R Hb) as (items & rows & _ & -> & _).
  vm_compute in R. injection R as <- _. simpl in Hb. injection Hb as Hb.
  eexists. split; [reflexivity|]. split; vm_compute; reflexivity.
Defined.

(** ** Closed runs *)

(** A first submission, classified as "billing", and the listing after it. *)
Example first_submission :
  let reply := JObj [("response",
                 JStr ("Here it is: {" +:+ quote "sentiment" +:+ ":" +:+ quote "negative" +:+ ","
                       +:+ quote "category" +:+ ":" +:+ quote "billing" +:+ ","
                       +:+ quote "summary" +:+ ":" +:+ quote "Checkout is slow." +:+ "} Done."))] in
  let host := scripted never (fun _ => reply) (1 # 2) in
  let after := fetch host (ingest_request "slow checkout") empty_world in
  after.1 = Some (json 200 (BSuccess "slow checkout"
                     {| sentiment := JStr "negative"; category := JStr "billing";
                        summary := JStr "Checkout is slow."; occurrences := 1;
                        category_summary := JStr "Checkout is slow.";
                        examples := [JStr "slow checkout"] |}))
  /\ (fetch host (insights_request None) after.2).1
     = Some (json 200 (BInsights
               [{| it_category := "billing"; it_occurrences := 1;
                   it_category_summary := Some "Checkout is slow.";
                   it_examples := JArr [JStr "slow checkout"] |}])).
Proof. vm_compute. split; reflexivity. Qed.



(** The merge service answers with a text that is no JSON: the stored
    summary is kept. *)
Example merge_unparsable :
  exists w' l',
    updateSummary (scripted never (fun _ => JObj [("response", JStr "not json")]) (1 # 2))
      (world_of {["category_summary:billing" := "Checkout is slow."]},
       set_summary (JStr "Pay page hangs.") (set_category (JStr "billing") fresh))
    = (Some tt, (w', l'))
    /\ category_summary l' = JStr "Checkout is slow."
    /\ kv w' !! "category_summary:billing" = Some "Checkout is slow.".
Proof.
  eexists _, _. split; [vm_compute; reflexivity|]. split; reflexivity.
Qed.

(** The merge service answers with a merged summary: it is returned and
    stored. *)
Example merge_success :
  let reply := JObj [("response", JStr ("{" +:+ quote "merged_summary" +:+ ":"
                                         +:+ quote "Checkout is slow and hangs." +:+ "}"))] in
  exists w' l',
    updateSummary (scripted never (fun _ => reply) (1 # 2))
      (world_of {["category_summary:billing" := "Checkout is slow."]},
       set_summary (JStr "Pay page hangs.") (set_category (JStr "billing") fresh))
    = (Some tt, (w', l'))
    /\ category_summary l' = JStr "Checkout is slow and hangs."
    /\ kv w' !! "category_summary:billing" = Some "Checkout is slow and hangs.".
Proof.
  eexists _, _. split; [vm_compute; reflexivity|]. split; reflexivity.
Qed.

(** Three examples are stored and the draw is 1/2: the middle slot is
    overwritten. *)
Lemma examples_block_adds_witness :
  exists w' l',
    updateExamples (scripted never (fun _ => JNull) (1 # 2)) "d"
      (world_of {["category_examples:billing" := json_text (JArr [JStr "a"; JStr "b"; JStr "c"])]},
       set_category (JStr "billing") fresh)
    = (Some tt, (w', l'))
    /\ examples l' = [JStr "a"; JStr "d"; JStr "c"]
    /\ kv w' !! "category_examples:billing"
       = Some (json_text (JArr [JStr "a"; JStr "d"; JStr "c"])).
Proof.
  destruct (examples_block_adds (scripted never (fun _ => JNull) (1 # 2))
              (world_of {["category_examples:billing" :=
                            json_text (JArr [JStr "a"; JStr "b"; JStr "c"])]})
              (set_category (JStr "billing") fresh) "billing" "d")
    as (w' & l' & R & _ & _ & _ & _ & Hfull & Hstore); [reflexivity..|].
  destruct (Hfull (json_text (JArr [JStr "a"; JStr "b"; JStr "c"]))
                  [JStr "a"; JStr "b"; JStr "c"])
    as (i & Hi & Hslot & Hex & _); [reflexivity..|exact half_in_unit|].
  assert (i = 1%nat) as ->.
  { destruct Hslot as [[_ Hlt]|[[-> _]|[_ Hle]]]; [|reflexivity|].
    - vm_compute in Hlt. discriminate.
    - vm_compute in Hle. by destruct Hle. }
  exists w', l'. split; [exact R|]. split; [exact Hex|].
  rewrite Hstore by reflexivity. rewrite Hex. apply lookup_insert_eq.
Defined.

(** Five submissions into one category, all classified as "unknown": the
    fourth and the fifth text each take the place of an earlier one. *)
Lemma five_roundtrip (ts : list string) :
  JSON_parse (scripted never (fun _ => JNull) (1 # 2))
    (JSON_stringify (scripted never (fun _ => JNull) (1 # 2)) (JArr (JStr <$> ts)))
  = Some (JArr (JStr <$> ts)).
Proof. exact (json_roundtrip ts). Qed.

Lemma five_draws (n : nat) : unit_interval (random (scripted never (fun _ => JNull) (1 # 2)) n).
Proof. exact half_in_unit. Qed.

Lemma five_start (key : string) :
  startsWith key "category_examples:" = true -> kv empty_world !! key = None.
Proof. intros _. apply lookup_empty. Qed.

Lemma five_stored :
  kv (serve (scripted never (fun _ => JNull) (1 # 2))
        (ingest_request <$> ["a"; "b"; "c"; "d"; "e"]) empty_world)
    !! ("category_examples:" +:+ "unknown")
  = Some (json_text (JArr [JStr "a"; JStr "e"; JStr "c"])).
Proof. vm_compute. reflexivity. Qed.

Lemma stored_examples_at_most_three_witness :
  exists arr,
    JSON_parse (scripted never (fun _ => JNull) (1 # 2))
      (json_text (JArr [JStr "a"; JStr "e"; JStr "c"])) = Some (JArr arr)
    /\ (length arr <= 3)%nat.
Proof.
  exact (stored_examples_at_most_three (scripted never (fun _ => JNull) (1 # 2))
           (ingest_request <$> ["a"; "b"; "c"; "d"; "e"]) empty_world
           five_roundtrip five_draws five_start "unknown" _ five_stored).
Defined.
(** * Further properties *)

(** ** Requests that are turned away *)

Lemma fetch_missing_text (H : Host) (req : Request) (w : World) :
  pathname req <> "/stats" -> pathname req <> "/insights" ->
  text_param req = None \/ text_param req = Some EmptyString ->
  fetch H req w = (Some (json 400 (BError missing_text)), w).
Proof.
  intros N1 N2 Ht. unfold fetch.
  rewrite (bool_decide_eq_false_2 _ N1), (bool_decide_eq_false_2 _ N2).
  destruct Ht as [-> | ->]; reflexivity.
Qed.

Section Database.
Context (H : Host).

Lemma persist_thrown text w l :
  fails H (clock w) = true \/ fails H (S (clock w)) = true ->
  exists w', persist H text (w, l) = (None, (w', l))
    /\ kv w' = kv w /\ feedback w' = feedback w
    /\ exists new, calls w' = calls w ++ new
         /\ Forall (fun e => exists sql, e = EvRun sql) new.
Proof.
  intros Hf. unfold persist, db_run.
  set (w1 := record_call (EvRun create_table) w).
  destruct (fails H (clock w)) eqn:E1.
  { exists w1. split.
    - apply run_thrown. rewrite (run_thrown _ _ _ _ (call_thrown H _ w l E1)). reflexivity.
    - repeat split. exists [EvRun create_table]. split; [reflexivity|]. repeat constructor. eauto. }
  destruct Hf as [Hf|Hf]; [done|].
  rewrite (run_ok _ _ _ tt (w1, l))
    by (rewrite (run_ok _ _ _ _ _ (call_ok H _ w l E1)); reflexivity).
  set (w2 := record_call (EvRun "INSERT INTO feedback (text) VALUES (?)") w1).
  exists w2. split.
  - apply run_thrown. rewrite (run_thrown _ _ _ _ (call_thrown H _ w1 l Hf)). reflexivity.
  - repeat split.
    exists [EvRun create_table; EvRun "INSERT INTO feedback (text) VALUES (?)"].
    split; [unfold w2, w1; simpl; by rewrite <- app_assoc|]. repeat constructor; eauto.
Qed.
End Database.

(** X1.  An ingest request whose CREATE TABLE or whose INSERT throws is
    answered with status 500 and the error "Database error"; the namespace
    and the table are as they were, and the only calls made are statements
    on the database: no call to the classifier, no read or write of the
    namespace. *)
Theorem database_failure_aborts (H : Host) (req : Request) (w : World) (text : string) :
  pathname req <> "/stats" -> pathname req <> "/insights" ->
  text_param req = Some text -> text <> EmptyString ->
  fails H (clock w) = true \/ fails H (S (clock w)) = true ->
  exists w' new,
    fetch H req w = (Some (json 500 (BError "Database error")), w')
    /\ kv w' = kv w /\ feedback w' = feedback w
    /\ calls w' = calls w ++ new
    /\ Forall (fun e => exists sql, e = EvRun sql) new.
Proof.
  intros N1 N2 Et Ne Hf.
  destruct (persist_thrown H text w fresh Hf) as (w' & R & K & F & new & C & A).
  exists w', new. rewrite (fetch_ingest H req w text N1 N2 Et Ne).
  assert (ingest H text (w, fresh) = (Some (json 500 (BError "Database error")), (w', fresh))) as ->.
  { unfold ingest. rewrite (try_thrown _ _ _ (w', fresh)); [reflexivity|].
    apply run_thrown. exact R. }
  done.
Qed.

Lemma database_failure_aborts_witness :
  exists w' new,
    fetch (scripted (only 1) (fun _ => JNull) (1 # 2)) (ingest_request "slow checkout") empty_world
    = (Some (json 500 (BError "Database error")), w')
    /\ kv w' = kv empty_world /\ feedback w' = feedback empty_world
    /\ calls w' = calls empty_world ++ new
    /\ Forall (fun e => exists sql, e = EvRun sql) new.
Proof.
  apply (database_failure_aborts (scripted (only 1) (fun _ => JNull) (1 # 2))
           (ingest_request "slow checkout") empty_world "slow checkout"); simpl; auto; done.
Defined.

(** ** Sorting *)

Lemma insert_sorted_perm {A} (before : A -> A -> bool) x l :
  insert_sorted before x l ≡ₚ x :: l.
Proof.
  induction l as [|y l IH]; simpl; [done|].
  destruct (before x y); [done|]. rewrite IH. apply Permutation_swap.
Qed.

Lemma sort_by_perm {A} (before : A -> A -> bool) l : sort_by before l ≡ₚ l.
Proof.
  induction l as [|x l IH]; [done|].
  change (sort_by before (x :: l)) with (insert_sorted before x (sort_by before l)).
  rewrite insert_sorted_perm. by rewrite IH.
Qed.

Lemma insert_sorted_descending {A} (occ : A -> Z) x l :
  StronglySorted (fun a b => (occ b <= occ a)%Z) l ->
  StronglySorted (fun a b => (occ b <= occ a)%Z)
    (insert_sorted (fun a b => (occ b <=? occ a)%Z) x l).
Proof.
  induction 1 as [|y l Hs IH Hy]; simpl.
  - repeat constructor.
  - destruct (occ y <=? occ x)%Z eqn:E.
    + apply Z.leb_le in E. constructor; [by constructor|]. constructor; [done|].
      eapply Forall_impl; [exact Hy|]. simpl. intros; lia.
    + apply Z.leb_gt in E. constructor; [done|].
      rewrite insert_sorted_perm. constructor; [lia|done].
Qed.

Lemma sorted_descending {A} (occ : A -> Z) l :
  StronglySorted (fun a b => (occ b <= occ a)%Z) l -> descending occ l.
Proof.
  induction 1 as [|x l Hs IH Hx]; intros i j a b Hij Ha Hb; [done|].
  destruct j as [|j]; [lia|]. simpl in Hb. destruct i as [|i]; simpl in Ha.
  - injection Ha as <-. rewrite Forall_forall in Hx. apply Hx.
    by eapply list_elem_of_lookup_2.
  - eapply (IH i j); [lia|done|done].
Qed.

Lemma by_occurrences_descending {A} (occ : A -> Z) l : descending occ (by_occurrences occ l).
Proof.
  apply sorted_descending. unfold by_occurrences.
  induction l as [|x l IH]; [constructor|].
  change (sort_by ?b (x :: l)) with (insert_sorted b x (sort_by b l)).
  by apply insert_sorted_descending.
Qed.

Lemma by_occurrences_perm {A} (occ : A -> Z) l : by_occurrences occ l ≡ₚ l.
Proof. apply sort_by_perm. Qed.

Lemma listed_length m : (length (listed m) <= 1000)%nat.
Proof. unfold listed. rewrite length_take. lia. Qed.

(** ** The listing routes, call by call *)

Lemma calls_succeed_dec (H : Host) n k :
  calls_succeed H n k \/ exists i, (n <= i < n + k)%nat /\ fails H i = true.
Proof.
  induction k as [|k IH].
  - left. intros i Hi. lia.
  - destruct IH as [IH|(i & Hi & E)].
    + destruct (fails H (n + k)) eqn:E.
      * right. exists (n + k)%nat. split; [lia|done].
      * left. intros i Hi. destruct (decide (i = n + k)%nat) as [->|]; [done|]. apply IH. lia.
    + right. exists i. split; [lia|done].
Qed.

Lemma frame_same_kv {L} Pe (RL : relation L) (c c' : World * L) :
  frame (fun _ => false) Pe RL c c' -> kv c'.1 = kv c.1 /\ feedback c'.1 = feedback c.1.
Proof. intros (F & K & _). split; [|done]. apply map_eq. intros key. by apply K. Qed.

Section Loop.
Context (H : Host) {A : Type} (f : string -> M unit A).
Context (g : gmap string string -> string -> A) (n : nat).
Context (item_ok : forall name w, calls_succeed H (clock w) n ->
  exists w', f name (w, tt) = (Some (g (kv w) name), (w', tt))
    /\ kv w' = kv w /\ clock w' = (clock w + n)%nat).
Context (item_thrown : forall name w i,
  (clock w <= i < clock w + n)%nat -> fails H i = true -> (f name (w, tt)).1 = None).

Lemma loop_ok keys w :
  calls_succeed H (clock w) (n * length keys) ->
  exists w',
    foldr (fun k acc => it ← f k; rest ← acc; mret (it :: rest)) (mret []) keys (w, tt)
    = (Some (g (kv w) <$> keys), (w', tt))
    /\ kv w' = kv w /\ clock w' = (clock w + n * length keys)%nat.
Proof.
  revert w. induction keys as [|k keys IH]; intros w Hs.
  - exists w. simpl. repeat split. lia.
  - simpl in *. set (loop := foldr _ _ keys) in *.
    destruct (item_ok k w) as (w1 & R1 & K1 & C1); [intros i Hi; apply Hs; lia|].
    destruct (IH w1) as (w2 & R2 & K2 & C2); [intros i Hi; apply Hs; lia|].
    exists w2. rewrite (run_ok _ _ _ _ _ R1), (run_ok _ _ _ _ _ R2), K1.
    repeat split; [congruence|lia].
Qed.

Lemma loop_thrown keys w i :
  (clock w <= i < clock w + n * length keys)%nat -> fails H i = true ->
  (foldr (fun k acc => it ← f k; rest ← acc; mret (it :: rest)) (mret []) keys (w, tt)).1 = None.
Proof.
  revert w. induction keys as [|k keys IH]; intros w Hi E.
  - simpl in Hi. lia.
  - simpl in *. set (loop := foldr _ _ keys) in *. rewrite run_bind.
    destruct (f k (w, tt)) as [[a|] [w1 []]] eqn:R1; [|done].
    destruct (calls_succeed_dec H (clock w) n) as [Hs|(j & Hj & Ej)].
    2:{ pose proof (item_thrown k w j Hj Ej) as N. rewrite R1 in N. done. }
    destruct (item_ok k w Hs) as (w1' & R1' & K1 & C1). rewrite R1 in R1'.
    injection R1' as -> <-.
    assert (clock w + n <= i)%nat as Hlo.
    { destruct (decide (i < clock w + n)%nat) as [Hlt|]; [|lia].
      rewrite Hs in E by lia. done. }
    rewrite run_bind. specialize (IH w1). rewrite C1 in IH.
    destruct (loop (w1, tt)) as [[rest|] c2]; [|done].
    simpl in IH. exfalso. assert (Some rest = None) by (apply IH; [lia|done]). done.
Qed.
End Loop.

Section Listings.
Context (H : Host).

Lemma kv_list_ok {L} p lim w (l : L) :
  fails H (clock w) = false ->
  kv_list H p lim (w, l)
  = (Some (take lim (filter (fun k => startsWith k p = true)
                       (sort_by String.leb (elements (dom (kv w)))))),
     (record_call (EvList p) w, l)).
Proof.
  intros E. unfold kv_list. rewrite (run_ok _ _ _ _ _ (call_ok H _ w l E)). reflexivity.
Qed.

Lemma kv_list_thrown {L} p lim w (l : L) :
  fails H (clock w) = true ->
  kv_list H p lim (w, l) = (None, (record_call (EvList p) w, l)).
Proof.
  intros E. unfold kv_list. rewrite (run_thrown _ _ _ _ (call_thrown H _ w l E)). reflexivity.
Qed.

Lemma stats_item_ok name w :
  calls_succeed H (clock w) 1 ->
  exists w', stats_item H name (w, tt) = (Some (stats_entry (kv w) name), (w', tt))
    /\ kv w' = kv w /\ clock w' = (clock w + 1)%nat.
Proof.
  intros Hs. exists (record_call (EvGet name) w). unfold stats_item.
  rewrite (run_ok _ _ _ _ _ (kv_get_ok H name w tt (Hs (clock w) ltac:(lia)))).
  repeat split. simpl. lia.
Qed.

Lemma stats_item_thrown name w i :
  (clock w <= i < clock w + 1)%nat -> fails H i = true -> (stats_item H name (w, tt)).1 = None.
Proof.
  intros Hi E. assert (i = clock w) as -> by lia. unfold stats_item.
  by rewrite (run_thrown _ _ _ _ (kv_get_thrown H name w tt E)).
Qed.

Lemma insights_item_ok name w :
  calls_succeed H (clock w) 3 ->
  exists w', insights_item H name (w, tt) = (Some (insights_entry H (kv w) name), (w', tt))
    /\ kv w' = kv w /\ clock w' = (clock w + 3)%nat.
Proof.
  intros Hs. unfold insights_item. cbv zeta.
  rewrite (run_ok _ _ _ _ _ (kv_get_ok H name w tt (Hs (clock w) ltac:(lia)))).
  set (w1 := record_call (EvGet name) w).
  rewrite (run_ok _ _ _ _ _ (kv_get_ok H _ w1 tt (Hs (clock w1) ltac:(simpl; lia)))).
  set (w2 := record_call _ w1).
  rewrite (run_ok _ _ _ _ _ (kv_get_ok H _ w2 tt (Hs (clock w2) ltac:(simpl; lia)))).
  eexists. split; [reflexivity|]. simpl. split; [done|lia].
Qed.

Lemma insights_item_thrown name w i :
  (clock w <= i < clock w + 3)%nat -> fails H i = true ->
  (insights_item H name (w, tt)).1 = None.
Proof.
  intros Hi E. unfold insights_item. cbv zeta.
  destruct (fails H (clock w)) eqn:E1.
  { by rewrite (run_thrown _ _ _ _ (kv_get_thrown H name w tt E1)). }
  rewrite (run_ok _ _ _ _ _ (kv_get_ok H name w tt E1)).
  set (w1 := record_call (EvGet name) w).
  destruct (fails H (clock w1)) eqn:E2.
  { by rewrite (run_thrown _ _ _ _ (kv_get_thrown H _ w1 tt E2)). }
  rewrite (run_ok _ _ _ _ _ (kv_get_ok H _ w1 tt E2)).
  set (w2 := record_call _ w1).
  destruct (fails H (clock w2)) eqn:E3.
  { by rewrite (run_thrown _ _ _ _ (kv_get_thrown H _ w2 tt E3)). }
  simpl in E2, E3.
  assert (i = clock w \/ i = S (clock w) \/ i = S (S (clock w))) as [->|[->| ->]] by lia;
    congruence.
Qed.

Lemma stats_ok w :
  calls_succeed H (clock w) (1 + length (listed (kv w))) ->
  exists w',
    stats H (w, tt)
    = (Some (json 200 (BStats (by_occurrences snd (stats_entry (kv w) <$> listed (kv w))))),
       (w', tt)).
Proof.
  intros Hs. unfold stats.
  set (w1 := record_call (EvList "category:") w).
  destruct (loop_ok H (stats_item H) stats_entry 1 stats_item_ok (listed (kv w)) w1)
    as (w2 & R2 & _); [intros i Hi; apply Hs; simpl in Hi; lia|].
  exists w2. apply try_ok.
  rewrite (run_ok _ _ _ _ _ (kv_list_ok "category:" 1000 w tt (Hs (clock w) ltac:(lia)))).
  change (take 1000 _) with (listed (kv w)). fold w1. rewrite (run_ok _ _ _ _ _ R2). reflexivity.
Qed.

Lemma stats_thrown w i :
  (clock w <= i < clock w + (1 + length (listed (kv w))))%nat -> fails H i = true ->
  exists w', stats H (w, tt) = (Some (json 500 (BError "KV read error")), (w', tt)).
Proof.
  intros Hi E. unfold stats, try_catch. rewrite run_bind.
  destruct (fails H (clock w)) eqn:E1.
  { rewrite (kv_list_thrown "category:" 1000 w tt E1). eexists. reflexivity. }
  rewrite (kv_list_ok "category:" 1000 w tt E1). change (take 1000 _) with (listed (kv w)).
  set (w1 := record_call (EvList "category:") w). rewrite run_bind.
  pose proof (loop_thrown H (stats_item H) stats_entry 1 stats_item_ok stats_item_thrown
                (listed (kv w)) w1 i) as T.
  set (loop := foldr _ _ (listed (kv w))) in *.
  destruct (loop (w1, tt)) as [[items|] [w2 []]].
  - simpl in T. assert (i <> clock w) by congruence.
    discriminate T; [lia|done].
  - eexists. reflexivity.
Qed.

Lemma insights_loop_ok w :
  calls_succeed H (clock w) (1 + 3 * length (listed (kv w))) ->
  exists w',
    (keys ← kv_list H "category:" 1000;
     foldr (fun k acc => it ← insights_item H k; rest ← acc; mret (it :: rest)) (mret []) keys)
      (w, tt)
    = (Some (insights_entry H (kv w) <$> listed (kv w)), (w', tt)).
Proof.
  intros Hs. set (w1 := record_call (EvList "category:") w).
  destruct (loop_ok H (insights_item H) (insights_entry H) 3 insights_item_ok (listed (kv w)) w1)
    as (w2 & R2 & _); [intros i Hi; apply Hs; simpl in Hi; lia|].
  exists w2.
  rewrite (run_ok _ _ _ _ _ (kv_list_ok "category:" 1000 w tt (Hs (clock w) ltac:(lia)))).
  exact R2.
Qed.

Lemma insights_loop_thrown w i :
  (clock w <= i < clock w + (1 + 3 * length (listed (kv w))))%nat -> fails H i = true ->
  exists w',
    (keys ← kv_list H "category:" 1000;
     foldr (fun k acc => it ← insights_item H k; rest ← acc; mret (it :: rest)) (mret []) keys)
      (w, tt)
    = (None, (w', tt)).
Proof.
  intros Hi E. rewrite run_bind.
  destruct (fails H (clock w)) eqn:E1.
  { rewrite (kv_list_thrown "category:" 1000 w tt E1). eexists. reflexivity. }
  rewrite (kv_list_ok "category:" 1000 w tt E1). change (take 1000 _) with (listed (kv w)).
  set (w1 := record_call (EvList "category:") w).
  pose proof (loop_thrown H (insights_item H) (insights_entry H) 3 insights_item_ok
                insights_item_thrown (listed (kv w)) w1 i) as T.
  set (loop := foldr _ _ (listed (kv w))) in *.
  destruct (loop (w1, tt)) as [[items|] [w2 []]].
  - simpl in T. assert (i <> clock w) by congruence.
    discriminate T; [lia|done].
  - eexists. reflexivity.
Qed.

Lemma insights_ok req w :
  calls_succeed H (clock w) (1 + 3 * length (listed (kv w))) ->
  let items := by_occurrences it_occurrences (insights_entry H (kv w) <$> listed (kv w)) in
  exists w',
    insights H req (w, tt)
    = (Some (if wantsHtml req then
               match mapM row items with
               | Some rows => {| status := 200; content_type := "text/html; charset=utf-8";
                                 body := BHtml (page (join EmptyString rows)) |}
               | None => json 500 (BError "KV read error")
               end
             else json 200 (BInsights items)), (w', tt)).
Proof.
  intros Hs items. destruct (insights_loop_ok w Hs) as (w' & R).
  exists w'. unfold insights, try_catch.
  rewrite run_bind in R. rewrite run_bind.
  destruct (kv_list H "category:" 1000 (w, tt)) as [[keys|] c1]; [|done].
  rewrite run_bind, R. cbv zeta. fold items.
  destruct (wantsHtml req); [|reflexivity].
  rewrite run_bind. unfold lift. destruct (mapM row items); reflexivity.
Qed.

Lemma insights_thrown req w i :
  (clock w <= i < clock w + (1 + 3 * length (listed (kv w))))%nat -> fails H i = true ->
  exists w', insights H req (w, tt) = (Some (json 500 (BError "KV read error")), (w', tt)).
Proof.
  intros Hi E. destruct (insights_loop_thrown w i Hi E) as (w' & R).
  exists w'. unfold insights, try_catch.
  rewrite run_bind in R. rewrite run_bind.
  destruct (kv_list H "category:" 1000 (w, tt)) as [[keys|] c1].
  - rewrite run_bind, R. reflexivity.
  - injection R as ->. reflexivity.
Qed.
End Listings.

(** ** The listing routes, request by request *)

Section Routes.
Context (H : Host).

Lemma fetch_stats req w :
  pathname req = "/stats" ->
  fetch H req w = ((stats H (w, tt)).1, (stats H (w, tt)).2.1).
Proof.
  intros E. unfold fetch. rewrite (bool_decide_eq_true_2 _ E).
  destruct (stats H (w, tt)) as [r [w' []]]. reflexivity.
Qed.

Lemma fetch_insights_route req w :
  pathname req = "/insights" ->
  fetch H req w = ((insights H req (w, tt)).1, (insights H req (w, tt)).2.1).
Proof.
  intros E. unfold fetch. rewrite E. simpl.
  destruct (insights H req (w, tt)) as [r [w' []]]. reflexivity.
Qed.

Lemma stats_lookups : keeps (frame (fun _ => false) lookups no_vars) (stats H).
Proof.
  unfold stats. apply keeps_try; [apply _| |by apply keeps_ret].
  apply keeps_bind; [apply _|by apply keeps_kv_list|]. intros keys.
  apply keeps_bind; [apply _| |intros items; by apply keeps_ret].
  apply loop_keeps; [apply _|]. intros k. unfold stats_item. keeps_auto.
Qed.

Lemma insights_lookups req : keeps (frame (fun _ => false) lookups no_vars) (insights H req).
Proof.
  unfold insights. apply keeps_try; [apply _| |by apply keeps_ret].
  apply keeps_bind; [apply _|by apply keeps_kv_list|]. intros keys.
  apply keeps_bind; [apply _| |intros items; keeps_auto].
  apply loop_keeps; [apply _|]. intros k. unfold insights_item. keeps_auto.
Qed.

Lemma listing_frame req w :
  pathname req = "/stats" \/ pathname req = "/insights" ->
  frame (fun _ => false) lookups no_vars (w, tt) ((fetch H req w).2, tt).
Proof.
  intros [E|E].
  - rewrite (fetch_stats req w E). pose proof (stats_lookups (w, tt)) as F.
    destruct (stats H (w, tt)) as [r [w' []]]. exact F.
  - rewrite (fetch_insights_route req w E). pose proof (insights_lookups req (w, tt)) as F.
    destruct (insights H req (w, tt)) as [r [w' []]]. exact F.
Qed.

Lemma listing_feedback req w :
  pathname req = "/stats" \/ pathname req = "/insights" ->
  feedback (fetch H req w).2 = feedback w.
Proof. intros Hp. by destruct (listing_frame req w Hp) as (F & _). Qed.
End Routes.

(** X2.  A request to [/stats] or [/insights], whatever its other
    parameters (a [text] is not ingested), leaves the namespace and the
    table as they were, and every call it makes is a [list] or a [get] of
    the namespace. *)
Theorem listing_routes_only_look_up (H : Host) (req : Request) (w : World) :
  pathname req = "/stats" \/ pathname req = "/insights" ->
  kv (fetch H req w).2 = kv w
  /\ feedback (fetch H req w).2 = feedback w
  /\ exists new, calls (fetch H req w).2 = calls w ++ new
       /\ Forall (fun e => exists key, e = EvGet key \/ e = EvList key) new.
Proof.
  intros Hp. pose proof (listing_frame H req w Hp) as F.
  destruct (frame_same_kv _ _ _ _ F) as [K Fb]. simpl in K, Fb.
  destruct F as (_ & _ & (new & C & _ & A) & _). simpl in C.
  repeat split; try done. exists new. split; [done|].
  apply Forall_forall. intros e He. rewrite forallb_forall in A.
  apply list_elem_of_In in He. specialize (A e He). destruct e; try done; eauto.
Qed.

Lemma listing_routes_only_look_up_witness :
  kv (fetch (scripted never (fun _ => JNull) (1 # 2))
        {| pathname := "/stats"; text_param := Some "slow checkout";
           view_param := None; accept := None |} empty_world).2 = kv empty_world
  /\ feedback (fetch (scripted never (fun _ => JNull) (1 # 2))
        {| pathname := "/stats"; text_param := Some "slow checkout";
           view_param := None; accept := None |} empty_world).2 = feedback empty_world
  /\ exists new,
       calls (fetch (scripted never (fun _ => JNull) (1 # 2))
          {| pathname := "/stats"; text_param := Some "slow checkout";
             view_param := None; accept := None |} empty_world).2 = calls empty_world ++ new
       /\ Forall (fun e => exists key, e = EvGet key \/ e = EvList key) new.
Proof.
  apply (listing_routes_only_look_up (scripted never (fun _ => JNull) (1 # 2))
           {| pathname := "/stats"; text_param := Some "slow checkout";
              view_param := None; accept := None |} empty_world).
  left. reflexivity.
Defined.


(** X4.  When any one of the calls of [/stats] throws (the [list] or the
    [get] of any listed key), the answer is status 500 with the error
    "KV read error": no partial listing is returned. *)
Theorem stats_read_failure (H : Host) (req : Request) (w : World) (i : nat) :
  pathname req = "/stats" ->
  (clock w <= i < clock w + (1 + length (listed (kv w))))%nat -> fails H i = true ->
  (fetch H req w).1 = Some (json 500 (BError "KV read error")).
Proof.
  intros E Hi Ef. rewrite (fetch_stats H req w E).
  destruct (stats_thrown H w i Hi Ef) as (w' & ->). reflexivity.
Qed.


(** X6.  When any one of the calls of [/insights] throws, the answer is
    status 500 with the error "KV read error", in either view. *)
Theorem insights_read_failure (H : Host) (req : Request) (w : World) (i : nat) :
  pathname req = "/insights" ->
  (clock w <= i < clock w + (1 + 3 * length (listed (kv w))))%nat -> fails H i = true ->
  (fetch H req w).1 = Some (json 500 (BError "KV read error")).
Proof.
  intros E Hi Ef. rewrite (fetch_insights_route H req w E).
  destruct (insights_thrown H req w i Hi Ef) as (w' & ->). reflexivity.
Qed.


Lemma row_fails (it : Item) : join_examples (it_examples it) = None -> row it = None.
Proof. intros E. unfold row. rewrite E. reflexivity. Qed.

(** X8.  When the examples stored for one listed category are JSON for a
    value that is truthy and no array (a number, a string, an object), the
    HTML view of [/insights] is answered with status 500 and the error
    "KV read error": [join] is called on a value that has none, inside the
    [try] of the route. *)
Theorem insights_page_breaks (H : Host) (req : Request) (w : World) (name raw : string) (v : jsval) :
  pathname req = "/insights" -> wantsHtml req = true ->
  name ∈ listed (kv w) ->
  kv w !! ("category_examples:" +:+ category_of "category:" name) = Some raw ->
  raw <> EmptyString -> JSON_parse H raw = Some v ->
  truthy v = true -> (forall arr, v <> JArr arr) ->
  (fetch H req w).1 = Some (json 500 (BError "KV read error")).
Proof.
  intros E Hv Hn Hraw Hne Hp Ht Harr.
  destruct (calls_succeed_dec H (clock w) (1 + 3 * length (listed (kv w)))) as [Hs|(i & Hi & Ef)].
  2:{ rewrite (fetch_insights_route H req w E).
      destruct (insights_thrown H req w i Hi Ef) as (w' & ->). reflexivity. }
  rewrite (fetch_insights_route H req w E).
  destruct (insights_ok H req w Hs) as (w' & ->). rewrite Hv.
  rewrite (mapM_None_2 row); [reflexivity|].
  apply Exists_exists. exists (insights_entry H (kv w) name). split.
  - rewrite by_occurrences_perm. apply list_elem_of_fmap. eauto.
  - apply row_fails. unfold insights_entry. simpl. rewrite Hraw.
    unfold nonempty. rewrite (bool_decide_eq_false_2 _ Hne). simpl. rewrite Hp. simpl.
    unfold join_examples. rewrite Ht. destruct v; try done. by destruct (Harr items).
Qed.

(** X9.  In every listing that [/stats] or [/insights] answers, no entry
    stands behind one with fewer occurrences, and there are at most 1000
    entries. *)
Theorem listings_sorted (H : Host) (req : Request) (w : World) (r : Response) :
  pathname req = "/stats" \/ pathname req = "/insights" ->
  (fetch H req w).1 = Some r ->
  (forall items, body r = BStats items ->
     descending snd items /\ (length items <= 1000)%nat)
  /\ (forall items, body r = BInsights items ->
     descending it_occurrences items /\ (length items <= 1000)%nat).
Proof.
  intros [E|E] R.
  - rewrite (fetch_stats H req w E) in R.
    destruct (calls_succeed_dec H (clock w) (1 + length (listed (kv w)))) as [Hs|(i & Hi & Ef)].
    + destruct (stats_ok H w Hs) as (w' & R'). rewrite R' in R. injection R as <-.
      split; intros items [= <-].
      split; [apply by_occurrences_descending|].
      rewrite by_occurrences_perm, length_fmap. apply listed_length.
    + destruct (stats_thrown H w i Hi Ef) as (w' & R'). rewrite R' in R. injection R as <-.
      split; intros items [=].
  - rewrite (fetch_insights_route H req w E) in R.
    destruct (calls_succeed_dec H (clock w) (1 + 3 * length (listed (kv w))))
      as [Hs|(i & Hi & Ef)].
    + destruct (insights_ok H req w Hs) as (w' & R'). rewrite R' in R. injection R as <-.
      destruct (wantsHtml req); [destruct (mapM row _)|]; split; intros items [= <-].
      split; [apply by_occurrences_descending|].
      rewrite by_occurrences_perm, length_fmap. apply listed_length.
    + destruct (insights_thrown H req w i Hi Ef) as (w' & R'). rewrite R' in R.
      injection R as <-. split; intros items [=].
Qed.

(** ** Every request is answered *)

Section Answers.
Context (H : Host).

Lemma stats_status w :
  exists r w', stats H (w, tt) = (Some r, (w', tt)) /\ (status r = 200 \/ status r = 500)%nat.
Proof.
  destruct (calls_succeed_dec H (clock w) (1 + length (listed (kv w)))) as [Hs|(i & Hi & Ef)].
  - destruct (stats_ok H w Hs) as (w' & R). eexists _, w'. split; [exact R|]. by left.
  - destruct (stats_thrown H w i Hi Ef) as (w' & R). eexists _, w'. split; [exact R|]. by right.
Qed.

Lemma insights_status req w :
  exists r w', insights H req (w, tt) = (Some r, (w', tt)) /\ (status r = 200 \/ status r = 500)%nat.
Proof.
  destruct (calls_succeed_dec H (clock w) (1 + 3 * length (listed (kv w)))) as [Hs|(i & Hi & Ef)].
  - destruct (insights_ok H req w Hs) as (w' & R). eexists _, w'. split; [exact R|].
    destruct (wantsHtml req); [destruct (mapM row _)|]; simpl; auto.
  - destruct (insights_thrown H req w i Hi Ef) as (w' & R). eexists _, w'.
    split; [exact R|]. by right.
Qed.

Lemma ingest_thrown text w l :
  fails H (clock w) = true \/ fails H (S (clock w)) = true ->
  exists w', ingest H text (w, l) = (Some (json 500 (BError "Database error")), (w', l))
    /\ kv w' = kv w /\ feedback w' = feedback w
    /\ exists new, calls w' = calls w ++ new
         /\ Forall (fun e => exists sql, e = EvRun sql) new.
Proof.
  intros Hf. destruct (persist_thrown H text w l Hf) as (w' & R & K & F & C).
  exists w'. split; [|done]. unfold ingest.
  rewrite (try_thrown _ _ _ (w', l)); [reflexivity|]. apply run_thrown. exact R.
Qed.

Lemma ingest_status text w l :
  exists r c', ingest H text (w, l) = (Some r, c') /\ (status r = 200 \/ status r = 500)%nat.
Proof.
  destruct (fails H (clock w)) eqn:E1.
  { destruct (ingest_thrown text w l (or_introl E1)) as (w' & R & _).
    eexists _, _. split; [exact R|]. by right. }
  destruct (fails H (S (clock w))) eqn:E2.
  { destruct (ingest_thrown text w l (or_intror E2)) as (w' & R & _).
    eexists _, _. split; [exact R|]. by right. }
  destruct (ingest_run H text w l E1 E2) as (c1 & c2 & c3 & c4 & _ & _ & _ & _ & R).
  eexists _, _. split; [exact R|]. by left.
Qed.
End Answers.

(** X10.  Every request is answered: no exception leaves the handler, and
    the status is 200, 400 or 500.  The status is 400 exactly for a request
    outside the two listing routes whose [text] is missing or empty, and
    such a request changes nothing and makes no call. *)
Theorem fetch_always_answers (H : Host) (req : Request) (w : World) :
  exists r,
    (fetch H req w).1 = Some r
    /\ (status r = 200 \/ status r = 400 \/ status r = 500)%nat
    /\ (status r = 400%nat
        <-> pathname req <> "/stats" /\ pathname req <> "/insights"
            /\ (text_param req = None \/ text_param req = Some EmptyString))
    /\ (status r = 400%nat -> (fetch H req w).2 = w).
Proof.
  assert (forall r : Response, (status r = 200 \/ status r = 500)%nat -> status r <> 400%nat)
    as Hno by (intros r [E|E]; rewrite E; done).
  destruct (decide (pathname req = "/stats")) as [E1|N1].
  { destruct (stats_status H w) as (r & w' & R & Hst). exists r.
    rewrite (fetch_stats H req w E1), R. pose proof (Hno r Hst). repeat split; tauto. }
  destruct (decide (pathname req = "/insights")) as [E2|N2].
  { destruct (insights_status H req w) as (r & w' & R & Hst). exists r.
    rewrite (fetch_insights_route H req w E2), R. pose proof (Hno r Hst).
    repeat split; tauto. }
  destruct (text_param req) as [text|] eqn:Et.
  2:{ exists (json 400 (BError missing_text)).
      rewrite (fetch_missing_text H req w N1 N2 (or_introl Et)). simpl. tauto. }
  destruct (decide (text = EmptyString)) as [->|Ne].
  { exists (json 400 (BError missing_text)).
    rewrite (fetch_missing_text H req w N1 N2 (or_intror Et)). simpl. tauto. }
  destruct (ingest_status H text w fresh) as (r & c' & R & Hst). exists r.
  rewrite (fetch_ingest H req w text N1 N2 Et Ne), R. pose proof (Hno r Hst).
  repeat split; try tauto. intros (_ & _ & [?|[= ?]]); done.
Qed.

(** ** The table of submissions *)

Section Table.
Context (H : Host).

Lemma ingest_feedback text w l :
  fails H (clock w) = false -> fails H (S (clock w)) = false ->
  feedback (ingest H text (w, l)).2.1 = feedback w ++ [text].
Proof.
  intros E1 E2.
  destruct (ingest_run H text w l E1 E2) as (c1 & c2 & c3 & c4 & R1 & R2 & R3 & R4 & R).
  destruct (blocks_frame H text _ _ _ _ _ R1 R2 R3 R4)
    as ((B1 & _) & (B2 & _) & (B3 & _) & (B4 & _)).
  rewrite R. simpl. rewrite B4, B3, B2, B1. reflexivity.
Qed.

Lemma fetch_feedback req w :
  feedback (fetch H req w).2 = feedback w
  \/ exists text, submitted req = Some text /\ feedback (fetch H req w).2 = feedback w ++ [text].
Proof.
  unfold submitted.
  destruct (decide (pathname req = "/stats")) as [E1|N1].
  { left. by apply (listing_feedback H req w); left. }
  destruct (decide (pathname req = "/insights")) as [E2|N2].
  { left. by apply (listing_feedback H req w); right. }
  rewrite (bool_decide_eq_false_2 _ N1), (bool_decide_eq_false_2 _ N2).
  destruct (text_param req) as [text|] eqn:Et.
  2:{ left. by rewrite (fetch_missing_text H req w N1 N2 (or_introl Et)). }
  destruct (decide (text = EmptyString)) as [->|Ne].
  { left. by rewrite (fetch_missing_text H req w N1 N2 (or_intror Et)). }
  unfold nonempty. rewrite (bool_decide_eq_false_2 _ Ne). simpl.
  rewrite (fetch_ingest H req w text N1 N2 Et Ne). simpl.
  destruct (fails H (clock w)) eqn:F1.
  { left. destruct (ingest_thrown H text w fresh (or_introl F1)) as (w' & R & _ & F & _).
    by rewrite R. }
  destruct (fails H (S (clock w))) eqn:F2.
  { left. destruct (ingest_thrown H text w fresh (or_intror F2)) as (w' & R & _ & F & _).
    by rewrite R. }
  right. exists text. split; [done|]. by apply ingest_feedback.
Qed.

Lemma fetch_feedback_all req w :
  (forall i, fails H i = false) ->
  feedback (fetch H req w).2 = feedback w ++ from_option (fun t => [t]) [] (submitted req).
Proof.
  intros Hall. destruct (submitted req) as [text|] eqn:Es; simpl.
  - unfold submitted in Es.
    destruct (decide (pathname req = "/stats")) as [E1|N1];
      [by rewrite (bool_decide_eq_true_2 _ E1) in Es|].
    destruct (decide (pathname req = "/insights")) as [E2|N2];
      [by rewrite (bool_decide_eq_false_2 _ N1), (bool_decide_eq_true_2 _ E2) in Es|].
    rewrite (bool_decide_eq_false_2 _ N1), (bool_decide_eq_false_2 _ N2) in Es.
    destruct (text_param req) as [t|] eqn:Et; [|done].
    destruct (decide (t = EmptyString)) as [->|Ne]; [done|].
    unfold nonempty in Es. rewrite (bool_decide_eq_false_2 _ Ne) in Es. injection Es as ->.
    rewrite (fetch_ingest H req w text N1 N2 Et Ne). simpl. by apply ingest_feedback.
  - rewrite app_nil_r. destruct (fetch_feedback req w) as [E|(text & Es' & _)]; [done|congruence].
Qed.
End Table.

(** X11.  Over any series of requests, with whatever failures, the table
    only grows: its rows after the series are its rows before, followed by
    texts submitted in the series, in the order of their requests (a
    submission whose insert failed is missing). *)
Theorem feedback_table_is_a_log (H : Host) (reqs : list Request) (w : World) :
  exists texts,
    feedback (serve H reqs w) = feedback w ++ texts
    /\ texts `sublist_of` omap submitted reqs.
Proof.
  revert w. induction reqs as [|req reqs IH]; intros w.
  - exists []. simpl. by rewrite app_nil_r.
  - change (serve H (req :: reqs) w) with (serve H reqs (fetch H req w).2).
    destruct (IH (fetch H req w).2) as (texts & E & Hsub). rewrite E. simpl.
    destruct (fetch_feedback H req w) as [->|(text & -> & ->)].
    + exists texts. split; [done|]. destruct (submitted req); [by apply sublist_cons|done].
    + exists (text :: texts). rewrite <- app_assoc. split; [done|]. by apply sublist_skip.
Qed.

(** X12.  When no call fails, the table after a series of requests holds
    the text of every submission of the series, in order, after the rows
    it held before. *)
Theorem feedback_table_records_all (H : Host) (reqs : list Request) (w : World) :
  (forall i, fails H i = false) ->
  feedback (serve H reqs w) = feedback w ++ omap submitted reqs.
Proof.
  intros Hall. revert w. induction reqs as [|req reqs IH]; intros w.
  - simpl. by rewrite app_nil_r.
  - change (serve H (req :: reqs) w) with (serve H reqs (fetch H req w).2).
    rewrite IH, (fetch_feedback_all H req w Hall), <- app_assoc. simpl.
    by destruct (submitted req).
Qed.

(** ** A count written and read back *)

Lemma parseInt_String_of_any (k : Z) : parseInt (String_of k) = Some k.
Proof.
  destruct k as [|p|p].
  - reflexivity.
  - apply parseInt_String_of. lia.
  - pose proof (parseInt_String_of (Z.pos p) ltac:(lia)) as E.
    unfold String_of, pretty, pretty_Z, pretty, pretty_positive, pretty, pretty_N in *.
    rewrite decide_False in * by done.
    destruct (pretty_head (N.pos p) EmptyString) as (d & r & Hd & Eh); [lia|].
    rewrite Eh, parseInt_digits in E by exact Hd.
    change (parseInt ("-" +:+ ?s)) with (Z.opp <$> digits s None).
    rewrite Eh, E. reflexivity.
Qed.

Lemma stored_count_plus (k : Z) : next_count (Some (String_of k)) = (k + 1)%Z.
Proof. unfold next_count. by rewrite parseInt_String_of_any. Qed.

Lemma category_of_key (c : string) : category_of "category:" ("category:" +:+ c) = c.
Proof. reflexivity. Qed.

Lemma parseInt_String_of_safe (k : Z) :
  (Z.abs k <= 2 ^ 53)%Z -> parseInt (String_of k) = Some k.
Proof. intros _. apply parseInt_String_of_any. Qed.

Lemma next_count_safe (stored : option string) :
  safe_count stored -> (Z.abs (next_count stored) <= 2 ^ 53)%Z.
Proof.
  intros Hs. unfold next_count. destruct stored as [s|]; [|lia].
  destruct (parseInt s) as [n|] eqn:E; [|lia].
  specialize (Hs s n eq_refl E). unfold safe_integer in Hs. lia.
Qed.

(** X13.  What the count block stores is what the listings read: when the
    read and the write of the block go through and the stored value, if it
    reads as a number, reads as one below 2^53 in absolute value, the entry
    that [/stats] and the entry that [/insights] make of the key afterwards
    carry the count that the block has left in [occurrences]; and when
    that count is below 2^53 in absolute value, the next count block takes
    it plus 1. *)
Theorem stored_count_reads_back (H : Host) (w : World) (l : Locals) (c : string) :
  ToString (category l) = Some c ->
  fails H (clock w) = false -> fails H (S (clock w)) = false ->
  safe_count (kv w !! ("category:" +:+ c)) ->
  exists w' l',
    incrementCount H (w, l) = (Some tt, (w', l'))
    /\ stats_entry (kv w') ("category:" +:+ c) = (c, occurrences l')
    /\ it_category (insights_entry H (kv w') ("category:" +:+ c)) = c
    /\ it_occurrences (insights_entry H (kv w') ("category:" +:+ c)) = occurrences l'
    /\ (safe_integer (occurrences l') ->
        next_count (kv w' !! ("category:" +:+ c)) = (occurrences l' + 1)%Z).
Proof.
  intros Ec E1 E2 Hs.
  pose proof (incrementCount_run H w l c Ec E1 E2) as R. cbv zeta in R.
  pose proof (next_count_safe _ Hs) as Hb.
  set (n := next_count (kv w !! ("category:" +:+ c))) in *.
  eexists _, _. split; [exact R|].
  unfold stats_entry, insights_entry.
  cbn [kv store record_call occurrences set_occurrences it_category it_occurrences].
  rewrite lookup_insert_eq, category_of_key.
  unfold read_count. rewrite (parseInt_String_of_safe n Hb).
  repeat split. intros _. apply stored_count_plus.
Qed.

(** ** The blocks of an ingest request, against the namespace *)

Section Anatomy.
Context (H : Host).

Lemma ingest_blocks text w :
  fails H (clock w) = false -> fails H (S (clock w)) = false ->
  exists l1 c2 c3 c4,
    incrementCount H (record_call (EvModel [text]) (persisted text w), l1) = (Some tt, c2)
    /\ updateSummary H c2 = (Some tt, c3)
    /\ updateExamples H text c3 = (Some tt, c4)
    /\ ingest H text (w, fresh) = (Some (json 200 (BSuccess text c4.2)), c4)
    /\ (classifier_failed H (S (S (clock w))) -> category l1 = JStr "unknown")
    /\ category c3.2 = category l1 /\ category c4.2 = category l1
    /\ occurrences c4.2 = occurrences c2.2
    /\ (forall key, startsWith key "category:" = true -> kv c4.1 !! key = kv c2.1 !! key)
    /\ (forall key, startsWith key "category_examples:" = true -> kv c3.1 !! key = kv w !! key)
    /\ (forall key, startsWith key "category_examples:" = false -> kv c4.1 !! key = kv c3.1 !! key).
Proof.
  intros E1 E2.
  destruct (ingest_run H text w fresh E1 E2) as (c1 & c2 & c3 & c4 & R1 & R2 & R3 & R4 & R).
  destruct (blocks_frame H text _ _ _ _ _ R1 R2 R3 R4) as (F1 & F2 & F3 & F4).
  pose proof (classify_world H text _ _ _ R1) as W1.
  destruct c1 as [w1 l1]. simpl in W1. subst w1.
  destruct F2 as (_ & K2 & _ & (_ & C2 & _)).
  destruct F3 as (_ & K3 & _ & ((_ & C3 & _) & O3)).
  destruct F4 as (_ & K4 & _ & ((_ & C4 & _) & O4)).
  simpl in C2, K2.
  exists l1, c2, c3, c4. repeat split; try done; try congruence.
  - intros Hf. by destruct (classify_failed H text _ _ _ R1 Hf) as (_ & ? & _).
  - intros key Hkey. apply count_key_apart in Hkey as [Hs He].
    rewrite (K4 key He), (K3 key Hs). reflexivity.
  - intros key Hkey. apply examples_key_apart in Hkey as [Hc Hs].
    rewrite (K3 key Hs), (K2 key Hc). reflexivity.
Qed.
End Anatomy.


(** ** Categories in the listing *)

Lemma category_keys_elem (m : gmap string string) (name : string) :
  name ∈ category_keys m <-> startsWith name "category:" = true /\ is_Some (m !! name).
Proof.
  unfold category_keys. rewrite list_elem_of_filter, sort_by_perm, elem_of_elements, elem_of_dom.
  done.
Qed.

Lemma listed_all (m : gmap string string) :
  (length (category_keys m) <= 1000)%nat -> listed m = category_keys m.
Proof. intros Hlen. unfold listed. by apply take_ge. Qed.

Lemma stats_entry_listed (m : gmap string string) (c v : string) :
  (length (category_keys m) <= 1000)%nat ->
  m !! ("category:" +:+ c) = Some v ->
  (c, read_count (Some v)) ∈ by_occurrences snd (stats_entry m <$> listed m).
Proof.
  intros Hlen Hv. rewrite by_occurrences_perm, (listed_all m Hlen).
  apply list_elem_of_fmap. exists ("category:" +:+ c). split.
  - unfold stats_entry. rewrite Hv, category_of_key. reflexivity.
  - apply category_keys_elem. split; [apply startsWith_app|eauto].
Qed.


(** X16.  When the first five calls of an ingest request go through (two
    statements on the table, the classifier, the read and the write of the
    count), and every stored value that reads as a number reads as one
    below 2^53 in absolute value, the count of the response is stored
    under the category's key, and a later [/stats] whose calls go through,
    with at most 1000 categories stored, lists the category with that
    count. *)
Theorem counted_submission_is_listed (H : Host) (req : Request) (w : World) (text : string) :
  pathname req <> "/stats" -> pathname req <> "/insights" ->
  text_param req = Some text -> text <> EmptyString ->
  calls_succeed H (clock w) 5 ->
  (forall key, safe_count (kv w !! key)) ->
  exists vars w',
    fetch H req w = (Some (json 200 (BSuccess text vars)), w')
    /\ forall c, ToString (category vars) = Some c ->
         kv w' !! ("category:" +:+ c) = Some (String_of (occurrences vars))
         /\ forall req', pathname req' = "/stats" ->
              calls_succeed H (clock w') (1 + length (listed (kv w'))) ->
              (length (category_keys (kv w')) <= 1000)%nat ->
              exists items,
                (fetch H req' w').1 = Some (json 200 (BStats items))
                /\ (c, occurrences vars) ∈ items.
Proof.
  intros N1 N2 Et Ne Hs Hsafe.
  assert (fails H (clock w) = false) as E1 by (apply Hs; lia).
  assert (fails H (S (clock w)) = false) as E2 by (apply Hs; lia).
  assert (fails H (S (S (S (clock w)))) = false) as Er by (apply Hs; lia).
  assert (fails H (S (S (S (S (clock w))))) = false) as Ew by (apply Hs; lia).
  destruct (ingest_blocks H text w E1 E2)
    as (l1 & c2 & c3 & c4 & R2 & _ & _ & R & _ & _ & C4 & O4 & K4 & _).
  exists c4.2, c4.1. rewrite (fetch_ingest H req w text N1 N2 Et Ne), R. split; [done|].
  intros c Hc. rewrite C4 in Hc.
  rewrite (incrementCount_run H (record_call (EvModel [text]) (persisted text w)) l1 c Hc Er Ew) in R2. injection R2 as <-.
  assert (kv c4.1 !! ("category:" +:+ c) = Some (String_of (occurrences c4.2))) as Hk.
  { rewrite O4, (K4 _ (startsWith_app _ _)). simpl. apply lookup_insert_eq. }
  split; [exact Hk|]. intros req' E' Hs' Hlen. eexists. split.
  - rewrite (fetch_stats H req' c4.1 E'). destruct (stats_ok H c4.1 Hs') as (w'' & ->).
    reflexivity.
  - pose proof (stats_entry_listed (kv c4.1) c _ Hlen Hk) as Hin.
    unfold read_count in Hin. rewrite parseInt_String_of_safe in Hin; [exact Hin|].
    rewrite O4. simpl. apply next_count_safe, Hsafe.
Qed.

(** ** Submissions one after the other *)

Section Quiet.
Context (H : Host).
Context (no_failure : forall i, fails H i = false).
Context (quiet : forall i, response_of (reply H i) = None).

Lemma quiet_step text w :
  text <> EmptyString ->
  exists vars w',
    fetch H (ingest_request text) w = (Some (json 200 (BSuccess text vars)), w')
    /\ category vars = JStr "unknown"
    /\ occurrences vars = next_count (kv w !! "category:unknown")
    /\ kv w' !! "category:unknown" = Some (String_of (occurrences vars))
    /\ (exists r, added H text r (kv w !! "category_examples:unknown") (examples vars))
    /\ kv w' !! "category_examples:unknown" = Some (JSON_stringify H (JArr (examples vars))).
Proof.
  intros Ne.
  destruct (ingest_blocks H text w (no_failure _) (no_failure _))
    as (l1 & c2 & [w3 l3] & c4 & R2 & _ & R4 & R & Hf & C3 & C4 & O4 & K4 & K3 & K4').
  assert (category l1 = JStr "unknown") as Hc.
  { apply Hf. apply no_text; [apply no_failure|]. left. apply quiet. }
  exists c4.2, c4.1.
  rewrite (fetch_ingest H (ingest_request text) w text) by done. rewrite R.
  split; [done|]. split; [congruence|].
  rewrite (incrementCount_run H (record_call (EvModel [text]) (persisted text w)) l1 "unknown") in R2
    by (try apply no_failure; rewrite Hc; reflexivity).
  injection R2 as <-.
  split; [by rewrite O4|].
  split; [rewrite O4, (K4 "category:unknown" eq_refl); apply lookup_insert_eq|].
  simpl in C3, K3.
  destruct (updateExamples_read H text w3 l3 "unknown") as (w4 & l4 & R4' & A & _ & St);
    [rewrite C3, Hc; reflexivity|apply no_failure|].
  rewrite R4 in R4'. injection R4' as ->. simpl.
  change ("category_examples:" +:+ "unknown") with "category_examples:unknown" in *.
  rewrite (K3 "category_examples:unknown" eq_refl) in A.
  split; [eauto|]. rewrite (St no_failure). apply lookup_insert_eq.
Qed.

Lemma quiet_counts texts (n : Z) w :
  Forall (fun t => t <> EmptyString) texts ->
  (n = 0%Z /\ kv w !! "category:unknown" = None) \/ kv w !! "category:unknown" = Some (String_of n) ->
  texts <> [] ->
  kv (serve H (ingest_request <$> texts) w) !! "category:unknown"
  = Some (String_of (n + Z.of_nat (length texts))).
Proof.
  revert n w. induction texts as [|text texts IH]; intros n w Hne Hst Hnil; [done|].
  apply Forall_cons in Hne as [Ht Hne].
  change (serve H (ingest_request <$> text :: texts) w)
    with (serve H (ingest_request <$> texts) (fetch H (ingest_request text) w).2).
  destruct (quiet_step text w Ht) as (vars & w' & R & _ & O & K & _). rewrite R. simpl.
  assert (occurrences vars = (n + 1)%Z) as On.
  { rewrite O. destruct Hst as [[-> ->]| ->]; [reflexivity|].
    apply stored_count_plus. }
  rewrite On in K. destruct texts as [|t2 texts].
  - simpl. rewrite K. reflexivity.
  - rewrite (IH (n + 1)%Z w' Hne (or_intror K)) by done.
    assert (n + 1 + Z.of_nat (length (t2 :: texts))
            = n + Z.of_nat (length (text :: t2 :: texts)))%Z as -> by (simpl length; lia).
    reflexivity.
Qed.

Context (roundtrip : forall ts : list string,
            JSON_parse H (JSON_stringify H (JArr (JStr <$> ts))) = Some (JArr (JStr <$> ts))).

Lemma quiet_examples texts (kept : list string) w :
  Forall (fun t => t <> EmptyString) texts ->
  (length (kept ++ texts) <= 3)%nat ->
  (kept = [] /\ kv w !! "category_examples:unknown" = None)
  \/ kv w !! "category_examples:unknown" = Some (JSON_stringify H (JArr (JStr <$> kept))) ->
  texts <> [] ->
  kv (serve H (ingest_request <$> texts) w) !! "category_examples:unknown"
  = Some (JSON_stringify H (JArr (JStr <$> kept ++ texts))).
Proof.
  revert kept w. induction texts as [|text texts IH]; intros kept w Hne Hlen Hst Hnil; [done|].
  apply Forall_cons in Hne as [Ht Hne].
  change (serve H (ingest_request <$> text :: texts) w)
    with (serve H (ingest_request <$> texts) (fetch H (ingest_request text) w).2).
  destruct (quiet_step text w Ht) as (vars & w' & R & _ & _ & _ & (r & A) & K). rewrite R. simpl.
  rewrite length_app in Hlen. simpl in Hlen.
  assert (examples vars = JStr <$> kept ++ [text]) as Ex.
  { apply added_cases in A. destruct Hst as [[-> E]|E]; rewrite E in A; [exact A|].
    rewrite roundtrip, length_fmap in A.
    assert ((length kept <? 3)%nat = true) as Hlt by (apply Nat.ltb_lt; lia).
    rewrite Hlt in A. rewrite A, fmap_app. reflexivity. }
  rewrite Ex in K. destruct texts as [|t2 texts].
  - simpl. exact K.
  - rewrite (IH (kept ++ [text]) w' Hne) by (try done; try (right; exact K);
      rewrite !length_app; simpl in *; lia).
    by rewrite <- app_assoc.
Qed.
End Quiet.

(** X17.  Submissions served one after the other are all counted: when no
    call fails and the classifier never yields a text (every submission
    falls into "unknown"), [n] submissions into a namespace without a count
    for "unknown" leave the count [n] there. *)
Theorem sequential_submissions_count (H : Host) (texts : list string) (w : World) :
  (forall i, fails H i = false) ->
  (forall i, response_of (reply H i) = None) ->
  Forall (fun t => t <> EmptyString) texts -> texts <> [] ->
  kv w !! "category:unknown" = None ->
  kv (serve H (ingest_request <$> texts) w) !! "category:unknown"
  = Some (String_of (Z.of_nat (length texts))).
Proof.
  intros Hall Hq Hne Hnil Hk.
  exact (quiet_counts H Hall Hq texts 0 w Hne (or_introl (conj eq_refl Hk)) Hnil).
Qed.

(** X18.  Under the same conditions, up to three submissions into a
    category without stored examples leave exactly their texts as the
    stored examples, in the order submitted.  ([JSON.parse] is taken to
    read back what [JSON.stringify] prints of an array of strings.) *)
Theorem first_three_examples_kept (H : Host) (texts : list string) (w : World) :
  (forall i, fails H i = false) ->
  (forall i, response_of (reply H i) = None) ->
  (forall ts : list string,
      JSON_parse H (JSON_stringify H (JArr (JStr <$> ts))) = Some (JArr (JStr <$> ts))) ->
  Forall (fun t => t <> EmptyString) texts -> texts <> [] -> (length texts <= 3)%nat ->
  kv w !! "category_examples:unknown" = None ->
  kv (serve H (ingest_request <$> texts) w) !! "category_examples:unknown"
  = Some (JSON_stringify H (JArr (JStr <$> texts))).
Proof.
  intros Hall Hq Hrt Hne Hnil Hlen Hk.
  exact (quiet_examples H Hall Hq Hrt texts [] w Hne Hlen (or_introl (conj eq_refl Hk)) Hnil).
Qed.

(** ** Where the stored examples come from *)

Section Provenance.
Context (H : Host) (P : string -> Prop).

Lemma frame_from {L} Pk Pe (RL : relation L) (c c' : World * L) :
  (forall k, Pk k = true -> startsWith k "category_examples:" = false) ->
  frame Pk Pe RL c c' -> examples_from P H c.1 -> examples_from P H c'.1.
Proof.
  intros Hk (_ & K & _) B key Hkey. rewrite K; [by apply B|].
  destruct (Pk key) eqn:E; [|done]. apply Hk in E. congruence.
Qed.

Lemma same_kv_from (w w' : World) :
  kv w' = kv w -> examples_from P H w -> examples_from P H w'.
Proof. intros K B key Hkey. rewrite K. by apply B. Qed.

Context (roundtrip : forall ts : list string,
            JSON_parse H (JSON_stringify H (JArr (JStr <$> ts))) = Some (JArr (JStr <$> ts))).
Context (draws : forall n, unit_interval (random H n)).

Lemma added_from text r stored ex :
  P text -> unit_interval r ->
  (stored = None
   \/ exists ts : list string,
        (length ts <= 3)%nat /\ Forall P ts
        /\ stored = Some (JSON_stringify H (JArr (JStr <$> ts)))) ->
  added H text r stored ex ->
  exists ts' : list string, (length ts' <= 3)%nat /\ Forall P ts' /\ ex = JStr <$> ts'.
Proof.
  intros Hp Hr Hs A. apply added_cases in A. destruct Hs as [->|(ts & Hlen & Hall & ->)].
  - exists [text]. split; [simpl; lia|]. split; [by repeat constructor|exact A].
  - rewrite roundtrip in A. rewrite length_fmap in A.
    destruct (length ts <? 3)%nat eqn:E.
    + exists (ts ++ [text]). apply Nat.ltb_lt in E. rewrite length_app. simpl.
      split; [lia|]. split; [apply Forall_app; split; [done|by repeat constructor]|].
      rewrite A, fmap_app. reflexivity.
    + apply Nat.ltb_ge in E. destruct (floor_third r Hr) as (i & Hi & Hfl & _).
      rewrite Hfl, array_set_within in A by (rewrite length_fmap; lia).
      exists (<[i := text]> ts). rewrite length_insert. split; [lia|].
      split; [by apply Forall_insert|]. rewrite A, list_fmap_insert. reflexivity.
Qed.

Lemma updateExamples_from text w l :
  P text -> examples_from P H w -> examples_from P H (updateExamples H text (w, l)).2.1.
Proof.
  intros Hp B.
  destruct (updateExamples_run H text w l) as (w' & l' & R & [K|(c & ex & Ec & A & _ & K)]);
    rewrite R; simpl.
  - by apply (same_kv_from w).
  - assert (startsWith ("category_examples:" +:+ c) "category_examples:" = true) as Hc
      by apply startsWith_app.
    destruct (added_from text _ _ ex Hp (draws _) (B _ Hc) A) as (ts' & Hlen & Hall & ->).
    intros key Hkey. rewrite K. destruct (decide ("category_examples:" +:+ c = key)) as [<-|Hne].
    + right. exists ts'. split; [exact Hlen|]. split; [exact Hall|]. apply lookup_insert_eq.
    + rewrite lookup_insert_ne by exact Hne. by apply B.
Qed.

Lemma ingest_from text w l :
  P text -> examples_from P H w -> examples_from P H (ingest H text (w, l)).2.1.
Proof.
  intros Hp B. unfold ingest, try_catch. rewrite run_bind.
  pose proof (persist_kv H text (w, l)) as K0.
  destruct (persist H text (w, l)) as [[[]|] c0]; simpl in K0;
    [|by apply (same_kv_from w)].
  assert (examples_from P H c0.1) as B0 by (by apply (same_kv_from w)).
  destruct (returns_run (classify H text) c0 (classify_returns H text)) as ([] & c1 & R1).
  destruct (returns_run (incrementCount H) c1 (incrementCount_returns H)) as ([] & c2 & R2).
  destruct (returns_run (updateSummary H) c2 (updateSummary_returns H)) as ([] & c3 & R3).
  destruct (blocks_frame H text c0 c1 c2 c3 (updateExamples H text c3).2) as (F1 & F2 & F3 & _);
    try done.
  { destruct (returns_run (updateExamples H text) c3 (updateExamples_returns H text))
      as ([] & c4 & R4). rewrite R4. reflexivity. }
  assert (examples_from P H c3.1) as B3.
  { eapply frame_from; [|exact F3|].
    { intros k Hk. by apply summary_key_apart in Hk as [_ ?]. }
    eapply frame_from; [|exact F2|].
    { intros k Hk. by apply count_key_apart in Hk as [_ ?]. }
    eapply frame_from; [|exact F1|]; done. }
  rewrite (run_ok _ _ _ _ _ R1), (run_ok _ _ _ _ _ R2), (run_ok _ _ _ _ _ R3).
  pose proof (updateExamples_from text c3.1 c3.2 Hp B3) as B4.
  destruct c3 as [w3 l3]. simpl in B4. rewrite run_bind.
  destruct (updateExamples H text (w3, l3)) as [[[]|] c4]; simpl in *; exact B4.
Qed.

Lemma fetch_from req w :
  (forall t, submitted req = Some t -> P t) ->
  examples_from P H w -> examples_from P H (fetch H req w).2.
Proof.
  intros Hp B. unfold submitted in Hp. unfold fetch.
  destruct (bool_decide (pathname req = "/stats")).
  { pose proof (stats_keeps H (w, tt)) as F.
    destruct (stats H (w, tt)) as [r [w' []]]. simpl in *.
    eapply (frame_from _ _ _ (w, tt) (w', tt)); [|exact F|exact B]. done. }
  destruct (bool_decide (pathname req = "/insights")).
  { pose proof (insights_keeps H req (w, tt)) as F.
    destruct (insights H req (w, tt)) as [r [w' []]]. simpl in *.
    eapply (frame_from _ _ _ (w, tt) (w', tt)); [|exact F|exact B]. done. }
  destruct (text_param req) as [text|]; [|exact B].
  destruct (nonempty text); [|exact B].
  pose proof (ingest_from text w fresh (Hp text eq_refl) B) as B'.
  destruct (ingest H text (w, fresh)) as [r [w' l']]. exact B'.
Qed.

Lemma serve_from reqs w :
  (forall req t, req ∈ reqs -> submitted req = Some t -> P t) ->
  examples_from P H w -> examples_from P H (serve H reqs w).
Proof.
  revert w. induction reqs as [|req reqs IH]; intros w Hp B; [exact B|].
  simpl. apply IH.
  - intros req' t Hin. apply Hp. by apply elem_of_cons; right.
  - apply fetch_from; [|exact B]. intros t. apply Hp. by apply elem_of_cons; left.
Qed.
End Provenance.

(** X19.  Start from a namespace without stored examples and serve any
    series of requests, with whatever failures and replies: whatever is
    stored as the examples of a category reads back as an array of strings,
    each of them the text submitted by one of the requests.  ([JSON.parse]
    is taken to read back what [JSON.stringify] prints of an array of
    strings, and [Math.random] to draw from the unit interval.) *)
Theorem stored_examples_were_submitted (H : Host) (reqs : list Request) (w : World) :
  (forall ts : list string,
      JSON_parse H (JSON_stringify H (JArr (JStr <$> ts))) = Some (JArr (JStr <$> ts))) ->
  (forall n, unit_interval (random H n)) ->
  (forall key, startsWith key "category_examples:" = true -> kv w !! key = None) ->
  forall category raw,
    kv (serve H reqs w) !! ("category_examples:" +:+ category) = Some raw ->
    exists ts : list string,
      JSON_parse H raw = Some (JArr (JStr <$> ts))
      /\ Forall (fun t => exists req, req ∈ reqs /\ submitted req = Some t) ts.
Proof.
  intros Hrt Hdraw Hnone category raw Hraw.
  set (P := fun t => exists req, req ∈ reqs /\ submitted req = Some t).
  assert (examples_from P H w) as B by (intros key Hkey; left; by apply Hnone).
  apply (serve_from H P Hrt Hdraw reqs) in B; [|intros req t Hin Hs; exists req; done].
  destruct (B ("category_examples:" +:+ category) (startsWith_app _ _))
    as [E|(ts & Hlen & Hall & E)]; rewrite E in Hraw; [done|].
  injection Hraw as <-. exists ts. split; [apply Hrt|exact Hall].
Qed.

(** ** The summary block without a stored summary *)

(** X20.  The summary block for a category without a stored summary, when
    its read and its write go through: the summary of the submission is
    stored as it is and returned as the category's summary, and no call to
    the merge service is made. *)
Theorem summary_first_sight (H : Host) (w : World) (l : Locals) (c s : string) :
  ToString (category l) = Some c -> summary l = JStr s ->
  kv w !! ("category_summary:" +:+ c) = None ->
  fails H (clock w) = false -> fails H (S (clock w)) = false ->
  exists w' l',
    updateSummary H (w, l) = (Some tt, (w', l'))
    /\ category_summary l' = JStr s
    /\ kv w' = <["category_summary:" +:+ c := s]> (kv w)
    /\ calls w' = calls w ++ [EvGet ("category_summary:" +:+ c);
                              EvPut ("category_summary:" +:+ c) (JStr s)].
Proof.
  intros Ec Es Hk E1 E2. eexists _, _. split.
  - unfold updateSummary.
    rewrite (run_ok _ _ _ tt (w, set_category_summary (summary l) l)) by reflexivity.
    apply try_ok.
    rewrite (run_ok _ _ _ (category l) (w, set_category_summary (summary l) l)) by reflexivity.
    rewrite (run_ok _ _ _ c (w, set_category_summary (summary l) l))
      by (unfold lift; simpl; rewrite Ec; reflexivity).
    cbv zeta. rewrite (run_ok _ _ _ _ _ (kv_get_ok H _ w _ E1)). rewrite Hk.
    rewrite (run_ok _ _ _ (JStr s) (record_call (EvGet ("category_summary:" +:+ c)) w,
                                    set_category_summary (summary l) l))
      by (unfold gets; simpl; rewrite Es; reflexivity).
    rewrite (run_ok _ _ _ _ _ (kv_put_ok H _ s (record_call _ w) _ E2)). reflexivity.
  - simpl. repeat split. by rewrite <- app_assoc.
Qed.

(** X21.  The summary block when the read of the stored summary throws:
    the category's summary of the response is the summary of this
    submission, the namespace is as it was, and the block makes no other
    call (no merge, no write). *)
Theorem summary_read_failure (H : Host) (w : World) (l : Locals) (c : string) :
  ToString (category l) = Some c -> fails H (clock w) = true ->
  exists w' l',
    updateSummary H (w, l) = (Some tt, (w', l'))
    /\ category_summary l' = summary l
    /\ kv w' = kv w
    /\ calls w' = calls w ++ [EvGet ("category_summary:" +:+ c)].
Proof.
  intros Ec E1. eexists _, _. split.
  - unfold updateSummary.
    rewrite (run_ok _ _ _ tt (w, set_category_summary (summary l) l)) by reflexivity.
    apply try_thrown.
    rewrite (run_ok _ _ _ (category l) (w, set_category_summary (summary l) l)) by reflexivity.
    rewrite (run_ok _ _ _ c (w, set_category_summary (summary l) l))
      by (unfold lift; simpl; rewrite Ec; reflexivity).
    cbv zeta. rewrite (run_thrown _ _ _ _ (kv_get_thrown H _ w _ E1)). reflexivity.
  - simpl. done.
Qed.

(** ** The examples block when the write fails *)

Lemma added_nonempty (H : Host) text r stored ex : added H text r stored ex -> ex <> [].
Proof.
  intros [|raw Hp|raw v Hp Hv|raw arr Hp Hlen|raw arr Hp Hlen]; try done.
  - by destruct arr.
  - unfold array_set. destruct arr as [|a arr]; [simpl in Hlen; lia|].
    destruct (floor_times3 r <? 0)%Z; [done|].
    destruct (Z.to_nat (floor_times3 r) <? length (a :: arr))%nat.
    + by destruct (Z.to_nat (floor_times3 r)).
    + done.
Qed.

(** Lines 209-228 once the read has returned [stored], with the number of
    calls made: one, the draw, when a slot is drawn, and none otherwise. *)
Lemma choose_examples_calls (H : Host) text stored w l :
  exists ex w1,
    (match stored with
     | None => assign (set_examples [JStr text])
     | Some raw =>
         try_catch (arr ← lift (JSON_parse H raw); addExample H arr text)
                   (assign (set_examples [JStr text]))
     end) (w, l) = (Some tt, (w1, set_examples ex l))
    /\ kv w1 = kv w
    /\ clock w1 = (if draws_slot H stored then S (clock w) else clock w)
    /\ added H text (random H (clock w)) stored ex.
Proof.
  unfold draws_slot. destruct stored as [raw|].
  - unfold try_catch. rewrite run_bind. unfold lift at 1.
    destruct (JSON_parse H raw) as [arr|] eqn:Hp.
    + destruct (addExample_run H arr text w l) as (ex & R & A). rewrite R.
      eexists ex, _. split; [reflexivity|]. split; [|split; [|by apply A]].
      * destruct arr; try done. destruct (length items <? 3)%nat; done.
      * destruct arr; try done. destruct (length items <? 3)%nat; done.
    + exists [JStr text], w. repeat split; auto. by apply added_unparsable.
  - exists [JStr text], w. repeat split; auto. apply added_first.
Qed.

(** X22.  The examples block when its read goes through and its write
    throws (the write is the call after the read, or the call after the
    draw when a slot is drawn): the examples of the response are the ones
    the block has made from the stored ones and the new text (they are not
    empty), although nothing has been stored. *)
Theorem examples_write_failure_reported (H : Host) (w : World) (l : Locals) (c text : string) :
  ToString (category l) = Some c -> fails H (clock w) = false ->
  fails H (examples_put_call H w c) = true ->
  exists w' l',
    updateExamples H text (w, l) = (Some tt, (w', l'))
    /\ added H text (random H (S (clock w))) (kv w !! ("category_examples:" +:+ c)) (examples l')
    /\ examples l' <> []
    /\ kv w' = kv w.
Proof.
  intros Ec E Ef. unfold updateExamples.
  rewrite (run_ok _ _ _ tt (w, set_examples [] l)) by reflexivity.
  unfold try_catch at 1.
  rewrite (run_ok _ _ _ (category l) (w, set_examples [] l)) by reflexivity.
  rewrite (run_ok _ _ _ c (w, set_examples [] l)) by (unfold lift; simpl; rewrite Ec; reflexivity).
  cbv zeta. rewrite (run_ok _ _ _ _ _ (kv_get_ok H _ w _ E)).
  destruct (choose_examples_calls H text (kv w !! ("category_examples:" +:+ c))
              (record_call (EvGet ("category_examples:" +:+ c)) w) (set_examples [] l))
    as (ex & w1 & R & K & Hclock & A).
  rewrite (run_ok _ _ _ _ _ R).
  rewrite (run_ok _ _ _ ex (w1, set_examples ex (set_examples [] l))) by reflexivity.
  assert (fails H (clock w1) = true) as E1.
  { rewrite Hclock. unfold examples_put_call in Ef. simpl.
    destruct (draws_slot H (kv w !! ("category_examples:" +:+ c))); exact Ef. }
  rewrite kv_put_thrown by exact E1. eexists _, _. split; [reflexivity|]. simpl.
  split; [exact A|]. split; [by eapply added_nonempty|exact K].
Qed.

(** ** The ends of the concurrent range *)

Lemma race_reads (c : string) (v : option string) (m : nat) (pre : list submission) :
  rtc (race_step c) {| cell := v; pending := pre ++ replicate m Waiting |}
                    {| cell := v; pending := pre ++ replicate m (HasRead v) |}.
Proof.
  revert pre. induction m as [|m IH]; intros pre; [apply rtc_refl|].
  eapply rtc_l.
  - apply (step_get c (length pre)). simpl. by apply list_lookup_middle.
  - simpl. rewrite insert_app_r_alt by lia. rewrite Nat.sub_diag. simpl.
    rewrite !(cons_middle _ pre), !app_assoc. apply IH.
Qed.

Lemma race_writes (c : string) (v : option string) (m : nat) (pre : list submission) :
  rtc (race_step c)
    {| cell := v; pending := pre ++ replicate m (HasRead None) |}
    {| cell := match m with 0%nat => v | _ => Some (String_of 1) end;
       pending := pre ++ replicate m (Finished true) |}.
Proof.
  revert v pre. induction m as [|m IH]; intros v pre; [apply rtc_refl|].
  eapply rtc_l.
  - apply (step_put_next c (length pre) _ None). simpl. by apply list_lookup_middle.
  - simpl. rewrite insert_app_r_alt by lia. rewrite Nat.sub_diag. simpl.
    rewrite !(cons_middle _ pre), !app_assoc.
    specialize (IH (Some (String_of 1)) (pre ++ [Finished true])).
    destruct m; exact IH.
Qed.

Lemma race_in_turn (c : string) (v : option string) (k : Z) (m : nat) (pre : list submission) :
  next_count v = (k + 1)%Z ->
  rtc (race_step c)
    {| cell := v; pending := pre ++ replicate m Waiting |}
    {| cell := match m with 0%nat => v | _ => Some (String_of (k + Z.of_nat m)) end;
       pending := pre ++ replicate m (Finished true) |}.
Proof.
  revert v k pre. induction m as [|m IH]; intros v k pre Hv; [apply rtc_refl|].
  eapply rtc_l.
  { apply (step_get c (length pre)). simpl. by apply list_lookup_middle. }
  simpl pending. rewrite insert_app_r_alt by lia. rewrite Nat.sub_diag.
  eapply rtc_l.
  { apply (step_put_next c (length pre) _ v). simpl. by apply list_lookup_middle. }
  simpl pending. rewrite insert_app_r_alt by lia. rewrite Nat.sub_diag. simpl.
  rewrite Hv, !(cons_middle _ pre), !app_assoc.
  specialize (IH (Some (String_of (k + 1))) (k + 1)%Z (pre ++ [Finished true])
                 (stored_count_plus _)).
  destruct m as [|m]; [exact IH|].
  assert (k + 1 + Z.of_nat (S m) = k + Z.of_nat (S (S m)))%Z as <- by lia. exact IH.
Qed.

(** X23.  Both ends of the range of a concurrent count are reached: for
    every [n >= 1] there is an interleaving of the count blocks of [n]
    submissions, all of whose writes go through, that leaves the count 1
    (all read before any writes), and one that leaves the count [n] (each
    reads after the one before has written). *)
Theorem concurrent_count_ends (c : string) (n : nat) :
  (1 <= n)%nat ->
  (exists s, rtc (race_step c) (race_start n) s
     /\ pending s = replicate n (Finished true) /\ cell s = Some (String_of 1))
  /\ (exists s, rtc (race_step c) (race_start n) s
        /\ pending s = replicate n (Finished true)
        /\ cell s = Some (String_of (Z.of_nat n))).
Proof.
  intros Hn. destruct n as [|n]; [lia|]. split.
  - exists {| cell := Some (String_of 1); pending := replicate (S n) (Finished true) |}.
    split; [|split; reflexivity].
    etrans; [apply (race_reads c None (S n) [])|]. apply (race_writes c None (S n) []).
  - exists {| cell := Some (String_of (Z.of_nat (S n)));
              pending := replicate (S n) (Finished true) |}.
    split; [|split; reflexivity].
    apply (race_in_turn c None 0 (S n) []). reflexivity.
Qed.

(** ** Text without the four characters *)

(** X24.  [esc] leaves a text without [&], [<], [>] and double quote as it
    is. *)
Theorem esc_keeps_plain_text (s : string) :
  Forall (fun c => special c = false) (list_ascii_of_string s) -> esc s = s.
Proof.
  induction s as [|a s IH]; intros Hs; [reflexivity|].
  simpl in Hs. apply Forall_cons in Hs as [Ha Hs]. rewrite esc_cons, (IH Hs).
  unfold special in Ha. apply orb_false_iff in Ha as [Ha E4].
  apply orb_false_iff in Ha as [Ha E3]. apply orb_false_iff in Ha as [E1 E2].
  unfold entity. rewrite E1, E2, E3, E4. reflexivity.
Qed.

(** ** The entries of the listing are stored categories *)



(** ** The choice of the view *)

Lemma includes_iff (s sub : string) :
  includes s sub = true <-> exists a b, s = a +:+ sub +:+ b.
Proof.
  split.
  - induction s as [|x s IH]; simpl; intros Hi.
    + rewrite orb_false_r in Hi. apply startsWith_inv in Hi as [r ->].
      exists EmptyString, r. reflexivity.
    + apply orb_true_iff in Hi as [Hi|Hi].
      * apply startsWith_inv in Hi as [r ->]. exists EmptyString, r. reflexivity.
      * destruct (IH Hi) as (a & b & ->). exists (String x a), b. reflexivity.
  - intros (a & b & ->). induction a as [|x a IH].
    + change (EmptyString +:+ sub +:+ b) with (sub +:+ b).
      destruct (sub +:+ b) eqn:E; simpl; rewrite <- E, startsWith_app; reflexivity.
    + rewrite append_cons. simpl. rewrite IH. apply orb_true_r.
Qed.

(** X26.  The HTML view of [/insights] is chosen exactly when the [accept]
    header holds [text/html] somewhere, or the [view] parameter is
    [html]. *)
Theorem html_view_selected (req : Request) :
  wantsHtml req = true
  <-> (exists a b, accept req = Some (a +:+ "text/html" +:+ b)) \/ view_param req = Some "html".
Proof.
  unfold wantsHtml. rewrite orb_true_iff, includes_iff, bool_decide_eq_true.
  split; intros [Ha|Hv]; try (by right); left.
  - destruct Ha as (a & b & Ha). destruct (accept req) as [h|]; simpl in Ha.
    + exists a, b. by rewrite Ha.
    + destruct a; discriminate Ha.
  - destruct Ha as (a & b & ->). exists a, b. reflexivity.
Qed.

(** ** Closed runs of the properties above *)


(** The read of the first count fails. *)
Lemma stats_read_failure_witness :
  (fetch (scripted (only 1) (fun _ => JNull) (1 # 2)) stats_request (world_of sample_store)).1
  = Some (json 500 (BError "KV read error")).
Proof.
  apply (stats_read_failure (scripted (only 1) (fun _ => JNull) (1 # 2)) stats_request
           (world_of sample_store) 1).
  - reflexivity.
  - vm_compute. lia.
  - reflexivity.
Defined.


(** The read of the first summary fails. *)
Lemma insights_read_failure_witness :
  (fetch (scripted (only 2) (fun _ => JNull) (1 # 2)) (insights_request None)
     (world_of sample_store)).1
  = Some (json 500 (BError "KV read error")).
Proof.
  apply (insights_read_failure (scripted (only 2) (fun _ => JNull) (1 # 2))
           (insights_request None) (world_of sample_store) 2).
  - reflexivity.
  - vm_compute. lia.
  - reflexivity.
Defined.


(** The examples of a category are stored as the text [5]. *)
Lemma insights_page_breaks_witness :
  (fetch (scripted never (fun _ => JNull) (1 # 2)) (insights_request (Some "html"))
     (world_of {["category:billing" := "2"; "category_examples:billing" := "5"]})).1
  = Some (json 500 (BError "KV read error")).
Proof.
  apply (insights_page_breaks (scripted never (fun _ => JNull) (1 # 2))
           (insights_request (Some "html"))
           (world_of {["category:billing" := "2"; "category_examples:billing" := "5"]})
           "category:billing" "5" (JNum 5)).
  - reflexivity.
  - reflexivity.
  - apply list_elem_of_here.
  - reflexivity.
  - done.
  - reflexivity.
  - reflexivity.
  - done.
Defined.

Lemma listings_sorted_witness :
  (forall items, body (json 200 (BStats [("ui", 5%Z); ("bug", 2%Z)])) = BStats items ->
     descending snd items /\ (length items <= 1000)%nat)
  /\ (forall items, body (json 200 (BStats [("ui", 5%Z); ("bug", 2%Z)])) = BInsights items ->
     descending it_occurrences items /\ (length items <= 1000)%nat).
Proof.
  apply (listings_sorted (scripted never (fun _ => JNull) (1 # 2)) stats_request
           (world_of sample_store)).
  - left. reflexivity.
  - reflexivity.
Defined.

Lemma feedback_table_records_all_witness :
  feedback (serve (scripted never (fun _ => JNull) (1 # 2))
              [ingest_request "slow checkout"; stats_request; ingest_request "tiny buttons"]
              empty_world)
  = feedback empty_world
    ++ omap submitted [ingest_request "slow checkout"; stats_request;
                       ingest_request "tiny buttons"].
Proof.
  apply (feedback_table_records_all (scripted never (fun _ => JNull) (1 # 2))).
  intros i. reflexivity.
Defined.




Lemma counted_submission_is_listed_witness :
  exists vars w',
    fetch (scripted never (fun _ => JNull) (1 # 2)) (ingest_request "slow checkout") empty_world
    = (Some (json 200 (BSuccess "slow checkout" vars)), w')
    /\ forall c, ToString (category vars) = Some c ->
         kv w' !! ("category:" +:+ c) = Some (String_of (occurrences vars))
         /\ forall req', pathname req' = "/stats" ->
              calls_succeed (scripted never (fun _ => JNull) (1 # 2)) (clock w')
                (1 + length (listed (kv w'))) ->
              (length (category_keys (kv w')) <= 1000)%nat ->
              exists items,
                (fetch (scripted never (fun _ => JNull) (1 # 2)) req' w').1
                = Some (json 200 (BStats items))
                /\ (c, occurrences vars) ∈ items.
Proof.
  apply (counted_submission_is_listed (scripted never (fun _ => JNull) (1 # 2))
           (ingest_request "slow checkout") empty_world "slow checkout"); done.
Defined.

Lemma sequential_submissions_count_witness :
  kv (serve (scripted never (fun _ => JNull) (1 # 2))
        (ingest_request <$> ["a"; "b"; "c"; "d"]) empty_world) !! "category:unknown"
  = Some (String_of (Z.of_nat (length ["a"; "b"; "c"; "d"]))).
Proof.
  apply (sequential_submissions_count (scripted never (fun _ => JNull) (1 # 2))
           ["a"; "b"; "c"; "d"] empty_world).
  - intros i. reflexivity.
  - intros i. reflexivity.
  - repeat constructor; done.
  - done.
  - reflexivity.
Defined.

Lemma first_three_examples_kept_witness :
  kv (serve (scripted never (fun _ => JNull) (1 # 2))
        (ingest_request <$> ["a"; "b"; "c"]) empty_world) !! "category_examples:unknown"
  = Some (JSON_stringify (scripted never (fun _ => JNull) (1 # 2))
            (JArr (JStr <$> ["a"; "b"; "c"]))).
Proof.
  apply (first_three_examples_kept (scripted never (fun _ => JNull) (1 # 2))
           ["a"; "b"; "c"] empty_world).
  - intros i. reflexivity.
  - intros i. reflexivity.
  - exact five_roundtrip.
  - repeat constructor; done.
  - done.
  - simpl. lia.
  - reflexivity.
Defined.

Lemma stored_examples_were_submitted_witness :
  exists ts : list string,
    JSON_parse (scripted never (fun _ => JNull) (1 # 2))
      (json_text (JArr [JStr "a"; JStr "e"; JStr "c"])) = Some (JArr (JStr <$> ts))
    /\ Forall (fun t => exists req,
                 req ∈ ingest_request <$> ["a"; "b"; "c"; "d"; "e"]
                 /\ submitted req = Some t) ts.
Proof.
  exact (stored_examples_were_submitted (scripted never (fun _ => JNull) (1 # 2))
           (ingest_request <$> ["a"; "b"; "c"; "d"; "e"]) empty_world
           five_roundtrip five_draws five_start "unknown" _ five_stored).
Defined.

Lemma summary_first_sight_witness :
  exists w' l',
    updateSummary (scripted never (fun _ => JNull) (1 # 2))
      (empty_world, set_summary (JStr "Checkout is slow.") (set_category (JStr "billing") fresh))
    = (Some tt, (w', l'))
    /\ category_summary l' = JStr "Checkout is slow."
    /\ kv w' = <["category_summary:" +:+ "billing" := "Checkout is slow."]> (kv empty_world)
    /\ calls w' = calls empty_world
                  ++ [EvGet ("category_summary:" +:+ "billing");
                      EvPut ("category_summary:" +:+ "billing") (JStr "Checkout is slow.")].
Proof.
  apply (summary_first_sight (scripted never (fun _ => JNull) (1 # 2)) empty_world
           (set_summary (JStr "Checkout is slow.") (set_category (JStr "billing") fresh))
           "billing" "Checkout is slow."); reflexivity.
Defined.

Lemma summary_read_failure_witness :
  exists w' l',
    updateSummary (scripted (only 0) (fun _ => JNull) (1 # 2))
      (world_of {["category_summary:billing" := "Checkout is slow."]},
       set_summary (JStr "Pay page hangs.") (set_category (JStr "billing") fresh))
    = (Some tt, (w', l'))
    /\ category_summary l'
       = summary (set_summary (JStr "Pay page hangs.") (set_category (JStr "billing") fresh))
    /\ kv w' = kv (world_of {["category_summary:billing" := "Checkout is slow."]})
    /\ calls w' = calls (world_of {["category_summary:billing" := "Checkout is slow."]})
                  ++ [EvGet ("category_summary:" +:+ "billing")].
Proof.
  apply (summary_read_failure (scripted (only 0) (fun _ => JNull) (1 # 2))
           (world_of {["category_summary:billing" := "Checkout is slow."]})
           (set_summary (JStr "Pay page hangs.") (set_category (JStr "billing") fresh))
           "billing"); reflexivity.
Defined.

(** Three examples are stored, so that a slot is drawn, and the only call
    that fails is the write. *)
Lemma examples_write_failure_reported_witness :
  exists w' l',
    updateExamples (scripted (only 2) (fun _ => JNull) (1 # 2)) "d"
      (world_of {["category_examples:billing" := json_text (JArr [JStr "a"; JStr "b"; JStr "c"])]},
       set_category (JStr "billing") fresh)
    = (Some tt, (w', l'))
    /\ added (scripted (only 2) (fun _ => JNull) (1 # 2)) "d"
         (random (scripted (only 2) (fun _ => JNull) (1 # 2))
            (S (clock (world_of {["category_examples:billing" :=
                                    json_text (JArr [JStr "a"; JStr "b"; JStr "c"])]}))))
         (kv (world_of {["category_examples:billing" :=
                           json_text (JArr [JStr "a"; JStr "b"; JStr "c"])]})
            !! ("category_examples:" +:+ "billing")) (examples l')
    /\ examples l' <> []
    /\ kv w' = kv (world_of {["category_examples:billing" :=
                                json_text (JArr [JStr "a"; JStr "b"; JStr "c"])]}).
Proof.
  apply (examples_write_failure_reported (scripted (only 2) (fun _ => JNull) (1 # 2))
           (world_of {["category_examples:billing" :=
                         json_text (JArr [JStr "a"; JStr "b"; JStr "c"])]})
           (set_category (JStr "billing") fresh) "billing" "d").
  - reflexivity.
  - reflexivity.
  - vm_compute. reflexivity.
Defined.

Lemma concurrent_count_ends_witness :
  (exists s, rtc (race_step "unknown") (race_start 2) s
     /\ pending s = replicate 2 (Finished true) /\ cell s = Some (String_of 1))
  /\ (exists s, rtc (race_step "unknown") (race_start 2) s
        /\ pending s = replicate 2 (Finished true)
        /\ cell s = Some (String_of (Z.of_nat 2))).
Proof. apply (concurrent_count_ends "unknown" 2). lia. Defined.

Lemma esc_keeps_plain_text_witness : esc "slow checkout" = "slow checkout".
Proof. apply (esc_keeps_plain_text "slow checkout"). simpl. repeat constructor. Defined.

(** A first submission into "billing". *)
Lemma stored_count_reads_back_witness :
  exists w' l',
    incrementCount (scripted never (fun _ => JNull) (1 # 2))
      (empty_world, set_category (JStr "billing") fresh) = (Some tt, (w', l'))
    /\ stats_entry (kv w') ("category:" +:+ "billing") = ("billing", occurrences l')
    /\ it_category (insights_entry (scripted never (fun _ => JNull) (1 # 2)) (kv w')
                      ("category:" +:+ "billing")) = "billing"
    /\ it_occurrences (insights_entry (scripted never (fun _ => JNull) (1 # 2)) (kv w')
                         ("category:" +:+ "billing")) = occurrences l'
    /\ (safe_integer (occurrences l') ->
        next_count (kv w' !! ("category:" +:+ "billing")) = (occurrences l' + 1)%Z).
Proof.
  apply (stored_count_reads_back (scripted never (fun _ => JNull) (1 # 2)) empty_world
           (set_category (JStr "billing") fresh) "billing").
  - reflexivity.
  - reflexivity.
  - reflexivity.
  - intros s n Hs. simpl in Hs. rewrite lookup_empty in Hs. done.
Defined.

